(** * go-rriclient: the RRI query codec ([pkg/rri])

    A shallow embedding of the query object model of the RRI client:
    contact types, DENIC handles, domain and contact records, the ordered
    field list, the typed query constructors, [EncodeKV] and [ParseQueryKV].

    Go strings are byte sequences and are modelled by [string] (a list of
    8-bit [ascii] values).  Go's [int] is modelled by [Z], with the 64-bit
    range written out where the code depends on it ([strconv.Atoi]).  A
    method with a pointer receiver that updates a field list returns the
    updated list; a function returning [(T, error)] returns [T + error].

    The byte-level functions of the standard library ([strings.Split],
    [SplitN], [ReplaceAll], [TrimSpace], [HasPrefix], [strconv.Atoi], the
    [%d] verb, [hex.EncodeToString], the layout [20060102]) are written out.
    The Unicode case mapping, the IDNA codec and the digest are interfaces,
    each with an instance to evaluate the package: byte-wise ASCII case
    mapping, a two-name conversion table, and SHA-256. *)

From Stdlib Require Import String Ascii List ZArith NArith Lia Bool.
Import ListNotations.
Open Scope string_scope.

(* ================================================================== *)
(** * The parts of Go's standard library the package calls *)
(* ================================================================== *)

Module GoStrings.

(** The numeric value of a byte. *)
Definition byte (a : ascii) : N := N_of_ascii a.

Fixpoint mapBytes (f : ascii -> ascii) (s : string) : string :=
  match s with
  | EmptyString => EmptyString
  | String a s' => String (f a) (mapBytes f s')
  end.

Fixpoint allBytes (p : ascii -> bool) (s : string) : bool :=
  match s with
  | EmptyString => true
  | String a s' => p a && allBytes p s'
  end.

Definition isASCIIByte (a : ascii) : bool := (byte a <? 128)%N.

(** [isASCII] of package strings: no byte of [s] is [>= utf8.RuneSelf]. *)
Definition isASCII (s : string) : bool := allBytes isASCIIByte s.

(** ASCII case mapping: ['a'..'z'] is [97..122], ['A'..'Z'] is [65..90]. *)
Definition upperByte (a : ascii) : ascii :=
  if ((97 <=? byte a) && (byte a <=? 122))%N
  then ascii_of_N (byte a - 32) else a.

Definition lowerByte (a : ascii) : ascii :=
  if ((65 <=? byte a) && (byte a <=? 90))%N
  then ascii_of_N (byte a + 32) else a.

(** [strings.ToUpper] and [strings.ToLower] map every rune through the
    Unicode case tables.  Those tables are not part of this package, so the
    two functions are an interface. *)
Class CaseMapping : Type := {
  ToUpper : string -> string;
  ToLower : string -> string
}.

(** What the package relies on: on ASCII strings both functions are the
    byte-wise mapping above (the fast path of the Go implementation), and
    upper-casing twice is upper-casing once. *)
Class CaseMappingLaws (CM : CaseMapping) : Prop := {
  ToUpper_ascii : forall s, isASCII s = true -> ToUpper s = mapBytes upperByte s;
  ToLower_ascii : forall s, isASCII s = true -> ToLower s = mapBytes lowerByte s;
  ToUpper_idem : forall s, ToUpper (ToUpper s) = ToUpper s
}.

(** The byte-wise mapping itself; it evaluates the package on concrete
    ASCII inputs. *)
Definition asciiCase : CaseMapping := {|
  ToUpper := mapBytes upperByte;
  ToLower := mapBytes lowerByte
|}.

(** No byte of [s] is [c]. *)
Definition lacks (c : ascii) (s : string) : bool :=
  allBytes (fun x => negb (Ascii.eqb x c)) s.

(** The line feed, as a string. *)
Definition LF : string := String "010" "".

(** [strings.HasPrefix]. *)
Definition HasPrefix (s p : string) : bool := String.prefix p s.

Fixpoint drop (n : nat) (s : string) : string :=
  match n, s with
  | S k, String _ s' => drop k s'
  | _, _ => s
  end.

(** [strings.Cut]: the text before and after the first (leftmost) instance
    of [sep], or [None] when [sep] does not occur. *)
Fixpoint Cut (s sep : string) : option (string * string) :=
  if String.prefix sep s then Some (EmptyString, drop (String.length sep) s)
  else match s with
       | EmptyString => None
       | String a s' =>
           match Cut s' sep with
           | Some (before, after) => Some (String a before, after)
           | None => None
           end
       end.

(** [strings.SplitN] for a non-empty separator and [n >= 0]: at most [n]
    substrings, the last one being the unsplit remainder. *)
Fixpoint SplitN (s sep : string) (n : nat) : list string :=
  match n with
  | O => []
  | S O => [s]
  | S m =>
      match Cut s sep with
      | None => [s]
      | Some (before, after) => before :: SplitN after sep m
      end
  end.

(** [strings.Split] for a non-empty separator: all substrings.  A string
    of length [k] has at most [k] separators, hence at most [k+1] parts. *)
Definition Split (s sep : string) : list string :=
  SplitN s sep (S (String.length s)).

(** [strings.ReplaceAll] for a non-empty [old]: non-overlapping instances,
    left to right.  [skip] counts the bytes of a replaced instance that are
    still to be passed over. *)
Fixpoint replaceFrom (old new : string) (skip : nat) (s : string) : string :=
  match s with
  | EmptyString => EmptyString
  | String a s' =>
      match skip with
      | S k => replaceFrom old new k s'
      | O =>
          if String.prefix old s
          then new ++ replaceFrom old new (String.length old - 1) s'
          else String a (replaceFrom old new 0 s')
      end
  end.

Definition ReplaceAll (s old new : string) : string := replaceFrom old new 0 s.

(** ** strings.TrimSpace

    [TrimSpace] removes leading and trailing runes for which
    [unicode.IsSpace] holds: U+0009..U+000D, U+0020, U+0085, U+00A0, U+1680,
    U+2000..U+200A, U+2028, U+2029, U+202F, U+205F, U+3000.  A rune decodes to
    one of these exactly when the bytes at that place are its UTF-8
    encoding, so trimming is stated on the encodings. *)

Definition isSpace1 (a : ascii) : bool :=
  let x := byte a in
  (((9 <=? x) && (x <=? 13)) || (x =? 32))%N.

(** U+0085 is [C2 85], U+00A0 is [C2 A0]. *)
Definition isSpace2 (a b : ascii) : bool :=
  ((byte a =? 194) && ((byte b =? 133) || (byte b =? 160)))%N.

(** U+1680 is [E1 9A 80]; U+2000..U+200A are [E2 80 80]..[E2 80 8A];
    U+2028, U+2029, U+202F are [E2 80 A8], [E2 80 A9], [E2 80 AF];
    U+205F is [E2 81 9F]; U+3000 is [E3 80 80]. *)
Definition isSpace3 (a b c : ascii) : bool :=
  let x := byte a in let y := byte b in let z := byte c in
  (((x =? 225) && (y =? 154) && (z =? 128))
   || ((x =? 226) && (y =? 128)
       && (((128 <=? z) && (z <=? 138)) || (z =? 168) || (z =? 169) || (z =? 175)))
   || ((x =? 226) && (y =? 129) && (z =? 159))
   || ((x =? 227) && (y =? 128) && (z =? 128)))%N.

(** Drop the white space at the head of [s]; [p2] and [p3] recognise the
    two- and three-byte encodings in the order the bytes are met. *)
Fixpoint trimHead (p2 : ascii -> ascii -> bool)
    (p3 : ascii -> ascii -> ascii -> bool) (s : string) : string :=
  match s with
  | EmptyString => EmptyString
  | String a s1 =>
      if isSpace1 a then trimHead p2 p3 s1
      else match s1 with
           | String b s2 =>
               if p2 a b then trimHead p2 p3 s2
               else match s2 with
                    | String c s3 =>
                        if p3 a b c then trimHead p2 p3 s3 else s
                    | EmptyString => s
                    end
           | EmptyString => s
           end
  end.

Fixpoint revOnto (s acc : string) : string :=
  match s with
  | EmptyString => acc
  | String a s' => revOnto s' (String a acc)
  end.

Definition rev (s : string) : string := revOnto s EmptyString.

Definition TrimLeftSpace (s : string) : string := trimHead isSpace2 isSpace3 s.

(** Trailing white space is leading white space of the reversed string,
    each encoding being met last byte first. *)
Definition lastFirst2 (a b : ascii) : bool := isSpace2 b a.
Definition lastFirst3 (a b c : ascii) : bool := isSpace3 c b a.

Definition TrimRightSpace (s : string) : string :=
  rev (trimHead lastFirst2 lastFirst3 (rev s)).

Definition TrimSpace (s : string) : string := TrimRightSpace (TrimLeftSpace s).

(** ** strconv.Atoi and the [%d] verb *)

Definition isDigit (a : ascii) : bool := ((48 <=? byte a) && (byte a <=? 57))%N.

Definition digitVal (a : ascii) : Z := Z.of_N (byte a) - 48.

Definition digitChar (d : Z) : ascii := ascii_of_N (Z.to_N (d + 48)).

(** The loop [n = n*10 + int(ch - '0')] over the bytes of [s]; [None] as
    soon as a byte is not a decimal digit. *)
Fixpoint parseDigits (acc : Z) (s : string) : option Z :=
  match s with
  | EmptyString => Some acc
  | String a s' =>
      if isDigit a then parseDigits (acc * 10 + digitVal a) s' else None
  end.

Definition maxInt : Z := 9223372036854775807.
Definition minInt : Z := -9223372036854775808.

(** [strconv.Atoi] with a 64-bit [int]: an optional sign, then at least one
    decimal digit and nothing else; a value outside the range of [int] is
    an error as well. *)
Definition Atoi (s : string) : option Z :=
  match s with
  | EmptyString => None
  | String a rest =>
      let neg := Ascii.eqb a "-" in
      let body := if Ascii.eqb a "-" || Ascii.eqb a "+" then rest else s in
      match body with
      | EmptyString => None
      | _ =>
          match parseDigits 0 body with
          | None => None
          | Some v =>
              let n := if neg then (- v)%Z else v in
              if ((minInt <=? n) && (n <=? maxInt))%Z then Some n else None
          end
      end
  end.

(** The decimal digits of [n >= 0] pushed in front of [acc], least
    significant first; [fuel] bounds the number of digits. *)
Fixpoint utoa (fuel : nat) (n : Z) (acc : string) : string :=
  match fuel with
  | O => acc
  | S f =>
      if (n <? 10)%Z then String (digitChar n) acc
      else utoa f (n / 10) (String (digitChar (n mod 10)) acc)
  end.

(** [fmt.Sprintf("%d", n)]. *)
Definition Itoa (n : Z) : string :=
  if (n <? 0)%Z
  then String "-" (utoa (S (Z.to_nat (Z.log2 (- n)))) (- n) EmptyString)
  else utoa (S (Z.to_nat (Z.log2 n))) n EmptyString.

(** ** encoding/hex *)

Definition hexDigit (n : N) : ascii :=
  if (n <? 10)%N then ascii_of_N (n + 48) else ascii_of_N (n + 87).

(** A digit of lower-case hexadecimal: ['0'..'9'] or ['a'..'f']. *)
Definition isLowerHex (a : ascii) : bool :=
  ((48 <=? byte a) && (byte a <=? 57) || (97 <=? byte a) && (byte a <=? 102))%N.

(** [hex.EncodeToString]: two lower-case hexadecimal digits per byte. *)
Fixpoint EncodeToString (s : string) : string :=
  match s with
  | EmptyString => EmptyString
  | String a s' =>
      String (hexDigit (byte a / 16)) (String (hexDigit (byte a mod 16)) (EncodeToString s'))
  end.

End GoStrings.
Export GoStrings.

(* ================================================================== *)
(** * Collaborators of the package *)
(* ================================================================== *)

(** [golang.org/x/net/idna]: [idna.ToUnicode] and [idna.ToASCII].  Each
    direction can fail; the package uses the converted name only when the
    returned error is nil, which is the [Some] case here. *)
Class IDNA : Type := {
  idna_ToUnicode : string -> option string;
  idna_ToASCII : string -> option string
}.

(** [crypto/sha256]: the digest (32 raw bytes) of a byte string, as
    obtained from [sha256.New()], [Write] and [Sum(nil)]. *)
Class SHA256 : Type := {
  Sum256 : string -> string
}.

(** [time.Time], as far as the package reads it: the calendar date that
    [t.Date()] returns, with [1 <= Month <= 12] and [1 <= Day <= 31]. *)
Record Time : Type := mkTime { Year : Z; Month : Z; Day : Z }.

Fixpoint zeros (n : nat) : string :=
  match n with
  | O => EmptyString
  | S k => String "0" (zeros k)
  end.

(** [appendInt] of package time: the decimal form of [x], zero-padded on
    the left to [width] digits, after a minus sign when [x] is negative.
    Longer numbers are not cut. *)
Definition appendInt (x : Z) (width : nat) : string :=
  let digits := Itoa (Z.abs x) in
  ((if (x <? 0)%Z then "-" else "")
   ++ zeros (width - String.length digits) ++ digits)%string.

(** [t.Format("20060102")]: the four-digit year, the two-digit month and
    the two-digit day of the month. *)
Definition Format20060102 (t : Time) : string :=
  (appendInt (Year t) 4 ++ appendInt (Month t) 2 ++ appendInt (Day t) 2)%string.

(** ** SHA-256 (FIPS 180-4), the digest behind [crypto/sha256]

    Bytes and 32-bit words are numbers in [N]; additions wrap at [2^32]. *)
Module Sha256.
Local Open Scope N_scope.

Definition w32 (x : N) : N := N.land x 4294967295.

Definition rotr (n x : N) : N := N.lor (N.shiftr x n) (w32 (N.shiftl x (32 - n))).

Definition Ch (x y z : N) : N :=
  N.lxor (N.land x y) (N.land (N.lxor x 4294967295) z).

Definition Maj (x y z : N) : N :=
  N.lxor (N.lxor (N.land x y) (N.land x z)) (N.land y z).

Definition bigSigma0 (x : N) : N := N.lxor (N.lxor (rotr 2 x) (rotr 13 x)) (rotr 22 x).
Definition bigSigma1 (x : N) : N := N.lxor (N.lxor (rotr 6 x) (rotr 11 x)) (rotr 25 x).
Definition smallSigma0 (x : N) : N := N.lxor (N.lxor (rotr 7 x) (rotr 18 x)) (N.shiftr x 3).
Definition smallSigma1 (x : N) : N := N.lxor (N.lxor (rotr 17 x) (rotr 19 x)) (N.shiftr x 10).

(** The largest [r] below [2^bits] with [r^3 <= n], one bit at a time. *)
Fixpoint cbrtBits (bits : nat) (n r : N) : N :=
  match bits with
  | O => r
  | S k =>
      let r' := N.lor r (N.shiftl 1 (N.of_nat k)) in
      cbrtBits k n (if r' * r' * r' <=? n then r' else r)
  end.

Definition primes : list N :=
  [2; 3; 5; 7; 11; 13; 17; 19; 23; 29; 31; 37; 41; 43; 47; 53; 59; 61; 67; 71;
   73; 79; 83; 89; 97; 101; 103; 107; 109; 113; 127; 131; 137; 139; 149; 151;
   157; 163; 167; 173; 179; 181; 191; 193; 197; 199; 211; 223; 227; 229; 233;
   239; 241; 251; 257; 263; 269; 271; 277; 281; 283; 293; 307; 311].

(** The round constants: the first 32 bits of the fractional parts of the
    cube roots of the first 64 primes. *)
Definition K : list N :=
  Eval vm_compute in map (fun p => w32 (cbrtBits 36 (p * 2 ^ 96) 0)) primes.

(** The initial hash value: the first 32 bits of the fractional parts of
    the square roots of the first 8 primes. *)
Definition H0 : list N :=
  Eval vm_compute in map (fun p => w32 (N.sqrt (p * 2 ^ 64))) (firstn 8 primes).

Fixpoint bigEndian (n : nat) (x : N) : list N :=
  match n with
  | O => []
  | S k => N.land (N.shiftr x (8 * N.of_nat k)) 255 :: bigEndian k x
  end.

(** The message followed by the byte [0x80], zero bytes up to 56 modulo 64,
    and the length in bits as 8 bytes. *)
Definition pad (msg : list N) : list N :=
  let len := N.of_nat (List.length msg) in
  let k := (64 - (len + 9) mod 64) mod 64 in
  (msg ++ 128 :: repeat 0 (N.to_nat k) ++ bigEndian 8 (8 * len))%list.

Fixpoint words (fuel : nat) (l : list N) : list N :=
  match fuel, l with
  | S k, a :: b :: c :: d :: rest =>
      (a * 16777216 + b * 65536 + c * 256 + d) :: words k rest
  | _, _ => []
  end.

(** The message schedule, latest word first. *)
Fixpoint extend (n : nat) (wrev : list N) : list N :=
  match n with
  | O => wrev
  | S k =>
      let w := w32 (smallSigma1 (nth 1 wrev 0) + nth 6 wrev 0
                    + smallSigma0 (nth 14 wrev 0) + nth 15 wrev 0) in
      extend k (w :: wrev)
  end.

Definition round (st : list N) (kw : N * N) : list N :=
  match st with
  | [a; b; c; d; e; f; g; h] =>
      let t1 := h + bigSigma1 e + Ch e f g + fst kw + snd kw in
      let t2 := bigSigma0 a + Maj a b c in
      [w32 (t1 + t2); a; b; c; w32 (d + t1); e; f; g]
  | _ => st
  end.

Definition block (h : list N) (bytes : list N) : list N :=
  let w := List.rev (extend 48 (List.rev (words 16 bytes))) in
  map (fun xy => w32 (fst xy + snd xy))
      (combine h (fold_left round (combine K w) h)).

Fixpoint blocks (fuel : nat) (h : list N) (bytes : list N) : list N :=
  match fuel, bytes with
  | S k, _ :: _ => blocks k (block h (firstn 64 bytes)) (skipn 64 bytes)
  | _, _ => h
  end.

Definition digest (msg : list N) : list N :=
  let p := pad msg in
  flat_map (bigEndian 4) (blocks (List.length p) H0 p).

Definition sum (s : string) : string :=
  string_of_list_ascii
    (map ascii_of_N (digest (map N_of_ascii (list_ascii_of_string s)))).

End Sha256.

Definition sha256 : SHA256 := {| Sum256 := Sha256.sum |}.

(** A conversion table for the two forms of one name, [muenchen.de] written
    with u-umlaut (bytes [C3 BC]) and its ACE form; it stands for the IDNA
    codec where a concrete one is needed to evaluate the package. *)
Definition muenchenIDN : string :=
  "m" ++ String (ascii_of_N 195) (String (ascii_of_N 188) "nchen.de").

Definition muenchenACE : string := "xn--mnchen-3ya.de".

Definition tableIDNA : IDNA := {|
  idna_ToUnicode := fun s =>
    if String.eqb s muenchenACE then Some muenchenIDN
    else if isASCII s && negb (String.prefix "xn--" s) then Some s else None;
  idna_ToASCII := fun s =>
    if String.eqb s muenchenIDN then Some muenchenACE
    else if isASCII s then Some s else None
|}.

(* ================================================================== *)
(** * Package rri *)
(* ================================================================== *)

Module rri.

(** Go's [error] values, built by [fmt.Errorf]. *)
Inductive error : Type := Errorf (msg : string).

Definition Version : Type := string.
Definition QueryAction : Type := string.
Definition QueryFieldName : Type := string.
Definition QueryFieldEntity : Type := string.
Definition ContactType : Type := string.

Definition LatestVersion : Version := "5.0".

Definition QueryEntityVerificationInformation : QueryFieldEntity :=
  "VerificationInformation".

Definition QueryFieldNameEntity : QueryFieldName := "entity".
Definition QueryFieldNameVersion : QueryFieldName := "version".
Definition QueryFieldNameAction : QueryFieldName := "action".
Definition QueryFieldNameUser : QueryFieldName := "user".
Definition QueryFieldNamePassword : QueryFieldName := "password".
Definition QueryFieldNameDomainIDN : QueryFieldName := "domain".
Definition QueryFieldNameDomainACE : QueryFieldName := "domain-ace".
Definition QueryFieldNameHolder : QueryFieldName := "holder".
Definition QueryFieldNameGeneralRequest : QueryFieldName := "generalrequest".
Definition QueryFieldNameAbuseContact : QueryFieldName := "abusecontact".
Definition QueryFieldNameNameServer : QueryFieldName := "nserver".
Definition QueryFieldNameHandle : QueryFieldName := "handle".
Definition QueryFieldNameDisconnect : QueryFieldName := "disconnect".
Definition QueryFieldNameAuthInfoHash : QueryFieldName := "authinfohash".
Definition QueryFieldNameAuthInfoExpire : QueryFieldName := "authinfoexpire".
Definition QueryFieldNameAuthInfo : QueryFieldName := "authinfo".
Definition QueryFieldNameType : QueryFieldName := "type".
Definition QueryFieldNameName : QueryFieldName := "name".
Definition QueryFieldNameOrganisation : QueryFieldName := "organisation".
Definition QueryFieldNameAddress : QueryFieldName := "address".
Definition QueryFieldNamePostalCode : QueryFieldName := "postalcode".
Definition QueryFieldNameCity : QueryFieldName := "city".
Definition QueryFieldNameCountryCode : QueryFieldName := "countrycode".
Definition QueryFieldNameEMail : QueryFieldName := "email".
Definition QueryFieldNameMsgID : QueryFieldName := "msgid".
Definition QueryFieldNameMsgType : QueryFieldName := "msgtype".
Definition QueryFieldNamePhone : QueryFieldName := "phone".
Definition QueryFieldNameVerifiedClaim : QueryFieldName := "VerifiedClaim".
Definition QueryFieldNameVerificationResult : QueryFieldName := "VerificationResult".
Definition QueryFieldNameVerificationReference : QueryFieldName :=
  "VerificationReference".
Definition QueryFieldNameVerificationTimestamp : QueryFieldName :=
  "VerificationTimestamp".
Definition QueryFieldNameVerificationEvidence : QueryFieldName :=
  "VerificationEvidence".
Definition QueryFieldNameVerificationMethod : QueryFieldName := "VerificationMethod".
Definition QueryFieldNameTrustFramework : QueryFieldName := "TrustFramework".

Definition ActionLogin : QueryAction := "LOGIN".
Definition ActionLogout : QueryAction := "LOGOUT".
Definition ActionCheck : QueryAction := "CHECK".
Definition ActionInfo : QueryAction := "INFO".
Definition ActionCreate : QueryAction := "CREATE".
Definition ActionUpdate : QueryAction := "UPDATE".
Definition ActionChangeHolder : QueryAction := "CHHOLDER".
Definition ActionDelete : QueryAction := "DELETE".
Definition ActionRestore : QueryAction := "RESTORE".
Definition ActionTransit : QueryAction := "TRANSIT".
Definition ActionCreateAuthInfo1 : QueryAction := "CREATE-AUTHINFO1".
Definition ActionCreateAuthInfo2 : QueryAction := "CREATE-AUTHINFO2".
Definition ActionChangeProvider : QueryAction := "CHPROV".
Definition ActionQueueRead : QueryAction := "QUEUE-READ".
Definition ActionQueueDelete : QueryAction := "QUEUE-DELETE".

Definition ContactTypePerson : ContactType := "PERSON".
Definition ContactTypeOrganisation : ContactType := "ORG".
Definition ContactTypeRequest : ContactType := "REQUEST".

(** A single key-value pair of a query, read by [EncodeKV] as [f.Name] and
    [f.Value]. *)
Record QueryField : Type := mkQueryField {
  Name : QueryFieldName;
  Value : string
}.

(** A handle like [DENIC-1000006-SOME-CODE]. *)
Record DenicHandle : Type := mkDenicHandle {
  RegAccID : Z;
  ContactCode : string
}.

Record DomainData : Type := mkDomainData {
  HolderHandles : list DenicHandle;
  GeneralRequestHandles : list DenicHandle;
  AbuseContactHandles : list DenicHandle;
  NameServers : list string
}.

(** Modelled from the spec: the verification-information sub-record of a
    contact (its declaration is not among the sources).  The spec says of it
    only that it contributes its own entity marker followed by its fields,
    so the record holds those fields, in order, as name and value. *)
Record VerificationInformation : Type := mkVerificationInformation {
  VerificationFields : list (QueryFieldName * string)
}.

Record ContactData : Type := mkContactData {
  Type' : ContactType;
  Name' : string;
  Organisation : string;
  Address : string;
  PostalCode : string;
  City : string;
  CountryCode : string;
  EMail : list string;
  Phone : string;
  VerificationInformation' : list VerificationInformation
}.

Section Package.

Context {CM : CaseMapping} {ID : IDNA} {DG : SHA256}.

(** ** Enumeration types *)

Definition Version_Normalize (v : Version) : Version := v.

Definition QueryAction_Normalize (q : QueryAction) : QueryAction := ToUpper q.

Definition QueryFieldName_Normalize (q : QueryFieldName) : QueryFieldName :=
  ToLower q.

Definition QueryFieldEntity_String (q : QueryFieldEntity) : string :=
  if String.eqb q "" then "" else "[" ++ q ++ "]".

Definition QueryFieldEntity_Normalize (q : QueryFieldEntity) : QueryFieldEntity :=
  ToLower q.

Definition ContactType_Normalize (t : ContactType) : ContactType := ToUpper t.

Definition ParseContactType (str : string) : ContactType + error :=
  let u := ToUpper str in
  if String.eqb u "PERSON" then inl ContactTypePerson
  else if String.eqb u "ORG" then inl ContactTypeOrganisation
  else inr (Errorf "invalid contact type").

Definition splitLines (str : string) : list string :=
  Split (ReplaceAll (ReplaceAll str (String "013" (String "010" "")) (String "010" ""))
                    (String "013" "") (String "010" ""))
        (String "010" "").

(** ** Handles *)

Definition DenicHandle_IsEmpty (h : DenicHandle) : bool :=
  (RegAccID h =? 0)%Z && (String.length (ContactCode h) =? 0)%nat.

Definition DenicHandle_String (h : DenicHandle) : string :=
  if DenicHandle_IsEmpty h then ""
  else "DENIC-" ++ Itoa (RegAccID h) ++ "-" ++ ToUpper (ContactCode h).

Definition NewDenicHandle (regAccID : Z) (contactCode : string) : DenicHandle :=
  mkDenicHandle regAccID (ToUpper contactCode).

Definition EmptyDenicHandle : DenicHandle := mkDenicHandle 0 "".

Definition ParseDenicHandle (str : string) : DenicHandle + error :=
  if (String.length str =? 0)%nat then inl EmptyDenicHandle
  else
    match SplitN str "-" 3 with
    | [p0; p1; p2] =>
        if negb (String.eqb (ToUpper p0) "DENIC")
        then inr (Errorf "invalid handle")
        else match Atoi p1 with
             | None => inr (Errorf "invalid handle")
             | Some regAccID => inl (NewDenicHandle regAccID (ToUpper p2))
             end
    | _ => inr (Errorf "invalid handle")
    end.

(** ** The ordered field container

    [QueryFieldList] and its methods are not among the sources; [EncodeKV]
    shows that the list is ranged over entry by entry and that an entry has a
    [Name] and a [Value].  The methods that take a pointer receiver return
    the updated list. *)

(** Modelled from the spec: the field container is an ordered sequence of
    (canonical field name, value) entries; duplicate names are allowed.  An
    entity marker is an entry of its own, named [QueryFieldNameEntity], whose
    value is the bracketed tag. *)
Definition QueryFieldList : Type := list QueryField.

(** Modelled from the spec: a fresh container has no entries. *)
Definition NewQueryFieldList : QueryFieldList := [].

(** Modelled from the spec: [Add(name, values...)] appends one entry per
    value, in call order, under the canonical form of the name, and keeps the
    entries that were there. *)
Definition Add (l : QueryFieldList) (fieldName : QueryFieldName)
    (values : list string) : QueryFieldList :=
  (l ++ map (mkQueryField (QueryFieldName_Normalize fieldName)) values)%list.

(** Modelled from the spec: [Values(name)] returns all values for a name
    in insertion order, the empty list when there is none.  Entries carry
    canonical names, so the name looked up is taken in its canonical form. *)
Definition Values (l : QueryFieldList) (fieldName : QueryFieldName) : list string :=
  map Value
      (filter (fun f => String.eqb (Name f) (QueryFieldName_Normalize fieldName)) l).

(** Modelled from the spec: [FirstValue(name)] returns the first such
    value, or the empty string when the name is absent. *)
Definition FirstValue (l : QueryFieldList) (fieldName : QueryFieldName) : string :=
  match Values l fieldName with
  | v :: _ => v
  | [] => ""
  end.

(** Modelled from the spec: [CopyTo(other)] appends all entries of the
    receiver, markers included, onto the other container, in order. *)
Definition CopyTo (l dstList : QueryFieldList) : QueryFieldList :=
  (dstList ++ l)%list.

(** ** Records projected into a field list *)

Definition putHandlesToQueryFields (fields : QueryFieldList)
    (fieldName : QueryFieldName) (handles : list DenicHandle) : QueryFieldList :=
  fold_left
    (fun fs h =>
       if negb (DenicHandle_IsEmpty h)
       then Add fs fieldName [DenicHandle_String h] else fs)
    handles fields.

Definition DomainData_PutToQueryFields (domainData : DomainData)
    (fields : QueryFieldList) : QueryFieldList :=
  let fields := putHandlesToQueryFields fields QueryFieldNameHolder
                  (HolderHandles domainData) in
  let fields := putHandlesToQueryFields fields QueryFieldNameGeneralRequest
                  (GeneralRequestHandles domainData) in
  let fields := putHandlesToQueryFields fields QueryFieldNameAbuseContact
                  (AbuseContactHandles domainData) in
  Add fields QueryFieldNameNameServer (NameServers domainData).

(** Modelled from the spec: the projection of a verification-information
    sub-record (not among the sources): its entity marker, rendered as the
    bracketed lower-cased entity name, followed by its fields. *)
Definition VerificationInformation_PutToQueryFields
    (verificationInfo : VerificationInformation) (fields : QueryFieldList)
    : QueryFieldList :=
  fold_left
    (fun fs kv => Add fs (fst kv) [snd kv])
    (VerificationFields verificationInfo)
    (Add fields QueryFieldNameEntity
       [QueryFieldEntity_String
          (QueryFieldEntity_Normalize QueryEntityVerificationInformation)]).

Definition ContactData_PutToQueryFields (contactData : ContactData)
    (fields : QueryFieldList) : QueryFieldList :=
  let fields := Add fields QueryFieldNameType
                  [ContactType_Normalize (Type' contactData)] in
  let fields := Add fields QueryFieldNameName [Name' contactData] in
  let fields := Add fields QueryFieldNameOrganisation
                  (splitLines (Organisation contactData)) in
  let fields := Add fields QueryFieldNameAddress
                  (splitLines (Address contactData)) in
  let fields := Add fields QueryFieldNamePostalCode [PostalCode contactData] in
  let fields := Add fields QueryFieldNameCity [City contactData] in
  let fields := Add fields QueryFieldNameCountryCode [CountryCode contactData] in
  let fields := Add fields QueryFieldNameEMail (EMail contactData) in
  let fields := Add fields QueryFieldNamePhone [Phone contactData] in
  fold_left
    (fun fs verificationInfo =>
       VerificationInformation_PutToQueryFields verificationInfo fs)
    (VerificationInformation' contactData) fields.

(** ** Queries *)

Record Query : Type := mkQuery { fields : QueryFieldList }.

Definition Query_Field (q : Query) (fieldName : QueryFieldName) : list string :=
  Values (fields q) fieldName.

Definition Query_FirstField (q : Query) (fieldName : QueryFieldName) : string :=
  FirstValue (fields q) fieldName.

Definition Query_Version (q : Query) : Version :=
  Version_Normalize (Query_FirstField q QueryFieldNameVersion).

Definition Query_Action (q : Query) : QueryAction :=
  QueryAction_Normalize (Query_FirstField q QueryFieldNameAction).

(** One turn of the loop of [EncodeKV]; [sb] is the text built so far. *)
Definition encodeField (sb : string) (f : QueryField) : string :=
  let sb := if (0 <? String.length sb)%nat then sb ++ String "010" "" else sb in
  let sb := if negb (String.eqb (Name f) QueryFieldNameEntity)
            then sb ++ Name f ++ ": " else sb in
  sb ++ Value f.

Definition EncodeKV (q : Query) : string := fold_left encodeField (fields q) "".

(** [fields] is [None] for a nil list. *)
Definition NewQuery (version : Version) (action : QueryAction)
    (fields : option QueryFieldList) : Query :=
  let newFields := NewQueryFieldList in
  let newFields := Add newFields QueryFieldNameVersion [Version_Normalize version] in
  let newFields := Add newFields QueryFieldNameAction [QueryAction_Normalize action] in
  let newFields := match fields with
                   | Some fields => CopyTo fields newFields
                   | None => newFields
                   end in
  mkQuery newFields.

Definition NewLoginQuery (username password : string) : Query :=
  let fields := NewQueryFieldList in
  let fields := Add fields QueryFieldNameUser [username] in
  let fields := Add fields QueryFieldNamePassword [password] in
  NewQuery LatestVersion ActionLogin (Some fields).

Definition NewLogoutQuery : Query := NewQuery LatestVersion ActionLogout None.

Definition NewCreateContactQuery (handle : DenicHandle) (contactData : ContactData)
    : Query :=
  let fields := NewQueryFieldList in
  let fields := Add fields QueryFieldNameHandle [DenicHandle_String handle] in
  let fields := ContactData_PutToQueryFields contactData fields in
  NewQuery LatestVersion ActionCreate (Some fields).

Definition NewCheckHandleQuery (handle : DenicHandle) : Query :=
  let fields := NewQueryFieldList in
  let fields := Add fields QueryFieldNameHandle [DenicHandle_String handle] in
  NewQuery LatestVersion ActionCheck (Some fields).

Definition NewInfoHandleQuery (handle : DenicHandle) : Query :=
  let fields := NewQueryFieldList in
  let fields := Add fields QueryFieldNameHandle [DenicHandle_String handle] in
  NewQuery LatestVersion ActionInfo (Some fields).

Definition PutDomainToQueryFields (fields : QueryFieldList) (domain : string)
    : QueryFieldList :=
  if HasPrefix (ToLower domain) "xn--" then
    let fields := Add fields QueryFieldNameDomainACE [domain] in
    match idna_ToUnicode domain with
    | Some idn => Add fields QueryFieldNameDomainIDN [idn]
    | None => fields
    end
  else
    let fields := Add fields QueryFieldNameDomainIDN [domain] in
    match idna_ToASCII domain with
    | Some ace => Add fields QueryFieldNameDomainACE [ace]
    | None => fields
    end.

Definition NewCreateDomainQuery (domain : string) (domainData : DomainData) : Query :=
  let fields := NewQueryFieldList in
  let fields := PutDomainToQueryFields fields domain in
  let fields := DomainData_PutToQueryFields domainData fields in
  NewQuery LatestVersion ActionCreate (Some fields).

Definition NewCheckDomainQuery (domain : string) : Query :=
  let fields := NewQueryFieldList in
  let fields := PutDomainToQueryFields fields domain in
  NewQuery LatestVersion ActionCheck (Some fields).

Definition NewInfoDomainQuery (domain : string) : Query :=
  let fields := NewQueryFieldList in
  let fields := PutDomainToQueryFields fields domain in
  NewQuery LatestVersion ActionInfo (Some fields).

Definition NewUpdateDomainQuery (domain : string) (domainData : DomainData) : Query :=
  let fields := NewQueryFieldList in
  let fields := PutDomainToQueryFields fields domain in
  let fields := DomainData_PutToQueryFields domainData fields in
  NewQuery LatestVersion ActionUpdate (Some fields).

Definition NewChangeHolderQuery (domain : string) (domainData : DomainData) : Query :=
  let fields := NewQueryFieldList in
  let fields := PutDomainToQueryFields fields domain in
  let fields := DomainData_PutToQueryFields domainData fields in
  NewQuery LatestVersion ActionChangeHolder (Some fields).

Definition NewDeleteDomainQuery (domain : string) : Query :=
  let fields := NewQueryFieldList in
  let fields := PutDomainToQueryFields fields domain in
  NewQuery LatestVersion ActionDelete (Some fields).

Definition NewRestoreDomainQuery (domain : string) : Query :=
  let fields := NewQueryFieldList in
  let fields := PutDomainToQueryFields fields domain in
  NewQuery LatestVersion ActionRestore (Some fields).

Definition NewTransitDomainQuery (domain : string) (disconnect : bool) : Query :=
  let fields := NewQueryFieldList in
  let fields := PutDomainToQueryFields fields domain in
  let fields := if disconnect
                then Add fields QueryFieldNameDisconnect ["true"]
                else Add fields QueryFieldNameDisconnect ["false"] in
  NewQuery LatestVersion ActionTransit (Some fields).

Definition computeHashSHA256 (str : string) : string :=
  EncodeToString (Sum256 str).

Definition NewCreateAuthInfo1Query (domain authInfo : string) (expireDay : Time)
    : Query :=
  let fields := NewQueryFieldList in
  let fields := PutDomainToQueryFields fields domain in
  let fields := Add fields QueryFieldNameAuthInfoHash [computeHashSHA256 authInfo] in
  let fields := Add fields QueryFieldNameAuthInfoExpire [Format20060102 expireDay] in
  NewQuery LatestVersion ActionCreateAuthInfo1 (Some fields).

Definition NewCreateAuthInfo2Query (domain : string) : Query :=
  let fields := NewQueryFieldList in
  let fields := PutDomainToQueryFields fields domain in
  NewQuery LatestVersion ActionCreateAuthInfo2 (Some fields).

Definition NewChangeProviderQuery (domain authInfo : string)
    (domainData : DomainData) : Query :=
  let fields := NewQueryFieldList in
  let fields := PutDomainToQueryFields fields domain in
  let fields := DomainData_PutToQueryFields domainData fields in
  let fields := Add fields QueryFieldNameAuthInfo [authInfo] in
  NewQuery LatestVersion ActionChangeProvider (Some fields).

Definition NewQueueReadQuery (msgType : string) : Query :=
  let fields := NewQueryFieldList in
  let fields := if (0 <? String.length msgType)%nat
                then Add fields QueryFieldNameMsgType [msgType] else fields in
  NewQuery LatestVersion ActionQueueRead (Some fields).

Definition NewQueueDeleteQuery (msgID msgType : string) : Query :=
  let fields := NewQueryFieldList in
  let fields := Add fields QueryFieldNameMsgID [msgID] in
  let fields := if (0 <? String.length msgType)%nat
                then Add fields QueryFieldNameMsgType [msgType] else fields in
  NewQuery LatestVersion ActionQueueDelete (Some fields).

(** The loop of [ParseQueryKV] over the lines still to be read; the first
    line without a separator ends it with an error. *)
Fixpoint parseLines (lines : list string) (fields : QueryFieldList)
    : QueryFieldList + error :=
  match lines with
  | [] => inl fields
  | line :: rest =>
      let line := TrimSpace line in
      if (String.length line =? 0)%nat then parseLines rest fields
      else
        match SplitN line ":" 2 with
        | [p0; p1] =>
            let key := TrimSpace p0 in
            let value := TrimSpace p1 in
            parseLines rest (Add fields key [value])
        | _ => inr (Errorf "query line must be key-value separated by ':'")
        end
  end.

Definition ParseQueryKV (str : string) : Query + error :=
  let lines := Split str (String "010" "") in
  match parseLines lines NewQueryFieldList with
  | inr err => inr err
  | inl fields =>
      let versionValues := Values fields QueryFieldNameVersion in
      if (List.length versionValues =? 0)%nat
      then inr (Errorf (QueryFieldNameVersion ++ " key is missing"))
      else if (1 <? List.length versionValues)%nat
      then inr (Errorf ("multiple " ++ QueryFieldNameVersion ++ " values"))
      else
        let actionValues := Values fields QueryFieldNameAction in
        if (List.length actionValues =? 0)%nat
        then inr (Errorf (QueryFieldNameAction ++ " key is missing"))
        else if (1 <? List.length actionValues)%nat
        then inr (Errorf ("multiple " ++ QueryFieldNameAction ++ " values"))
        else inl (mkQuery fields)
  end.

Definition ParseQuery (str : string) : Query + error := ParseQueryKV str.

End Package.

End rri.

(* ================================================================== *)
(** * Vocabulary of the properties *)
(* ================================================================== *)

Module Props.
Import rri.

Section Vocabulary.

Context {CM : CaseMapping} {ID : IDNA}.

(** The entries [PutDomainToQueryFields] is expected to append for a
    domain: the given name in its own slot, then the converted name in the
    other slot when the conversion succeeds. *)
Definition domainEntries (domain : string) : QueryFieldList :=
  if HasPrefix (ToLower domain) "xn--"
  then mkQueryField "domain-ace" domain
       :: match idna_ToUnicode domain with
          | Some idn => [mkQueryField "domain" idn]
          | None => []
          end
  else mkQueryField "domain" domain
       :: match idna_ToASCII domain with
          | Some ace => [mkQueryField "domain-ace" ace]
          | None => []
          end.

(** The entries expected for a list of handles under one field name: one
    per handle that is not empty, carrying its text. *)
Definition handleEntries (fieldName : QueryFieldName) (handles : list DenicHandle)
    : QueryFieldList :=
  map (fun h => mkQueryField fieldName (DenicHandle_String h))
      (filter (fun h => negb (DenicHandle_IsEmpty h)) handles).

(** The entries expected for one verification-information sub-record:
    its marker, then its fields under their canonical names. *)
Definition verificationEntries (vi : VerificationInformation) : QueryFieldList :=
  mkQueryField "entity" "[verificationinformation]"
  :: map (fun kv => mkQueryField (QueryFieldName_Normalize (fst kv)) (snd kv))
         (VerificationFields vi).

(** The entries expected for a contact record, in the order of the wire
    contract. *)
Definition contactEntries (cd : ContactData) : QueryFieldList :=
  (mkQueryField "type" (ContactType_Normalize (Type' cd))
   :: mkQueryField "name" (Name' cd)
   :: map (mkQueryField "organisation") (splitLines (Organisation cd))
   ++ map (mkQueryField "address") (splitLines (Address cd))
   ++ mkQueryField "postalcode" (PostalCode cd)
   :: mkQueryField "city" (City cd)
   :: mkQueryField "countrycode" (CountryCode cd)
   :: map (mkQueryField "email") (EMail cd)
   ++ mkQueryField "phone" (Phone cd)
   :: flat_map verificationEntries (VerificationInformation' cd))%list.

(** The lines of a wire text that count: each line trimmed, the blank
    ones left out. *)
Definition nonBlank (lines : list string) : list string :=
  filter (fun line => negb (String.eqb line "")) (map TrimSpace lines).

Definition nonBlankLines (str : string) : list string :=
  nonBlank (Split str (String "010" "")).

(** [f] is the entry that the line [line] stands for: the line is cut at
    its first colon, the key is the trimmed text before it (stored under its
    canonical name), the value the trimmed text after it. *)
Definition entryOfLine (line : string) (f : QueryField) : Prop :=
  exists before after,
    line = (before ++ ":" ++ after)%string
    /\ lacks ":" before = true
    /\ f = mkQueryField (QueryFieldName_Normalize (TrimSpace before)) (TrimSpace after).

(** The error of a line without separator. *)
Definition lineError : error :=
  Errorf "query line must be key-value separated by ':'".

(** The bytes of the field names the constructors use: lower-case letters
    and the hyphen. *)
Definition isKeyByte (a : ascii) : bool :=
  ((97 <=? byte a) && (byte a <=? 122) || (byte a =? 45))%N.

Definition plainName (n : QueryFieldName) : bool := allBytes isKeyByte n.

(** The field names of the entries the typed constructors append after
    version and action, entity markers apart. *)
Definition constructorNames : list QueryFieldName :=
  [QueryFieldNameUser; QueryFieldNamePassword; QueryFieldNameDomainIDN;
   QueryFieldNameDomainACE; QueryFieldNameHolder; QueryFieldNameGeneralRequest;
   QueryFieldNameAbuseContact; QueryFieldNameNameServer; QueryFieldNameHandle;
   QueryFieldNameDisconnect; QueryFieldNameAuthInfoHash;
   QueryFieldNameAuthInfoExpire; QueryFieldNameAuthInfo; QueryFieldNameType;
   QueryFieldNameName; QueryFieldNameOrganisation; QueryFieldNameAddress;
   QueryFieldNamePostalCode; QueryFieldNameCity; QueryFieldNameCountryCode;
   QueryFieldNameEMail; QueryFieldNameMsgID; QueryFieldNameMsgType;
   QueryFieldNamePhone].

(** An entry under one of these names. *)
Definition known (f : QueryField) : Prop := In (Name f) constructorNames.

(** The wire line of a key-value entry. *)
Definition lineOf (f : QueryField) : string := (Name f ++ ": " ++ Value f)%string.

(** A value that survives the wire format unchanged: it has no line feed
    and no white space at either end. *)
Definition wireValue (v : string) : Prop :=
  lacks "010" v = true /\ TrimSpace v = v.

(** What is left of the line of an entry after the colon, once the line is
    trimmed: a blank value loses the space that followed the colon. *)
Definition afterColon (v : string) : string :=
  if String.eqb v "" then "" else String " " v.

(** An entry with a plain name and a wire value. *)
Definition wireEntry (f : QueryField) : Prop :=
  plainName (Name f) = true /\ wireValue (Value f).

(** A query whose entries are all key-value lines with such values: none
    is an entity marker. *)
Definition wireQuery (q : Query) : Prop :=
  Forall (fun f => Name f <> QueryFieldNameEntity /\ wireValue (Value f)) (fields q).

(** A name that [ParseQueryKV] reads back as it is from a key-value line:
    ASCII bytes without upper-case letters, no colon, no line feed, and no
    white space at its ends. *)
Definition keyName (n : QueryFieldName) : Prop :=
  isASCII n = true /\ mapBytes lowerByte n = n
  /\ lacks ":" n = true /\ lacks "010" n = true /\ TrimSpace n = n.

(** The text [EncodeKV] writes for one entry: the value alone for an
    entity marker, the key-value line otherwise. *)
Definition renderEntry (f : QueryField) : string :=
  if String.eqb (Name f) QueryFieldNameEntity then Value f
  else (Name f ++ ": " ++ Value f)%string.

(** A list of texts without the empty ones at its front. *)
Fixpoint dropBlank (ls : list string) : list string :=
  match ls with
  | EmptyString :: rest => dropBlank rest
  | _ => ls
  end.

(** The parts of [s] between the occurrences of the byte [c], by recursion
    on [s]: the reference for [Split] at a one-byte separator. *)
Fixpoint splitAll (c : ascii) (s : string) : list string :=
  match s with
  | EmptyString => [EmptyString]
  | String a s' =>
      if Ascii.eqb a c then EmptyString :: splitAll c s'
      else match splitAll c s' with
           | part :: rest => String a part :: rest
           | [] => [String a EmptyString]
           end
  end.

(** The carriage return, as a string. *)
Definition CR : string := String "013" "".

(** The text of [splitLines] before it is split: both other line-break
    styles turned into line feeds. *)
Definition unifiedBreaks (str : string) : string :=
  ReplaceAll (ReplaceAll str (CR ++ LF) LF) CR LF.

End Vocabulary.

(** A call of one of the typed constructors, with its arguments. *)
Inductive Construction : Type :=
| Login (username password : string)
| Logout
| CreateContact (handle : DenicHandle) (contactData : ContactData)
| CheckHandle (handle : DenicHandle)
| InfoHandle (handle : DenicHandle)
| CreateDomain (domain : string) (domainData : DomainData)
| CheckDomain (domain : string)
| InfoDomain (domain : string)
| UpdateDomain (domain : string) (domainData : DomainData)
| ChangeHolder (domain : string) (domainData : DomainData)
| DeleteDomain (domain : string)
| RestoreDomain (domain : string)
| TransitDomain (domain : string) (disconnect : bool)
| CreateAuthInfo1 (domain authInfo : string) (expireDay : Time)
| CreateAuthInfo2 (domain : string)
| ChangeProvider (domain authInfo : string) (domainData : DomainData)
| QueueRead (msgType : string)
| QueueDelete (msgID msgType : string).

(** The call passes no verification information (only a contact record
    can carry some). *)
Definition noVerification (c : Construction) : Prop :=
  match c with
  | CreateContact _ contactData => VerificationInformation' contactData = []
  | _ => True
  end.

Section Constructions.

Context {CM : CaseMapping} {ID : IDNA} {DG : SHA256}.

(** The query the call returns. *)
Definition build (c : Construction) : Query :=
  match c with
  | Login username password => NewLoginQuery username password
  | Logout => NewLogoutQuery
  | CreateContact handle contactData => NewCreateContactQuery handle contactData
  | CheckHandle handle => NewCheckHandleQuery handle
  | InfoHandle handle => NewInfoHandleQuery handle
  | CreateDomain domain domainData => NewCreateDomainQuery domain domainData
  | CheckDomain domain => NewCheckDomainQuery domain
  | InfoDomain domain => NewInfoDomainQuery domain
  | UpdateDomain domain domainData => NewUpdateDomainQuery domain domainData
  | ChangeHolder domain domainData => NewChangeHolderQuery domain domainData
  | DeleteDomain domain => NewDeleteDomainQuery domain
  | RestoreDomain domain => NewRestoreDomainQuery domain
  | TransitDomain domain disconnect => NewTransitDomainQuery domain disconnect
  | CreateAuthInfo1 domain authInfo expireDay =>
      NewCreateAuthInfo1Query domain authInfo expireDay
  | CreateAuthInfo2 domain => NewCreateAuthInfo2Query domain
  | ChangeProvider domain authInfo domainData =>
      NewChangeProviderQuery domain authInfo domainData
  | QueueRead msgType => NewQueueReadQuery msgType
  | QueueDelete msgID msgType => NewQueueDeleteQuery msgID msgType
  end.

(** The action the constructor declares. *)
Definition declaredAction (c : Construction) : QueryAction :=
  match c with
  | Login _ _ => ActionLogin
  | Logout => ActionLogout
  | CreateContact _ _ => ActionCreate
  | CheckHandle _ => ActionCheck
  | InfoHandle _ => ActionInfo
  | CreateDomain _ _ => ActionCreate
  | CheckDomain _ => ActionCheck
  | InfoDomain _ => ActionInfo
  | UpdateDomain _ _ => ActionUpdate
  | ChangeHolder _ _ => ActionChangeHolder
  | DeleteDomain _ => ActionDelete
  | RestoreDomain _ => ActionRestore
  | TransitDomain _ _ => ActionTransit
  | CreateAuthInfo1 _ _ _ => ActionCreateAuthInfo1
  | CreateAuthInfo2 _ => ActionCreateAuthInfo2
  | ChangeProvider _ _ _ => ActionChangeProvider
  | QueueRead _ => ActionQueueRead
  | QueueDelete _ _ => ActionQueueDelete
  end.

End Constructions.

End Props.

(* ================================================================== *)
(** * Facts about the library functions *)
(* ================================================================== *)

Module GoStringsFacts.

Lemma upperByte_idem (a : ascii) : upperByte (upperByte a) = upperByte a.
Proof. destruct a as [[] [] [] [] [] [] [] []]; reflexivity. Qed.

Lemma mapBytes_upper_idem (s : string) :
  mapBytes upperByte (mapBytes upperByte s) = mapBytes upperByte s.
Proof.
  induction s as [|a s IH]; simpl; [reflexivity|].
  now rewrite upperByte_idem, IH.
Qed.

Lemma asciiCase_laws : CaseMappingLaws asciiCase.
Proof.
  split; intros s; try reflexivity. apply mapBytes_upper_idem.
Qed.

Lemma append_nil_r (s : string) : s ++ "" = s.
Proof. induction s; simpl; congruence. Qed.

Lemma append_assoc (a b c : string) : (a ++ b) ++ c = a ++ (b ++ c).
Proof. induction a; simpl; congruence. Qed.

Lemma length_append (a b : string) :
  String.length (a ++ b) = String.length a + String.length b.
Proof. induction a; simpl; congruence. Qed.

Lemma length_zero (s : string) : (String.length s =? 0)%nat = true <-> s = "".
Proof. destruct s; simpl; split; congruence. Qed.

Lemma allBytes_append p a b :
  allBytes p (a ++ b) = allBytes p a && allBytes p b.
Proof. induction a; simpl; [reflexivity|]. now rewrite IHa, andb_assoc. Qed.

(** ** Cut and SplitN at a one-byte separator *)

Lemma Cut_cons c x s :
  Cut (String x s) (String c "") =
  if Ascii.eqb x c then Some ("", s)
  else match Cut s (String c "") with
       | Some (before, after) => Some (String x before, after)
       | None => None
       end.
Proof.
  cbn [Cut String.prefix String.length drop].
  destruct (ascii_dec c x) as [->|Hne].
  - rewrite Ascii.eqb_refl. now destruct s.
  - destruct (Ascii.eqb x c) eqn:E; [|reflexivity].
    apply Ascii.eqb_eq in E. congruence.
Qed.

Lemma Cut_nil c : Cut "" (String c "") = None.
Proof. reflexivity. Qed.

Lemma Cut_found c a r :
  lacks c a = true -> Cut (a ++ String c r) (String c "") = Some (a, r).
Proof.
  induction a as [|x a IH]; intros H.
  - cbn [append]. now rewrite Cut_cons, Ascii.eqb_refl.
  - cbn [lacks allBytes] in H. apply andb_true_iff in H as [Hx Ha].
    apply negb_true_iff in Hx.
    cbn [append]. rewrite Cut_cons, Hx. now rewrite (IH Ha).
Qed.

Lemma Cut_none c s : lacks c s = true -> Cut s (String c "") = None.
Proof.
  induction s as [|x s IH]; intros H; [reflexivity|].
  cbn [lacks allBytes] in H. apply andb_true_iff in H as [Hx Hs].
  apply negb_true_iff in Hx. rewrite Cut_cons, Hx. now rewrite (IH Hs).
Qed.

(** [Cut] splits at the first separator: what comes before lacks it. *)
Lemma Cut_some c s : forall before after,
  Cut s (String c "") = Some (before, after) ->
  s = before ++ String c after /\ lacks c before = true.
Proof.
  induction s as [|x s IH]; intros before after H; [discriminate|].
  rewrite Cut_cons in H. destruct (Ascii.eqb x c) eqn:E.
  - apply Ascii.eqb_eq in E. subst x. inversion H; subst. now split.
  - destruct (Cut s (String c "")) as [[b r]|] eqn:E'; [|discriminate].
    inversion H; subst. destruct (IH b after eq_refl) as [-> Hb].
    split; [reflexivity|]. cbn [lacks allBytes]. rewrite E. exact Hb.
Qed.

Lemma Cut_none_inv c s : Cut s (String c "") = None -> lacks c s = true.
Proof.
  induction s as [|x s IH]; intros H; [reflexivity|].
  rewrite Cut_cons in H. destruct (Ascii.eqb x c) eqn:E; [discriminate|].
  destruct (Cut s (String c "")) as [[b r]|] eqn:E'; [discriminate|].
  cbn [lacks allBytes]. rewrite E. now apply IH.
Qed.

(** ** Decimal numbers *)

Lemma digit_round (d : Z) :
  (0 <= d < 10)%Z -> isDigit (digitChar d) = true /\ digitVal (digitChar d) = d.
Proof.
  intros H. unfold isDigit, digitVal, digitChar, byte.
  rewrite N_ascii_embedding by lia.
  split; [apply andb_true_iff; split; apply N.leb_le; lia | lia].
Qed.

Lemma isDigit_not c (a : ascii) :
  isDigit c = false -> isDigit a = true -> negb (Ascii.eqb a c) = true.
Proof.
  intros Hc Ha. apply negb_true_iff. destruct (Ascii.eqb a c) eqn:E; [|reflexivity].
  apply Ascii.eqb_eq in E. congruence.
Qed.

Lemma utoa_spec f : forall n acc,
  (0 <= n < 10 ^ Z.of_nat (S f))%Z ->
  exists ds, utoa (S f) n acc = ds ++ acc /\ allBytes isDigit ds = true /\ ds <> ""
    /\ forall a0, parseDigits a0 (ds ++ acc)
                  = parseDigits (a0 * 10 ^ Z.of_nat (String.length ds) + n) acc.
Proof.
  induction f as [|f IH]; intros n acc Hn; cbn [utoa]; destruct (n <? 10)%Z eqn:E.
  1, 3: apply Z.ltb_lt in E; destruct (digit_round n) as [Hd Hv]; [lia|];
    exists (String (digitChar n) ""); simpl; rewrite Hd, Hv;
    repeat split; try discriminate; intros a0; f_equal; lia.
  - apply Z.ltb_ge in E. simpl in Hn. lia.
  - apply Z.ltb_ge in E.
    destruct (IH (n / 10)%Z (String (digitChar (n mod 10)) acc)) as (ds & E1 & E2 & E3 & E4).
    { split; [apply Z.div_pos; lia|].
      apply Z.div_lt_upper_bound; [lia|].
      replace (10 * 10 ^ Z.of_nat (S f))%Z with (10 ^ Z.of_nat (S (S f)))%Z; [lia|].
      rewrite (Nat2Z.inj_succ (S f)), Z.pow_succ_r; lia. }
    destruct (digit_round (n mod 10)) as [Hd Hv]; [apply Z.mod_pos_bound; lia|].
    exists (ds ++ String (digitChar (n mod 10)) "").
    rewrite append_assoc. cbn [append]. split; [exact E1|].
    split; [rewrite allBytes_append; simpl; now rewrite E2, Hd|].
    split; [destruct ds; discriminate|].
    intros a0. rewrite E4. cbn [parseDigits]. rewrite Hd, Hv. f_equal.
    rewrite length_append. simpl String.length.
    replace (Z.of_nat (String.length ds + 1)) with (Z.succ (Z.of_nat (String.length ds))) by lia.
    rewrite Z.pow_succ_r by lia.
    pose proof (Z.div_mod n 10). lia.
Qed.

Lemma fuel_enough (n : Z) : (0 <= n)%Z -> (n < 10 ^ Z.of_nat (S (Z.to_nat (Z.log2 n))))%Z.
Proof.
  intros H. rewrite Nat2Z.inj_succ, Z2Nat.id by apply Z.log2_nonneg.
  destruct (Z.eq_dec n 0) as [->|Hn]; [simpl; lia|].
  assert (n < 2 ^ Z.succ (Z.log2 n))%Z by (apply Z.log2_spec; lia).
  assert (2 ^ Z.succ (Z.log2 n) <= 10 ^ Z.succ (Z.log2 n))%Z.
  { apply Z.pow_le_mono_l. lia. }
  lia.
Qed.

(** A non-negative number prints as a non-empty run of digits that reads
    back as the number. *)
Lemma Itoa_nonneg (n : Z) :
  (0 <= n)%Z ->
  allBytes isDigit (Itoa n) = true /\ Itoa n <> ""
  /\ parseDigits 0 (Itoa n) = Some n.
Proof.
  intros H. unfold Itoa. replace (n <? 0)%Z with false by (symmetry; apply Z.ltb_ge; lia).
  destruct (utoa_spec _ n "" (conj H (fuel_enough n H))) as (ds & E1 & E2 & E3 & E4).
  rewrite E1, append_nil_r. repeat split; try assumption.
  specialize (E4 0%Z). rewrite append_nil_r in E4. rewrite E4. reflexivity.
Qed.

Lemma Atoi_Itoa (n : Z) : (0 <= n <= maxInt)%Z -> Atoi (Itoa n) = Some n.
Proof.
  intros H. destruct (Itoa_nonneg n) as (Hd & Hne & Hp); [lia|].
  unfold Atoi. destruct (Itoa n) as [|a rest] eqn:E; [congruence|].
  simpl in Hd. apply andb_true_iff in Hd as [Ha _].
  assert (Ascii.eqb a "-" = false) as ->.
  { destruct (Ascii.eqb a "-") eqn:E'; [|reflexivity].
    apply Ascii.eqb_eq in E'. subst a. discriminate. }
  assert (Ascii.eqb a "+" = false) as ->.
  { destruct (Ascii.eqb a "+") eqn:E'; [|reflexivity].
    apply Ascii.eqb_eq in E'. subst a. discriminate. }
  simpl orb. cbv iota. rewrite Hp.
  replace ((minInt <=? n) && (n <=? maxInt))%Z with true; [reflexivity|].
  symmetry. apply andb_true_iff. unfold minInt, maxInt in *. split; apply Z.leb_le; lia.
Qed.

Lemma digits_lack c s : isDigit c = false -> allBytes isDigit s = true -> lacks c s = true.
Proof.
  intros Hc. induction s as [|a s IH]; [reflexivity|].
  cbn [lacks allBytes]. intros H. apply andb_true_iff in H as [Ha Hs].
  rewrite (isDigit_not c a Hc Ha). now apply IH.
Qed.

End GoStringsFacts.

(* ================================================================== *)
(** * Contact types and handles *)
(* ================================================================== *)

Import rri.
Import GoStringsFacts.

Section EnumerationsAndHandles.

Context {CM : CaseMapping}.

(** C6.  [ParseContactType] succeeds exactly when the upper-cased input is
    [PERSON] or [ORG], and then returns the canonical contact type; every
    other string is an error. *)
Theorem ParseContactType_accepts_exactly (str : string) :
  (ToUpper str = "PERSON" <-> ParseContactType str = inl ContactTypePerson) /\
  (ToUpper str = "ORG" <-> ParseContactType str = inl ContactTypeOrganisation) /\
  ((exists t, ParseContactType str = inl t)
   <-> ToUpper str = "PERSON" \/ ToUpper str = "ORG") /\
  ((exists e, ParseContactType str = inr e)
   <-> ~ (ToUpper str = "PERSON" \/ ToUpper str = "ORG")).
Proof.
  unfold ParseContactType.
  destruct (String.eqb (ToUpper str) "PERSON") eqn:EP;
    [apply String.eqb_eq in EP | apply String.eqb_neq in EP;
     destruct (String.eqb (ToUpper str) "ORG") eqn:EO;
     [apply String.eqb_eq in EO | apply String.eqb_neq in EO]].
  all: repeat match goal with |- _ /\ _ => split | |- _ <-> _ => split end.
  all: try (intros [x Hx]; discriminate).
  all: try (intros _; eauto; fail).
  all: try (intros H; discriminate H).
  all: try (intros H; exfalso; congruence).
  all: try (rewrite EP; intros H; discriminate H).
  all: try (rewrite EO; intros H; discriminate H).
  all: try tauto.
  all: try (intros _ H; tauto).
Qed.

Lemma DenicHandle_String_EmptyDenicHandle : DenicHandle_String EmptyDenicHandle = "".
Proof. reflexivity. Qed.

Lemma ParseDenicHandle_empty : ParseDenicHandle "" = inl EmptyDenicHandle.
Proof. reflexivity. Qed.

(** [SplitN] into at most three parts at a one-byte separator, case by
    case on how many separators the string has. *)
Lemma SplitN_3_cases c s :
  (lacks c s = true /\ SplitN s (String c "") 3 = [s]) \/
  (exists p0 p1, s = p0 ++ String c p1 /\ lacks c p0 = true /\ lacks c p1 = true
                 /\ SplitN s (String c "") 3 = [p0; p1]) \/
  (exists p0 p1 p2, s = p0 ++ String c (p1 ++ String c p2)
                    /\ lacks c p0 = true /\ lacks c p1 = true
                    /\ SplitN s (String c "") 3 = [p0; p1; p2]).
Proof.
  cbn [SplitN].
  destruct (Cut s (String c "")) as [[p0 r]|] eqn:E0.
  - apply Cut_some in E0 as [-> H0].
    destruct (Cut r (String c "")) as [[p1 p2]|] eqn:E1.
    + apply Cut_some in E1 as [-> H1]. right; right. now exists p0, p1, p2.
    + apply Cut_none_inv in E1. right; left. now exists p0, r.
  - apply Cut_none_inv in E0. now left.
Qed.

Lemma SplitN_3_found c p0 p1 p2 :
  lacks c p0 = true -> lacks c p1 = true ->
  SplitN (p0 ++ String c (p1 ++ String c p2)) (String c "") 3 = [p0; p1; p2].
Proof.
  intros H0 H1. cbn [SplitN]. now rewrite (Cut_found c p0 _ H0), (Cut_found c p1 _ H1).
Qed.

(** C5.  For a non-empty input, [ParseDenicHandle] fails exactly when the
    split at ['-'] into at most three segments gives fewer than three, or
    the first segment is not [DENIC] in any casing, or the second is not a
    base-10 integer.  When it succeeds the input is
    [p0 - p1 - p2] with no ['-'] in [p0] and [p1] (so [p2] keeps any further
    ['-']), and the handle has the integer read from [p1] as account id and
    the upper-cased [p2] as contact code. *)
Theorem ParseDenicHandle_error_iff {Laws : CaseMappingLaws CM} (str : string) :
  str <> "" ->
  let parts := SplitN str "-" 3 in
  ((exists e, ParseDenicHandle str = inr e)
   <-> (List.length parts < 3
        \/ ToUpper (nth 0 parts "") <> "DENIC"
        \/ Atoi (nth 1 parts "") = None)) /\
  (forall h, ParseDenicHandle str = inl h ->
     exists p0 p1 p2 regAccID,
       str = p0 ++ "-" ++ p1 ++ "-" ++ p2
       /\ lacks "-" p0 = true /\ lacks "-" p1 = true
       /\ parts = [p0; p1; p2]
       /\ ToUpper p0 = "DENIC"
       /\ Atoi p1 = Some regAccID
       /\ h = mkDenicHandle regAccID (ToUpper p2)).
Proof.
  intros Hne parts. unfold ParseDenicHandle.
  assert ((String.length str =? 0)%nat = false) as ->.
  { destruct str; [congruence|reflexivity]. }
  fold parts.
  destruct (SplitN_3_cases "-" str) as [[H1 E]|[(p0 & p1 & Hs & H0 & H1 & E)|(p0 & p1 & p2 & Hs & H0 & H1 & E)]];
    change (String "-" "") with "-" in E; subst parts; rewrite E; cbn [List.length nth].
  - split; [|intros h Hh; discriminate].
    split; [intros _; left; lia | intros _; eauto].
  - split; [|intros h Hh; discriminate].
    split; [intros _; left; lia | intros _; eauto].
  - destruct (String.eqb (ToUpper p0) "DENIC") eqn:EP; cbn [negb].
    + apply String.eqb_eq in EP.
      destruct (Atoi p1) as [regAccID|] eqn:EA.
      * split.
        -- split; [intros [e He]; discriminate|].
           intros [H|[H|H]]; [lia|congruence|discriminate].
        -- intros h Hh. inversion Hh; subst h.
           exists p0, p1, p2, regAccID. unfold NewDenicHandle.
           rewrite ToUpper_idem. repeat split; assumption.
      * split; [|intros h Hh; discriminate].
        split; [intros _; right; right; reflexivity | intros _; eauto].
    + apply String.eqb_neq in EP.
      split; [|intros h Hh; discriminate].
      split; [intros _; right; left; exact EP | intros _; eauto].
Qed.

(** C4.  A handle built by [NewDenicHandle] with a positive account id
    and a non-empty contact code is read back from its text; the empty
    handle prints as the empty string, and the empty string parses to the
    empty handle. *)
Theorem ParseDenicHandle_String_round_trip {Laws : CaseMappingLaws CM}
    (regAccID : Z) (contactCode : string) :
  (0 < regAccID <= maxInt)%Z ->
  contactCode <> "" ->
  ParseDenicHandle (DenicHandle_String (NewDenicHandle regAccID contactCode))
    = inl (NewDenicHandle regAccID contactCode)
  /\ DenicHandle_String EmptyDenicHandle = ""
  /\ ParseDenicHandle "" = inl EmptyDenicHandle.
Proof.
  intros Hid Hcode. split; [|split; reflexivity].
  unfold DenicHandle_String, DenicHandle_IsEmpty, NewDenicHandle.
  cbn [RegAccID ContactCode].
  assert ((regAccID =? 0)%Z = false) as -> by (apply Z.eqb_neq; lia).
  cbn [andb]. rewrite ToUpper_idem.
  destruct (Itoa_nonneg regAccID) as (Hd & _ & _); [lia|].
  unfold ParseDenicHandle. cbn [append String.length Nat.eqb].
  change (String "D" (String "E" (String "N" (String "I" (String "C"
            (String "-" (Itoa regAccID ++ String "-" (ToUpper contactCode))))))))
    with ("DENIC" ++ String "-" (Itoa regAccID ++ String "-" (ToUpper contactCode))).
  change "-" with (String "-" "") at 1.
  rewrite SplitN_3_found; [|reflexivity|apply digits_lack; [reflexivity|exact Hd]].
  rewrite (ToUpper_ascii "DENIC" eq_refl). cbn [mapBytes String.eqb negb].
  change (String.eqb _ "DENIC") with true. cbn [negb].
  rewrite Atoi_Itoa by lia. unfold NewDenicHandle. now rewrite !ToUpper_idem.
Qed.

End EnumerationsAndHandles.

Open Scope list_scope.
Import Props.

(* ================================================================== *)
(** * The field list, records and constructors *)
(* ================================================================== *)

Section FieldLists.

Context {CM : CaseMapping} {Laws : CaseMappingLaws CM} {ID : IDNA} {DG : SHA256}.

(** A name of ASCII bytes without upper-case letters is its own
    normalisation; this covers every field name the package declares in
    lower case. *)
Lemma Normalize_plain (n : QueryFieldName) :
  isASCII n = true -> mapBytes lowerByte n = n -> QueryFieldName_Normalize n = n.
Proof.
  intros H1 H2. unfold QueryFieldName_Normalize. now rewrite ToLower_ascii.
Qed.

Lemma Values_app (l1 l2 : QueryFieldList) n :
  Values (l1 ++ l2) n = Values l1 n ++ Values l2 n.
Proof. unfold Values. now rewrite filter_app, map_app. Qed.

Lemma Values_nil n : Values [] n = [].
Proof. reflexivity. Qed.

Lemma Values_cons f (l : QueryFieldList) n :
  Values (f :: l) n =
  if String.eqb (Name f) (QueryFieldName_Normalize n)
  then Value f :: Values l n else Values l n.
Proof. unfold Values. cbn [filter]. now destruct (String.eqb _ _). Qed.

(** The values under one name are all found again under that name, and
    under no other. *)
Lemma Values_map_same {A} (g : A -> string) (xs : list A) m n :
  m = QueryFieldName_Normalize n ->
  Values (map (fun x => mkQueryField m (g x)) xs) n = map g xs.
Proof.
  intros ->. induction xs as [|x xs IH]; [reflexivity|].
  cbn [map]. rewrite Values_cons. cbn [Name Value]. now rewrite String.eqb_refl, IH.
Qed.

Lemma Values_map_other {A} (g : A -> string) (xs : list A) m n :
  m <> QueryFieldName_Normalize n ->
  Values (map (fun x => mkQueryField m (g x)) xs) n = [].
Proof.
  intros H. induction xs as [|x xs IH]; [reflexivity|].
  cbn [map]. rewrite Values_cons. cbn [Name Value].
  apply String.eqb_neq in H. now rewrite H.
Qed.

Lemma putHandlesToQueryFields_entries fields fieldName handles :
  putHandlesToQueryFields fields fieldName handles
  = fields ++ map (fun h => mkQueryField (QueryFieldName_Normalize fieldName)
                              (DenicHandle_String h))
                (filter (fun h => negb (DenicHandle_IsEmpty h)) handles).
Proof.
  unfold putHandlesToQueryFields. revert fields.
  induction handles as [|h hs IH]; intros fields; cbn [fold_left filter].
  - now rewrite app_nil_r.
  - destruct (negb (DenicHandle_IsEmpty h)); rewrite IH; [|reflexivity].
    unfold Add. cbn [map]. now rewrite <- app_assoc.
Qed.

Lemma filter_all {A} (p : A -> bool) (l : list A) :
  (forall x, In x l -> p x = true) -> filter p l = l.
Proof.
  induction l as [|x l IH]; intros H; [reflexivity|].
  cbn [filter]. rewrite (H x (or_introl eq_refl)). f_equal. apply IH.
  intros y Hy. apply H. now right.
Qed.

(** A handle that is not empty never prints as the empty string. *)
Lemma DenicHandle_String_not_blank h :
  DenicHandle_IsEmpty h = false -> DenicHandle_String h <> "".
Proof. unfold DenicHandle_String. intros ->. discriminate. Qed.

Lemma Values_other (l : QueryFieldList) n :
  Forall (fun f => Name f <> QueryFieldName_Normalize n) l -> Values l n = [].
Proof.
  induction 1 as [|f l Hf _ IH]; [reflexivity|].
  rewrite Values_cons. apply String.eqb_neq in Hf. now rewrite Hf.
Qed.

Lemma PutDomainToQueryFields_entries fields domain :
  PutDomainToQueryFields fields domain = fields ++ domainEntries domain.
Proof.
  unfold PutDomainToQueryFields, domainEntries, Add.
  rewrite (Normalize_plain QueryFieldNameDomainACE eq_refl eq_refl).
  rewrite (Normalize_plain QueryFieldNameDomainIDN eq_refl eq_refl).
  destruct (HasPrefix (ToLower domain) "xn--").
  - destruct (idna_ToUnicode domain); cbn [map]; [|reflexivity].
    now rewrite <- app_assoc.
  - destruct (idna_ToASCII domain); cbn [map]; [|reflexivity].
    now rewrite <- app_assoc.
Qed.

(** Only the two domain slots are ever written for a domain. *)
Lemma domainEntries_names domain :
  Forall (fun f => Name f = "domain" \/ Name f = "domain-ace") (domainEntries domain).
Proof.
  unfold domainEntries.
  destruct (HasPrefix _ _); [destruct (idna_ToUnicode domain)|destruct (idna_ToASCII domain)];
    repeat (apply Forall_cons || apply Forall_nil); cbn [Name]; auto.
Qed.

Lemma Values_domainEntries_other domain n :
  QueryFieldName_Normalize n <> "domain" ->
  QueryFieldName_Normalize n <> "domain-ace" ->
  Values (domainEntries domain) n = [].
Proof.
  intros H1 H2. apply Values_other.
  eapply Forall_impl; [|apply domainEntries_names].
  intros f [E|E]; rewrite E; congruence.
Qed.

(** C7.  [PutDomainToQueryFields] takes one of two branches.  A name
    that starts with [xn--] in any casing goes into the ACE slot, followed by
    its decoded form in the IDN slot only when decoding succeeds; any other
    name goes into the IDN slot, followed by its encoded form in the ACE slot
    only when encoding succeeds.  A failed conversion adds nothing, one or
    two entries are added, and they never share a slot. *)
Theorem PutDomainToQueryFields_branches (fields : QueryFieldList) (domain : string) :
  (HasPrefix (ToLower domain) "xn--" = true ->
   PutDomainToQueryFields fields domain
   = fields ++ mkQueryField QueryFieldNameDomainACE domain
               :: match idna_ToUnicode domain with
                  | Some idn => [mkQueryField QueryFieldNameDomainIDN idn]
                  | None => []
                  end)
  /\ (HasPrefix (ToLower domain) "xn--" = false ->
      PutDomainToQueryFields fields domain
      = fields ++ mkQueryField QueryFieldNameDomainIDN domain
                  :: match idna_ToASCII domain with
                     | Some ace => [mkQueryField QueryFieldNameDomainACE ace]
                     | None => []
                     end)
  /\ exists added,
       PutDomainToQueryFields fields domain = fields ++ added
       /\ 1 <= List.length added <= 2
       /\ NoDup (map Name added).
Proof.
  rewrite PutDomainToQueryFields_entries. unfold domainEntries.
  split; [|split].
  - now intros ->.
  - now intros ->.
  - eexists. split; [reflexivity|].
    destruct (HasPrefix _ _); [destruct (idna_ToUnicode domain)|destruct (idna_ToASCII domain)];
      cbn [List.length map Name]; (split; [lia|]);
      repeat constructor; cbn [In]; intuition discriminate.
Qed.

(** The field list [NewQuery] builds. *)
Lemma NewQuery_fields (version : Version) (action : QueryAction)
    (fields : option QueryFieldList) :
  rri.fields (NewQuery version action fields)
  = mkQueryField QueryFieldNameVersion (Version_Normalize version)
    :: mkQueryField QueryFieldNameAction (QueryAction_Normalize action)
    :: match fields with Some l => l | None => [] end.
Proof.
  unfold NewQuery, Add, CopyTo, NewQueryFieldList.
  rewrite (Normalize_plain QueryFieldNameVersion eq_refl eq_refl).
  rewrite (Normalize_plain QueryFieldNameAction eq_refl eq_refl).
  destruct fields; cbn [rri.fields map app]; reflexivity.
Qed.

(** C3, as the code has it.  [NewQuery] puts the version first and the
    normalised action second, then the supplied fields in order; [Version()]
    and [Action()] give back the declared version and the normalised action.
    Version and action occur exactly once when the supplied fields have no
    entry of those names. *)
Theorem NewQuery_version_action_first (version : Version) (action : QueryAction)
    (fields : option QueryFieldList) :
  let supplied := match fields with Some l => l | None => [] end in
  let q := NewQuery version action fields in
  rri.fields q
  = mkQueryField QueryFieldNameVersion (Version_Normalize version)
    :: mkQueryField QueryFieldNameAction (QueryAction_Normalize action)
    :: supplied
  /\ Query_Version q = Version_Normalize version
  /\ Query_Action q = QueryAction_Normalize action
  /\ (Forall (fun f => Name f <> QueryFieldNameVersion
                       /\ Name f <> QueryFieldNameAction) supplied ->
      Query_Field q QueryFieldNameVersion = [Version_Normalize version]
      /\ Query_Field q QueryFieldNameAction = [QueryAction_Normalize action]).
Proof.
  intros supplied q.
  assert (E : rri.fields q
              = mkQueryField QueryFieldNameVersion (Version_Normalize version)
                :: mkQueryField QueryFieldNameAction (QueryAction_Normalize action)
                :: supplied).
  { subst q supplied. apply NewQuery_fields. }
  assert (NV := Normalize_plain QueryFieldNameVersion eq_refl eq_refl).
  assert (NA := Normalize_plain QueryFieldNameAction eq_refl eq_refl).
  split; [exact E|].
  unfold Query_Version, Query_Action, Query_FirstField, FirstValue, Query_Field.
  rewrite E, !Values_cons. cbn [Name Value]. rewrite NV, NA.
  change (String.eqb QueryFieldNameVersion QueryFieldNameVersion) with true.
  change (String.eqb QueryFieldNameAction QueryFieldNameVersion) with false.
  change (String.eqb QueryFieldNameVersion QueryFieldNameAction) with false.
  change (String.eqb QueryFieldNameAction QueryFieldNameAction) with true.
  cbv iota.
  split; [reflexivity|]. split; [apply ToUpper_idem|].
  intros H. split; apply f_equal; apply Values_other.
  - rewrite NV. eapply Forall_impl; [|exact H]. now intros f [H1 _].
  - rewrite NA. eapply Forall_impl; [|exact H]. now intros f [_ H2].
Qed.

(** The entries a domain record appends: its holder, general-request and
    abuse-contact handles that are not empty, then its name servers. *)
Lemma DomainData_PutToQueryFields_entries (d : DomainData) fields :
  DomainData_PutToQueryFields d fields
  = fields ++ handleEntries QueryFieldNameHolder (HolderHandles d)
           ++ handleEntries QueryFieldNameGeneralRequest (GeneralRequestHandles d)
           ++ handleEntries QueryFieldNameAbuseContact (AbuseContactHandles d)
           ++ map (mkQueryField QueryFieldNameNameServer) (NameServers d).
Proof.
  unfold DomainData_PutToQueryFields, Add, handleEntries.
  rewrite !putHandlesToQueryFields_entries.
  rewrite (Normalize_plain QueryFieldNameHolder eq_refl eq_refl).
  rewrite (Normalize_plain QueryFieldNameGeneralRequest eq_refl eq_refl).
  rewrite (Normalize_plain QueryFieldNameAbuseContact eq_refl eq_refl).
  rewrite (Normalize_plain QueryFieldNameNameServer eq_refl eq_refl).
  now rewrite <- !app_assoc.
Qed.

Lemma Values_handleEntries_same m n handles :
  m = QueryFieldName_Normalize n ->
  Values (handleEntries m handles) n
  = map DenicHandle_String (filter (fun h => negb (DenicHandle_IsEmpty h)) handles).
Proof. intros H. unfold handleEntries. now apply Values_map_same. Qed.

Lemma Values_handleEntries_other m n handles :
  m <> QueryFieldName_Normalize n -> Values (handleEntries m handles) n = [].
Proof. intros H. unfold handleEntries. now apply Values_map_other. Qed.

Lemma Values_plain_same (vs : list string) m n :
  m = QueryFieldName_Normalize n -> Values (map (mkQueryField m) vs) n = vs.
Proof.
  intros H. rewrite <- (map_id vs) at 2.
  now apply (Values_map_same (fun v => v)).
Qed.

Lemma Values_plain_other (vs : list string) m n :
  m <> QueryFieldName_Normalize n -> Values (map (mkQueryField m) vs) n = [].
Proof. intros H. now apply (Values_map_other (fun v => v)). Qed.

(** C8.  A domain record projected into a fresh field list has the
    entries for its holder handles, then its general-request handles, then
    its abuse-contact handles, then its name servers, each group in the order
    of the record; empty handles have no entry, so no handle value is blank.
    When the record has no empty handle (and some name server), reading back
    [holder], [generalrequest], [abusecontact] and [nserver] gives exactly
    the texts of the record's handles and its name servers. *)
Theorem DomainData_PutToQueryFields_reads_back (d : DomainData) :
  let fields := DomainData_PutToQueryFields d NewQueryFieldList in
  let kept := filter (fun h => negb (DenicHandle_IsEmpty h)) in
  fields
  = map (fun h => mkQueryField QueryFieldNameHolder (DenicHandle_String h))
        (kept (HolderHandles d))
    ++ map (fun h => mkQueryField QueryFieldNameGeneralRequest (DenicHandle_String h))
           (kept (GeneralRequestHandles d))
    ++ map (fun h => mkQueryField QueryFieldNameAbuseContact (DenicHandle_String h))
           (kept (AbuseContactHandles d))
    ++ map (mkQueryField QueryFieldNameNameServer) (NameServers d)
  /\ Values fields QueryFieldNameHolder
     = map DenicHandle_String (kept (HolderHandles d))
  /\ Values fields QueryFieldNameGeneralRequest
     = map DenicHandle_String (kept (GeneralRequestHandles d))
  /\ Values fields QueryFieldNameAbuseContact
     = map DenicHandle_String (kept (AbuseContactHandles d))
  /\ Values fields QueryFieldNameNameServer = NameServers d
  /\ Forall (fun v => v <> "")
       (Values fields QueryFieldNameHolder
        ++ Values fields QueryFieldNameGeneralRequest
        ++ Values fields QueryFieldNameAbuseContact)
  /\ ((forall h, In h (HolderHandles d ++ GeneralRequestHandles d
                       ++ AbuseContactHandles d) ->
                 DenicHandle_IsEmpty h = false) ->
      NameServers d <> [] ->
      Values fields QueryFieldNameHolder = map DenicHandle_String (HolderHandles d)
      /\ Values fields QueryFieldNameGeneralRequest
         = map DenicHandle_String (GeneralRequestHandles d)
      /\ Values fields QueryFieldNameAbuseContact
         = map DenicHandle_String (AbuseContactHandles d)
      /\ Values fields QueryFieldNameNameServer = NameServers d).
Proof.
  intros fields kept.
  assert (E : fields
              = handleEntries QueryFieldNameHolder (HolderHandles d)
                ++ handleEntries QueryFieldNameGeneralRequest (GeneralRequestHandles d)
                ++ handleEntries QueryFieldNameAbuseContact (AbuseContactHandles d)
                ++ map (mkQueryField QueryFieldNameNameServer) (NameServers d)).
  { subst fields. now rewrite DomainData_PutToQueryFields_entries. }
  assert (NH := Normalize_plain QueryFieldNameHolder eq_refl eq_refl).
  assert (NG := Normalize_plain QueryFieldNameGeneralRequest eq_refl eq_refl).
  assert (NA := Normalize_plain QueryFieldNameAbuseContact eq_refl eq_refl).
  assert (NN := Normalize_plain QueryFieldNameNameServer eq_refl eq_refl).
  assert (VH : Values fields QueryFieldNameHolder
               = map DenicHandle_String (kept (HolderHandles d))).
  { rewrite E, !Values_app.
    rewrite Values_handleEntries_same by now rewrite NH.
    rewrite !Values_handleEntries_other, Values_plain_other, app_nil_r;
      try reflexivity; rewrite NH; discriminate. }
  assert (VG : Values fields QueryFieldNameGeneralRequest
               = map DenicHandle_String (kept (GeneralRequestHandles d))).
  { rewrite E, !Values_app.
    rewrite (Values_handleEntries_same QueryFieldNameGeneralRequest) by now rewrite NG.
    rewrite !Values_handleEntries_other, Values_plain_other, app_nil_r;
      try reflexivity; rewrite NG; discriminate. }
  assert (VA : Values fields QueryFieldNameAbuseContact
               = map DenicHandle_String (kept (AbuseContactHandles d))).
  { rewrite E, !Values_app.
    rewrite (Values_handleEntries_same QueryFieldNameAbuseContact) by now rewrite NA.
    rewrite !Values_handleEntries_other, Values_plain_other, app_nil_r;
      try reflexivity; rewrite NA; discriminate. }
  assert (VN : Values fields QueryFieldNameNameServer = NameServers d).
  { rewrite E, !Values_app.
    rewrite Values_plain_same by now rewrite NN.
    rewrite !Values_handleEntries_other; try reflexivity; rewrite NN; discriminate. }
  split; [exact E|]. do 4 (split; [assumption|]).
  split.
  - rewrite VH, VG, VA, <- !map_app. apply Forall_forall. intros v Hv.
    apply in_map_iff in Hv as (h & <- & Hh).
    apply DenicHandle_String_not_blank.
    rewrite !in_app_iff in Hh. unfold kept in Hh.
    destruct Hh as [Hh|[Hh|Hh]]; apply filter_In in Hh as [_ Hh];
      now apply negb_true_iff in Hh.
  - intros Hall _. rewrite VH, VG, VA, VN. unfold kept.
    rewrite !filter_all; [auto| | |]; intros h Hh; apply negb_true_iff, Hall;
      rewrite !in_app_iff; auto.
Qed.

End FieldLists.

(* ================================================================== *)
(** * Dates and digests *)
(* ================================================================== *)

Section Dates.

Lemma utoa_length f : forall n acc k,
  (0 <= n < 10 ^ Z.of_nat (S k))%Z ->
  String.length (utoa (S f) n acc) <= S k + String.length acc.
Proof.
  induction f as [|f IH]; intros n acc k Hn; cbn [utoa]; destruct (n <? 10)%Z eqn:E;
    cbn [String.length]; try lia.
  apply Z.ltb_ge in E.
  destruct k as [|k]; [simpl in Hn; lia|].
  etransitivity; [apply (IH _ _ k)|cbn [String.length]; lia].
  split; [apply Z.div_pos; lia|].
  apply Z.div_lt_upper_bound; [lia|].
  replace (10 * 10 ^ Z.of_nat (S k))%Z with (10 ^ Z.of_nat (S (S k)))%Z; [lia|].
  rewrite (Nat2Z.inj_succ (S k)), Z.pow_succ_r; lia.
Qed.

Lemma Itoa_length n k :
  (0 <= n < 10 ^ Z.of_nat (S k))%Z -> String.length (Itoa n) <= S k.
Proof.
  intros H. unfold Itoa.
  replace (n <? 0)%Z with false by (symmetry; apply Z.ltb_ge; lia).
  etransitivity; [apply utoa_length; exact H|]. cbn [String.length]. lia.
Qed.

Lemma length_zeros k : String.length (zeros k) = k.
Proof. induction k; simpl; congruence. Qed.

Lemma allBytes_zeros k : allBytes isDigit (zeros k) = true.
Proof. induction k; simpl; [reflexivity|assumption]. Qed.

Lemma parseDigits_zeros k s : parseDigits 0 (zeros k ++ s)%string = parseDigits 0 s.
Proof. induction k; [reflexivity|exact IHk]. Qed.

(** A number of at most [width] digits is printed with exactly [width]
    digits and reads back as itself. *)
Lemma appendInt_fixed (x : Z) (k : nat) :
  (0 <= x < 10 ^ Z.of_nat (S k))%Z ->
  String.length (appendInt x (S k)) = S k
  /\ allBytes isDigit (appendInt x (S k)) = true
  /\ parseDigits 0 (appendInt x (S k)) = Some x.
Proof.
  intros H. unfold appendInt.
  replace (x <? 0)%Z with false by (symmetry; apply Z.ltb_ge; lia).
  rewrite Z.abs_eq by lia.
  destruct (Itoa_nonneg x) as (Hd & _ & Hp); [lia|].
  pose proof (Itoa_length x k H) as Hl.
  cbn [append]. repeat split.
  - rewrite length_append, length_zeros. lia.
  - now rewrite allBytes_append, allBytes_zeros, Hd.
  - now rewrite parseDigits_zeros.
Qed.

Lemma hexDigit_lower (n : N) :
  (n < 16)%N ->
  let c := byte (hexDigit n) in
  ((48 <=? c) && (c <=? 57) || (97 <=? c) && (c <=? 102))%N = true.
Proof.
  intros H c. subst c. unfold hexDigit, byte.
  destruct (n <? 10)%N eqn:E; rewrite N_ascii_embedding by (apply N.ltb_lt in E || apply N.ltb_ge in E; lia).
  - apply N.ltb_lt in E. apply orb_true_iff. left.
    apply andb_true_iff; split; apply N.leb_le; lia.
  - apply N.ltb_ge in E. apply orb_true_iff. right.
    apply andb_true_iff; split; apply N.leb_le; lia.
Qed.

Lemma byte_lt_256 (a : ascii) : (byte a < 256)%N.
Proof. apply N_ascii_bounded. Qed.

End Dates.

Section AuthInfoAndContacts.

Context {CM : CaseMapping} {Laws : CaseMappingLaws CM} {ID : IDNA} {DG : SHA256}.

Lemma EncodeToString_lower (s : string) :
  allBytes isLowerHex (EncodeToString s) = true
  /\ String.length (EncodeToString s) = 2 * String.length s.
Proof.
  induction s as [|a s [IH1 IH2]]; [split; reflexivity|].
  cbn [EncodeToString allBytes String.length]. split; [|lia].
  pose proof (byte_lt_256 a) as Hb.
  assert (H1 : (byte a / 16 < 16)%N) by (apply N.Div0.div_lt_upper_bound; lia).
  assert (H2 : (byte a mod 16 < 16)%N) by (apply N.mod_lt; lia).
  apply hexDigit_lower in H1, H2. cbv zeta in H1, H2.
  unfold isLowerHex at 1 2. now rewrite H1, H2.
Qed.

(** C9, as the code has it.  The [authinfohash] field of
    [NewCreateAuthInfo1Query] is the lower-case hexadecimal form of the
    SHA-256 digest of the authorization string, and the [authinfoexpire]
    field is the formatted expiry date.  For a year from 0 to 9999 that
    text is eight digits: four of the year, two of the month, two of the
    day. *)
Theorem NewCreateAuthInfo1Query_hash_and_expire
    (domain authInfo : string) (expireDay : Time) :
  let q := NewCreateAuthInfo1Query domain authInfo expireDay in
  let hash := EncodeToString (Sum256 authInfo) in
  let expire := Format20060102 expireDay in
  Query_Field q QueryFieldNameAuthInfoHash = [hash]
  /\ allBytes isLowerHex hash = true
  /\ String.length hash = 2 * String.length (Sum256 authInfo)
  /\ Query_Field q QueryFieldNameAuthInfoExpire = [expire]
  /\ ((0 <= Year expireDay <= 9999)%Z ->
      (1 <= Month expireDay <= 12)%Z ->
      (1 <= Day expireDay <= 31)%Z ->
      String.length expire = 8
      /\ allBytes isDigit expire = true
      /\ exists yyyy mm dd,
           expire = (yyyy ++ mm ++ dd)%string
           /\ String.length yyyy = 4 /\ parseDigits 0 yyyy = Some (Year expireDay)
           /\ String.length mm = 2 /\ parseDigits 0 mm = Some (Month expireDay)
           /\ String.length dd = 2 /\ parseDigits 0 dd = Some (Day expireDay)).
Proof.
  intros q hash expire.
  assert (E : fields q
              = mkQueryField QueryFieldNameVersion LatestVersion
                :: mkQueryField QueryFieldNameAction ActionCreateAuthInfo1
                :: domainEntries domain
                   ++ [mkQueryField QueryFieldNameAuthInfoHash hash;
                       mkQueryField QueryFieldNameAuthInfoExpire expire]).
  { subst q. unfold NewCreateAuthInfo1Query.
    rewrite NewQuery_fields.
    unfold Version_Normalize, QueryAction_Normalize.
    rewrite (ToUpper_ascii ActionCreateAuthInfo1 eq_refl).
    change (mapBytes upperByte ActionCreateAuthInfo1) with ActionCreateAuthInfo1.
    unfold Add. rewrite PutDomainToQueryFields_entries.
    rewrite (Normalize_plain QueryFieldNameAuthInfoHash eq_refl eq_refl).
    rewrite (Normalize_plain QueryFieldNameAuthInfoExpire eq_refl eq_refl).
    cbn [map]. unfold NewQueryFieldList. rewrite <- app_assoc. reflexivity. }
  assert (NH := Normalize_plain QueryFieldNameAuthInfoHash eq_refl eq_refl).
  assert (NE := Normalize_plain QueryFieldNameAuthInfoExpire eq_refl eq_refl).
  destruct (EncodeToString_lower (Sum256 authInfo)) as [L1 L2].
  split; [|split; [exact L1|split; [exact L2|split]]].
  - unfold Query_Field. rewrite E, !Values_cons, Values_app, !Values_cons. cbn [Name Value].
    rewrite Values_domainEntries_other by (rewrite NH; discriminate).
    rewrite NH. reflexivity.
  - unfold Query_Field. rewrite E, !Values_cons, Values_app, !Values_cons. cbn [Name Value].
    rewrite Values_domainEntries_other by (rewrite NE; discriminate).
    rewrite NE. reflexivity.
  - intros HY HM HD. subst expire. unfold Format20060102.
    destruct (appendInt_fixed (Year expireDay) 3) as (Y1 & Y2 & Y3); [simpl; lia|].
    destruct (appendInt_fixed (Month expireDay) 1) as (M1 & M2 & M3); [simpl; lia|].
    destruct (appendInt_fixed (Day expireDay) 1) as (D1 & D2 & D3); [simpl; lia|].
    split; [rewrite !length_append; lia|].
    split; [rewrite !allBytes_append, Y2, M2, D2; reflexivity|].
    now exists (appendInt (Year expireDay) 4), (appendInt (Month expireDay) 2),
               (appendInt (Day expireDay) 2).
Qed.

Lemma fold_Add_pairs (kvs : list (QueryFieldName * string)) : forall fields,
  fold_left (fun fs kv => Add fs (fst kv) [snd kv]) kvs fields
  = fields ++ map (fun kv => mkQueryField (QueryFieldName_Normalize (fst kv)) (snd kv)) kvs.
Proof.
  induction kvs as [|kv kvs IH]; intros fields; cbn [fold_left map].
  - now rewrite app_nil_r.
  - rewrite IH. unfold Add. cbn [map]. now rewrite <- app_assoc.
Qed.

Lemma VerificationInformation_PutToQueryFields_entries vi fields :
  VerificationInformation_PutToQueryFields vi fields = fields ++ verificationEntries vi.
Proof.
  unfold VerificationInformation_PutToQueryFields, verificationEntries.
  rewrite fold_Add_pairs. unfold Add.
  rewrite (Normalize_plain QueryFieldNameEntity eq_refl eq_refl).
  unfold QueryFieldEntity_Normalize.
  rewrite (ToLower_ascii QueryEntityVerificationInformation eq_refl).
  cbn [map]. rewrite <- app_assoc. reflexivity.
Qed.

Lemma fold_VerificationInformation vis : forall fields,
  fold_left (fun fs vi => VerificationInformation_PutToQueryFields vi fs) vis fields
  = fields ++ flat_map verificationEntries vis.
Proof.
  induction vis as [|vi vis IH]; intros fields; cbn [fold_left flat_map].
  - now rewrite app_nil_r.
  - now rewrite IH, VerificationInformation_PutToQueryFields_entries, <- app_assoc.
Qed.

Lemma ContactData_PutToQueryFields_entries cd fields :
  ContactData_PutToQueryFields cd fields = fields ++ contactEntries cd.
Proof.
  unfold ContactData_PutToQueryFields, contactEntries.
  rewrite fold_VerificationInformation. unfold Add.
  rewrite (Normalize_plain QueryFieldNameType eq_refl eq_refl).
  rewrite (Normalize_plain QueryFieldNameName eq_refl eq_refl).
  rewrite (Normalize_plain QueryFieldNameOrganisation eq_refl eq_refl).
  rewrite (Normalize_plain QueryFieldNameAddress eq_refl eq_refl).
  rewrite (Normalize_plain QueryFieldNamePostalCode eq_refl eq_refl).
  rewrite (Normalize_plain QueryFieldNameCity eq_refl eq_refl).
  rewrite (Normalize_plain QueryFieldNameCountryCode eq_refl eq_refl).
  rewrite (Normalize_plain QueryFieldNameEMail eq_refl eq_refl).
  rewrite (Normalize_plain QueryFieldNamePhone eq_refl eq_refl).
  cbn [map]. rewrite <- !app_assoc. cbn [app]. reflexivity.
Qed.

(** C10.  [REQUEST] is a declared contact type that [Normalize] keeps
    as it is and that a contact record emits verbatim as its [type] field,
    yet [ParseContactType] rejects it in every casing: some declared contact
    type does not parse from its own text. *)
Theorem ContactTypeRequest_not_parsed :
  ContactType_Normalize ContactTypeRequest = ContactTypeRequest
  /\ (forall cd fields, Type' cd = ContactTypeRequest ->
        exists rest,
          ContactData_PutToQueryFields cd fields
          = fields ++ mkQueryField QueryFieldNameType "REQUEST" :: rest)
  /\ (forall cd, Type' cd = ContactTypeRequest ->
        FirstValue (ContactData_PutToQueryFields cd NewQueryFieldList)
                   QueryFieldNameType = "REQUEST")
  /\ (forall str, ToUpper str = "REQUEST" ->
        ParseContactType str = inr (Errorf "invalid contact type"))
  /\ (exists t, In t [ContactTypePerson; ContactTypeOrganisation; ContactTypeRequest]
                /\ ParseContactType t = inr (Errorf "invalid contact type")).
Proof.
  assert (N : ContactType_Normalize ContactTypeRequest = ContactTypeRequest).
  { unfold ContactType_Normalize. now rewrite (ToUpper_ascii ContactTypeRequest eq_refl). }
  assert (P : forall str, ToUpper str = "REQUEST" ->
                ParseContactType str = inr (Errorf "invalid contact type")).
  { intros str H. unfold ParseContactType. now rewrite H. }
  split; [exact N|]. split; [|split; [|split; [exact P|]]].
  - intros cd fields H. rewrite ContactData_PutToQueryFields_entries.
    unfold contactEntries. rewrite H, N. eexists. reflexivity.
  - intros cd H. rewrite ContactData_PutToQueryFields_entries.
    unfold contactEntries, FirstValue, NewQueryFieldList. cbn [app].
    rewrite Values_cons. cbn [Name Value].
    rewrite (Normalize_plain QueryFieldNameType eq_refl eq_refl).
    change (String.eqb "type" QueryFieldNameType) with true. cbv iota.
    now rewrite H, N.
  - exists ContactTypeRequest. split; [cbn [In]; auto|]. apply P. exact N.
Qed.

End AuthInfoAndContacts.

(* ================================================================== *)
(** * Parsing the wire format *)
(* ================================================================== *)

Section Parsing.

Context {CM : CaseMapping}.

Lemma SplitN_2 c s :
  SplitN s (String c "") 2
  = match Cut s (String c "") with
    | Some (before, after) => [before; after]
    | None => [s]
    end.
Proof. cbn [SplitN]. now destruct (Cut s (String c "")) as [[b a]|]. Qed.

Lemma lacks_append c a b : lacks c (a ++ b)%string = lacks c a && lacks c b.
Proof. apply allBytes_append. Qed.

(** A line stands for at most one entry. *)
Lemma entryOfLine_unique line f g : entryOfLine line f -> entryOfLine line g -> f = g.
Proof.
  intros (b1 & a1 & E1 & L1 & ->) (b2 & a2 & E2 & L2 & ->).
  pose proof (Cut_found ":" b1 a1 L1) as C1.
  pose proof (Cut_found ":" b2 a2 L2) as C2.
  cbn [append] in E1, E2. rewrite <- E1 in C1. rewrite <- E2 in C2.
  rewrite C1 in C2. now inversion C2.
Qed.

Lemma entryOfLine_colon line f : entryOfLine line f -> lacks ":" line = false.
Proof.
  intros (b & a & -> & _ & _). rewrite lacks_append. cbn [append lacks allBytes].
  change (Ascii.eqb ":" ":") with true. cbn [negb andb]. apply andb_false_r.
Qed.

Lemma Forall2_entryOfLine_unique lines : forall fs gs,
  Forall2 entryOfLine lines fs -> Forall2 entryOfLine lines gs -> fs = gs.
Proof.
  induction lines as [|l lines IH]; intros fs gs Hf Hg; inversion Hf; inversion Hg; subst.
  - reflexivity.
  - f_equal; [eapply entryOfLine_unique; eassumption|now apply IH].
Qed.

Lemma Forall2_In_left {A B} (R : A -> B -> Prop) l l' x :
  Forall2 R l l' -> In x l -> exists y, In y l' /\ R x y.
Proof.
  induction 1 as [|a b l l' Hab _ IH]; intros Hx; [destruct Hx|].
  destruct Hx as [->|Hx].
  - exists b. split; [now left|assumption].
  - destruct (IH Hx) as (y & Hy & Hr). exists y. split; [now right|assumption].
Qed.

(** The loop either stops at the first non-blank line without a colon, or
    appends the entry of every non-blank line, in order. *)
Lemma parseLines_spec lines : forall fields,
  match parseLines lines fields with
  | inr e => e = lineError /\ Exists (fun l => lacks ":" l = true) (nonBlank lines)
  | inl fs' => exists fs, fs' = fields ++ fs /\ Forall2 entryOfLine (nonBlank lines) fs
  end.
Proof.
  induction lines as [|line lines IH]; intros fields; cbn [parseLines].
  - exists []. split; [now rewrite app_nil_r|constructor].
  - unfold nonBlank. cbn [map filter]. fold (nonBlank lines).
    destruct (TrimSpace line) as [|a t] eqn:ET.
    + cbn [String.length Nat.eqb String.eqb negb]. apply IH.
    + cbn [String.length Nat.eqb]. rewrite <- ET.
      assert (String.eqb (TrimSpace line) "" = false) as ->
        by (rewrite ET; reflexivity).
      cbn [negb].
      change ":" with (String ":" ""). rewrite SplitN_2.
      destruct (Cut (TrimSpace line) (String ":" "")) as [[before after]|] eqn:EC.
      * apply Cut_some in EC as [EL HL].
        specialize (IH (Add fields (TrimSpace before) [TrimSpace after])).
        destruct (parseLines lines _) as [fs'|e].
        -- destruct IH as (fs & -> & HF).
           exists (mkQueryField (QueryFieldName_Normalize (TrimSpace before))
                                (TrimSpace after) :: fs).
           split; [unfold Add; cbn [map]; now rewrite <- app_assoc|].
           constructor; [|exact HF]. now exists before, after.
        -- destruct IH as [-> HE]. split; [reflexivity|now apply Exists_cons_tl].
      * apply Cut_none_inv in EC. split; [reflexivity|]. now apply Exists_cons_hd.
Qed.

(** After the loop, the parse succeeds exactly when version and action
    have one value each. *)
Lemma ParseQueryKV_validate str fs :
  parseLines (Split str (String "010" "")) NewQueryFieldList = inl fs ->
  (List.length (Values fs QueryFieldNameVersion) = 1
   /\ List.length (Values fs QueryFieldNameAction) = 1
   /\ ParseQueryKV str = inl (mkQuery fs))
  \/ ((List.length (Values fs QueryFieldNameVersion) <> 1
       \/ List.length (Values fs QueryFieldNameAction) <> 1)
      /\ exists e, ParseQueryKV str = inr e).
Proof.
  intros H. unfold ParseQueryKV. rewrite H.
  destruct (List.length (Values fs QueryFieldNameVersion)) as [|[|nv]];
    cbn [Nat.eqb Nat.ltb Nat.leb]; [right; split; [left; lia|eauto]| |right; split; [left; lia|eauto]].
  destruct (List.length (Values fs QueryFieldNameAction)) as [|[|na]];
    cbn [Nat.eqb Nat.ltb Nat.leb]; [right; split; [right; lia|eauto]| |right; split; [right; lia|eauto]].
  left. auto.
Qed.

(** C2.  [ParseQueryKV] returns an error exactly when some non-blank
    line has no colon, or the entries of the lines hold zero or several
    values for [version], or zero or several values for [action].  When it
    succeeds, the fields of the query are the entries of the non-blank lines
    in order, each cut at its first colon into trimmed key and trimmed
    value. *)
Theorem ParseQueryKV_error_iff (str : string) :
  let lines := nonBlankLines str in
  ((exists e, ParseQueryKV str = inr e)
   <-> (Exists (fun l => lacks ":" l = true) lines
        \/ exists fs,
             Forall2 entryOfLine lines fs
             /\ (List.length (Values fs QueryFieldNameVersion) <> 1
                 \/ List.length (Values fs QueryFieldNameAction) <> 1)))
  /\ (forall q, ParseQueryKV str = inl q ->
        Forall2 entryOfLine lines (fields q)
        /\ List.length (Values (fields q) QueryFieldNameVersion) = 1
        /\ List.length (Values (fields q) QueryFieldNameAction) = 1).
Proof.
  intros lines. subst lines. unfold nonBlankLines.
  pose proof (parseLines_spec (Split str (String "010" "")) NewQueryFieldList) as HP.
  destruct (parseLines (Split str (String "010" "")) NewQueryFieldList) as [fs'|e] eqn:EP.
  - destruct HP as (fs & -> & HF). cbn [app NewQueryFieldList] in EP.
    unfold NewQueryFieldList. cbn [app].
    destruct (ParseQueryKV_validate str fs EP) as [(HV & HA & HQ)|(Hbad & e & He)].
    + split.
      * split; [intros [e He]; congruence|].
        intros [HE|(gs & HG & Hbad)].
        -- exfalso. apply Exists_exists in HE as (l & Hl & Hc).
           destruct (Forall2_In_left _ _ _ _ HF Hl) as (f & _ & Hf).
           apply entryOfLine_colon in Hf. congruence.
        -- rewrite (Forall2_entryOfLine_unique _ _ _ HG HF) in Hbad. lia.
      * intros q Hq. rewrite HQ in Hq. inversion Hq; subst q. cbn [fields]. auto.
    + split.
      * split; [intros _; right; exists fs; auto|intros _; eauto].
      * intros q Hq. congruence.
  - destruct HP as [-> HE].
    assert (HQ : ParseQueryKV str = inr lineError) by (unfold ParseQueryKV; now rewrite EP).
    split.
    + split; [intros _; now left|intros _; eauto].
    + intros q Hq. congruence.
Qed.

End Parsing.

(* ================================================================== *)
(** * Trimming *)
(* ================================================================== *)

Module TrimFacts.

Lemma revOnto_append s : forall acc, revOnto s acc = (rev s ++ acc)%string.
Proof.
  unfold rev. induction s as [|a s IH]; intros acc; cbn [revOnto]; [reflexivity|].
  rewrite IH, (IH (String a "")), append_assoc. reflexivity.
Qed.

Lemma rev_cons a s : rev (String a s) = (rev s ++ String a "")%string.
Proof. unfold rev at 1. cbn [revOnto]. apply revOnto_append. Qed.

Lemma rev_append a b : rev (a ++ b)%string = (rev b ++ rev a)%string.
Proof.
  induction a as [|x a IH]; cbn [append].
  - now rewrite append_nil_r.
  - now rewrite !rev_cons, IH, append_assoc.
Qed.

Lemma rev_involutive s : rev (rev s) = s.
Proof.
  induction s as [|a s IH]; [reflexivity|].
  now rewrite rev_cons, rev_append, IH.
Qed.

Lemma length_rev s : String.length (rev s) = String.length s.
Proof.
  induction s as [|a s IH]; [reflexivity|].
  rewrite rev_cons, length_append, IH. cbn [String.length]. lia.
Qed.

Section Head.

Variables (p2 : ascii -> ascii -> bool) (p3 : ascii -> ascii -> ascii -> bool).

(** The encodings of more than one byte have no ASCII byte. *)
Hypothesis p2_high : forall a b, p2 a b = true ->
  isASCIIByte a = false /\ isASCIIByte b = false.
Hypothesis p3_high : forall a b c, p3 a b c = true ->
  isASCIIByte a = false /\ isASCIIByte b = false /\ isASCIIByte c = false.

Lemma trimHead_1 a :
  trimHead p2 p3 (String a "") = if isSpace1 a then "" else String a "".
Proof. reflexivity. Qed.

Lemma trimHead_2 a b :
  trimHead p2 p3 (String a (String b ""))
  = if isSpace1 a then trimHead p2 p3 (String b "")
    else if p2 a b then "" else String a (String b "").
Proof. reflexivity. Qed.

Lemma trimHead_3 a b c s :
  trimHead p2 p3 (String a (String b (String c s)))
  = if isSpace1 a then trimHead p2 p3 (String b (String c s))
    else if p2 a b then trimHead p2 p3 (String c s)
    else if p3 a b c then trimHead p2 p3 s
    else String a (String b (String c s)).
Proof. reflexivity. Qed.

Lemma trimHead_length_le n : forall s,
  String.length s <= n -> String.length (trimHead p2 p3 s) <= String.length s.
Proof.
  induction n as [|n IH]; intros s Hs.
  - destruct s; [reflexivity|cbn [String.length] in Hs; lia].
  - destruct s as [|a [|b [|c s3]]].
    + reflexivity.
    + rewrite trimHead_1. destruct (isSpace1 a); cbn [String.length]; lia.
    + rewrite trimHead_2. cbn [String.length] in Hs.
      destruct (isSpace1 a).
      * etransitivity; [apply IH; cbn [String.length]; lia|cbn [String.length]; lia].
      * destruct (p2 a b); cbn [String.length]; lia.
    + rewrite trimHead_3. cbn [String.length] in Hs.
      destruct (isSpace1 a).
      * etransitivity; [apply IH; cbn [String.length]; lia|cbn [String.length]; lia].
      * destruct (p2 a b).
        -- etransitivity; [apply IH; cbn [String.length]; lia|cbn [String.length]; lia].
        -- destruct (p3 a b c); [|cbn [String.length]; lia].
           etransitivity; [apply IH; lia|cbn [String.length]; lia].
Qed.

Lemma trimHead_length s : String.length (trimHead p2 p3 s) <= String.length s.
Proof. now apply (trimHead_length_le (String.length s)). Qed.

Lemma trimHead_fixed_or_shorter s :
  trimHead p2 p3 s = s \/ String.length (trimHead p2 p3 s) < String.length s.
Proof.
  destruct s as [|a [|b [|c s3]]]; auto.
  - rewrite trimHead_1. destruct (isSpace1 a); cbn [String.length]; auto.
  - rewrite trimHead_2. destruct (isSpace1 a).
    + right. pose proof (trimHead_length (String b "")) as L. cbn [String.length] in *. lia.
    + destruct (p2 a b); cbn [String.length]; auto.
  - rewrite trimHead_3. destruct (isSpace1 a).
    + right. pose proof (trimHead_length (String b (String c s3))) as L.
      cbn [String.length] in *. lia.
    + destruct (p2 a b).
      * right. pose proof (trimHead_length (String c s3)) as L.
        cbn [String.length] in *. lia.
      * destruct (p3 a b c); auto.
        right. pose proof (trimHead_length s3) as L. cbn [String.length]. lia.
Qed.

(** What it means for nothing to be trimmed. *)
Lemma trimHead_fixed_inv a s :
  trimHead p2 p3 (String a s) = String a s ->
  isSpace1 a = false
  /\ match s with
     | String b s2 =>
         p2 a b = false
         /\ match s2 with String c _ => p3 a b c = false | EmptyString => True end
     | EmptyString => True
     end.
Proof.
  intros H. apply (f_equal String.length) in H.
  destruct s as [|b [|c s3]].
  - rewrite trimHead_1 in H. destruct (isSpace1 a); [discriminate|auto].
  - rewrite trimHead_2 in H. destruct (isSpace1 a).
    + pose proof (trimHead_length (String b "")) as L. cbn [String.length] in *. lia.
    + destruct (p2 a b); [discriminate|auto].
  - rewrite trimHead_3 in H. destruct (isSpace1 a).
    + pose proof (trimHead_length (String b (String c s3))) as L.
      cbn [String.length] in *. lia.
    + destruct (p2 a b).
      * pose proof (trimHead_length (String c s3)) as L. cbn [String.length] in *. lia.
      * destruct (p3 a b c); [|auto].
        pose proof (trimHead_length s3) as L. cbn [String.length] in *. lia.
Qed.

(** An ASCII byte that is no white space stops the trimming. *)
Lemma trimHead_keep a s :
  isSpace1 a = false -> isASCIIByte a = true ->
  trimHead p2 p3 (String a s) = String a s.
Proof.
  intros H1 H2. cbn [trimHead]. rewrite H1.
  destruct s as [|b [|c s3]]; [reflexivity| |].
  - destruct (p2 a b) eqn:E; [|reflexivity]. apply p2_high in E as [E _]. congruence.
  - destruct (p2 a b) eqn:E; [apply p2_high in E as [E _]; congruence|].
    destruct (p3 a b c) eqn:E'; [|reflexivity].
    apply p3_high in E' as [E' _]. congruence.
Qed.

Lemma trimHead_skip a s :
  isSpace1 a = true -> trimHead p2 p3 (String a s) = trimHead p2 p3 s.
Proof. intros H. cbn [trimHead]. now rewrite H. Qed.

(** A text from which nothing is trimmed stays so when text that starts
    with two ASCII bytes follows it. *)
Lemma trimHead_fixed_append s x y w :
  s <> "" -> trimHead p2 p3 s = s ->
  isASCIIByte x = true -> isASCIIByte y = true ->
  trimHead p2 p3 (s ++ String x (String y w))%string = (s ++ String x (String y w))%string.
Proof.
  intros Hne H Hx Hy. destruct s as [|a s]; [congruence|].
  apply trimHead_fixed_inv in H as [H1 H].
  cbn [append trimHead]. rewrite H1.
  destruct s as [|b s2]; cbn [append].
  - destruct (p2 a x) eqn:E; [apply p2_high in E as [_ E]; congruence|].
    destruct (p3 a x y) eqn:E'; [|reflexivity].
    apply p3_high in E' as (_ & E' & _). congruence.
  - destruct H as [H2 H]. rewrite H2.
    destruct s2 as [|c s3]; cbn [append].
    + destruct (p3 a b x) eqn:E'; [|reflexivity].
      apply p3_high in E' as (_ & _ & E'). congruence.
    + now rewrite H.
Qed.

End Head.

Lemma isSpace2_high a b :
  isSpace2 a b = true -> isASCIIByte a = false /\ isASCIIByte b = false.
Proof.
  unfold isSpace2, isASCIIByte. intros H.
  apply andb_true_iff in H as [H1 H2]. apply N.eqb_eq in H1.
  apply orb_true_iff in H2. rewrite !N.eqb_eq in H2.
  split; apply N.ltb_ge; lia.
Qed.

Lemma isSpace3_high a b c :
  isSpace3 a b c = true ->
  isASCIIByte a = false /\ isASCIIByte b = false /\ isASCIIByte c = false.
Proof.
  unfold isSpace3, isASCIIByte. cbv zeta. intros H.
  repeat (apply orb_true_iff in H as [H|H] || apply andb_true_iff in H as [H ?]);
    repeat match goal with
           | H : (_ =? _)%N = true |- _ => apply N.eqb_eq in H
           | H : (_ <=? _)%N = true |- _ => apply N.leb_le in H
           | H : _ && _ = true |- _ => apply andb_true_iff in H as [? ?]
           | H : _ || _ = true |- _ => apply orb_true_iff in H as [?|?]
           end;
    repeat split; apply N.ltb_ge; lia.
Qed.

Lemma lastFirst2_high a b :
  lastFirst2 a b = true -> isASCIIByte a = false /\ isASCIIByte b = false.
Proof. intros H. apply isSpace2_high in H. tauto. Qed.

Lemma lastFirst3_high a b c :
  lastFirst3 a b c = true ->
  isASCIIByte a = false /\ isASCIIByte b = false /\ isASCIIByte c = false.
Proof. intros H. apply isSpace3_high in H. tauto. Qed.

Lemma TrimRightSpace_rev s :
  TrimRightSpace s = rev (trimHead lastFirst2 lastFirst3 (rev s)).
Proof. reflexivity. Qed.

Lemma TrimLeftSpace_length s : String.length (TrimLeftSpace s) <= String.length s.
Proof. apply trimHead_length. Qed.

Lemma TrimRightSpace_length s : String.length (TrimRightSpace s) <= String.length s.
Proof.
  rewrite TrimRightSpace_rev, length_rev, <- (length_rev s). apply trimHead_length.
Qed.

(** A text that [TrimSpace] leaves alone is left alone on both sides. *)
Lemma TrimSpace_fixed s :
  TrimSpace s = s ->
  TrimLeftSpace s = s /\ trimHead lastFirst2 lastFirst3 (rev s) = rev s.
Proof.
  intros H. unfold TrimSpace in H.
  assert (HL : TrimLeftSpace s = s).
  { destruct (trimHead_fixed_or_shorter isSpace2 isSpace3 s) as [E|L]; [exact E|].
    fold (TrimLeftSpace s) in L.
    pose proof (TrimRightSpace_length (TrimLeftSpace s)) as L'.
    rewrite H in L'. lia. }
  split; [exact HL|]. rewrite HL, TrimRightSpace_rev in H.
  rewrite <- H at 2. now rewrite rev_involutive.
Qed.

End TrimFacts.

Import TrimFacts.

(* ================================================================== *)
(** * Encoding, and parsing what was encoded *)
(* ================================================================== *)

Section WireLines.

Context {CM : CaseMapping} {Laws : CaseMappingLaws CM}.

Lemma isKeyByte_facts a :
  isKeyByte a = true ->
  isASCIIByte a = true /\ isSpace1 a = false /\ lowerByte a = a
  /\ Ascii.eqb a ":" = false /\ Ascii.eqb a "010" = false.
Proof.
  destruct a as [[] [] [] [] [] [] [] []]; intros H;
    first [discriminate H | repeat split; reflexivity].
Qed.

Lemma allBytes_impl (p q : ascii -> bool) s :
  (forall a, p a = true -> q a = true) -> allBytes p s = true -> allBytes q s = true.
Proof.
  intros Hpq. induction s as [|a s IH]; [reflexivity|]. cbn [allBytes].
  intros H. apply andb_true_iff in H as [Ha Hs]. now rewrite (Hpq a Ha), IH.
Qed.

Lemma allBytes_rev p s : allBytes p (rev s) = allBytes p s.
Proof.
  induction s as [|a s IH]; [reflexivity|].
  rewrite rev_cons, allBytes_append, IH. cbn [allBytes]. now rewrite andb_true_r, andb_comm.
Qed.

Lemma plainName_ascii n : plainName n = true -> isASCII n = true.
Proof. apply allBytes_impl. intros a H. now apply isKeyByte_facts in H. Qed.

Lemma plainName_lower n : plainName n = true -> mapBytes lowerByte n = n.
Proof.
  induction n as [|a n IH]; [reflexivity|]. cbn [plainName allBytes mapBytes].
  intros H. apply andb_true_iff in H as [Ha Hn].
  apply isKeyByte_facts in Ha as (_ & _ & -> & _). now rewrite (IH Hn).
Qed.

Lemma plainName_lacks_colon n : plainName n = true -> lacks ":" n = true.
Proof.
  apply allBytes_impl. intros a H. apply isKeyByte_facts in H as (_ & _ & _ & -> & _).
  reflexivity.
Qed.

Lemma plainName_lacks_newline n : plainName n = true -> lacks "010" n = true.
Proof.
  apply allBytes_impl. intros a H. apply isKeyByte_facts in H as (_ & _ & _ & _ & ->).
  reflexivity.
Qed.

Lemma plainName_Normalize n : plainName n = true -> QueryFieldName_Normalize n = n.
Proof.
  intros H. apply Normalize_plain; [now apply plainName_ascii|now apply plainName_lower].
Qed.

Lemma trimHead_plain p2 p3 n :
  (forall a b, p2 a b = true -> isASCIIByte a = false /\ isASCIIByte b = false) ->
  (forall a b c, p3 a b c = true ->
     isASCIIByte a = false /\ isASCIIByte b = false /\ isASCIIByte c = false) ->
  plainName n = true -> trimHead p2 p3 n = n.
Proof.
  intros H2 H3 H. destruct n as [|a n]; [reflexivity|].
  cbn [plainName allBytes] in H. apply andb_true_iff in H as [Ha _].
  apply isKeyByte_facts in Ha as (A1 & A2 & _). now apply trimHead_keep.
Qed.

Lemma TrimSpace_plainName n : plainName n = true -> TrimSpace n = n.
Proof.
  intros H. unfold TrimSpace, TrimLeftSpace.
  rewrite (trimHead_plain _ _ n isSpace2_high isSpace3_high H), TrimRightSpace_rev.
  rewrite (trimHead_plain _ _ (rev n) lastFirst2_high lastFirst3_high).
  - apply rev_involutive.
  - unfold plainName. now rewrite allBytes_rev.
Qed.

Lemma TrimSpace_lineOf n v :
  plainName n = true -> wireValue v ->
  TrimSpace (lineOf (mkQueryField n v)) = (n ++ String ":" (afterColon v))%string.
Proof.
  intros Hn [_ Hv]. unfold lineOf. cbn [Name Value append].
  unfold TrimSpace.
  assert (HL : TrimLeftSpace (n ++ String ":" (String " " v))%string
               = (n ++ String ":" (String " " v))%string).
  { unfold TrimLeftSpace. destruct n as [|a n]; cbn [append].
    - now apply trimHead_keep; auto using isSpace2_high, isSpace3_high.
    - cbn [plainName allBytes] in Hn. apply andb_true_iff in Hn as [Ha _].
      apply isKeyByte_facts in Ha as (A1 & A2 & _).
      now apply trimHead_keep; auto using isSpace2_high, isSpace3_high. }
  rewrite HL, TrimRightSpace_rev.
  change (n ++ String ":" (String " " v))%string
    with (n ++ (String ":" (String " " "") ++ v))%string.
  rewrite !rev_append. change (rev (String ":" (String " " ""))) with (String " " (String ":" "")).
  unfold afterColon. destruct v as [|x v].
  - cbn [rev revOnto append String.eqb].
    rewrite trimHead_skip by reflexivity.
    rewrite trimHead_keep by auto using lastFirst2_high, lastFirst3_high.
    change (String ":" (rev n)) with (String ":" "" ++ rev n)%string.
    change (rev "") with "". cbn [append].
    change (String ":" (rev n)) with (rev (String ":" "") ++ rev n)%string.
    now rewrite <- rev_append, rev_involutive.
  - cbn [String.eqb]. destruct (TrimSpace_fixed _ Hv) as [_ HR].
    rewrite append_assoc. cbn [append].
    rewrite trimHead_fixed_append; auto using lastFirst2_high, lastFirst3_high.
    + change (String " " (String ":" (rev n)))
        with (rev (String ":" (String " " "")) ++ rev n)%string.
      rewrite <- append_assoc, <- !rev_append, rev_involutive.
      reflexivity.
    + intros E. apply (f_equal String.length) in E. rewrite length_rev in E. discriminate.
Qed.

Lemma TrimSpace_afterColon v : wireValue v -> TrimSpace (afterColon v) = v.
Proof.
  intros [_ Hv]. unfold afterColon. destruct v as [|x v]; [reflexivity|].
  cbn [String.eqb]. unfold TrimSpace, TrimLeftSpace.
  rewrite trimHead_skip by reflexivity. exact Hv.
Qed.

(** An entry with a plain name and a wire value is read back from its
    line. *)
Lemma parseLines_lineOf l : forall acc,
  Forall wireEntry l -> parseLines (map lineOf l) acc = inl (acc ++ l).
Proof.
  induction l as [|[n v] l IH]; intros acc H; cbn [map parseLines].
  - now rewrite app_nil_r.
  - inversion H as [|f l' [Hn Hv] Hl]; subst. cbn [Name Value] in Hn, Hv.
    rewrite (TrimSpace_lineOf n v Hn Hv).
    assert ((String.length (n ++ String ":" (afterColon v)) =? 0)%nat = false) as ->.
    { rewrite length_append. cbn [String.length]. apply Nat.eqb_neq. lia. }
    change ":" with (String ":" ""). rewrite SplitN_2.
    rewrite (Cut_found ":" n (afterColon v) (plainName_lacks_colon n Hn)).
    rewrite (TrimSpace_plainName n Hn), (TrimSpace_afterColon v Hv).
    rewrite (IH _ Hl). unfold Add. rewrite (plainName_Normalize n Hn).
    cbn [map]. now rewrite <- app_assoc.
Qed.

Lemma concat_cons_append sep a x rest :
  String.concat sep ((a ++ sep ++ x)%string :: rest) = String.concat sep (a :: x :: rest).
Proof.
  destruct rest as [|r rest]; cbn [String.concat]; [reflexivity|].
  now rewrite !append_assoc.
Qed.

Lemma fold_encodeField l : forall sb,
  sb <> "" -> Forall (fun f => Name f <> QueryFieldNameEntity) l ->
  fold_left encodeField l sb = String.concat (String "010" "") (sb :: map lineOf l).
Proof.
  induction l as [|f l IH]; intros sb Hsb H; cbn [fold_left map]; [reflexivity|].
  inversion H as [|f' l' Hf Hl]; subst.
  assert (E : encodeField sb f = (sb ++ String "010" "" ++ lineOf f)%string).
  { unfold encodeField, lineOf.
    assert ((0 <? String.length sb)%nat = true) as ->
      by (destruct sb; [congruence|reflexivity]).
    apply String.eqb_neq in Hf. rewrite Hf. cbn [negb].
    now rewrite !append_assoc. }
  rewrite E, IH; [apply concat_cons_append| |exact Hl].
  destruct sb; [congruence|discriminate].
Qed.

(** Without entity markers, [EncodeKV] is the lines of the entries joined
    by line feeds. *)
Lemma EncodeKV_concat l :
  Forall (fun f => Name f <> QueryFieldNameEntity) l ->
  EncodeKV (mkQuery l) = String.concat (String "010" "") (map lineOf l).
Proof.
  intros H. unfold EncodeKV. cbn [fields]. destruct l as [|f l]; [reflexivity|].
  inversion H as [|f' l' Hf Hl]; subst. cbn [fold_left].
  assert (E : encodeField "" f = lineOf f).
  { unfold encodeField, lineOf. cbn [String.length Nat.ltb Nat.leb].
    apply String.eqb_neq in Hf. rewrite Hf. cbn [negb append].
    now rewrite append_assoc. }
  rewrite E. apply fold_encodeField; [|exact Hl].
  unfold lineOf. intros E'. apply (f_equal String.length) in E'.
  rewrite !length_append in E'. cbn [String.length] in E'. lia.
Qed.

Lemma length_concat_ge c xs x :
  List.length xs <= String.length (String.concat (String c "") (x :: xs)).
Proof.
  revert x. induction xs as [|y ys IH]; intros x; cbn [String.concat List.length]; [lia|].
  rewrite !length_append. cbn [String.length]. specialize (IH y).
  cbn [String.concat] in IH. lia.
Qed.

Lemma SplitN_concat c xs : forall x fuel,
  lacks c x = true -> Forall (fun y => lacks c y = true) xs ->
  List.length xs <= fuel ->
  SplitN (String.concat (String c "") (x :: xs)) (String c "") (S fuel) = x :: xs.
Proof.
  induction xs as [|y ys IH]; intros x fuel Hx Hxs Hf.
  - cbn [String.concat SplitN]. destruct fuel; [reflexivity|].
    now rewrite (Cut_none c x Hx).
  - inversion Hxs as [|y' ys' Hy Hys]; subst.
    cbn [List.length] in Hf. destruct fuel as [|fuel]; [lia|].
    change (String.concat (String c "") (x :: y :: ys))
      with (x ++ String c (String.concat (String c "") (y :: ys)))%string.
    cbn [SplitN]. rewrite (Cut_found c x _ Hx).
    f_equal. apply IH; [assumption|assumption|lia].
Qed.

Lemma Split_concat c xs x :
  lacks c x = true -> Forall (fun y => lacks c y = true) xs ->
  Split (String.concat (String c "") (x :: xs)) (String c "") = x :: xs.
Proof.
  intros Hx Hxs. unfold Split. apply SplitN_concat; [assumption|assumption|].
  apply length_concat_ge.
Qed.

Lemma lineOf_lacks_newline f : wireEntry f -> lacks "010" (lineOf f) = true.
Proof.
  intros [Hn [Hv _]]. unfold lineOf. rewrite !lacks_append.
  rewrite (plainName_lacks_newline _ Hn), Hv. reflexivity.
Qed.

(** The loop of [ParseQueryKV] over the text of [EncodeKV] rebuilds the
    field list. *)
Lemma parseLines_EncodeKV l :
  l <> [] ->
  Forall wireEntry l -> Forall (fun f => Name f <> QueryFieldNameEntity) l ->
  parseLines (Split (EncodeKV (mkQuery l)) (String "010" "")) NewQueryFieldList = inl l.
Proof.
  intros Hne Hw He. rewrite (EncodeKV_concat l He).
  destruct l as [|f l]; [congruence|]. cbn [map].
  inversion Hw as [|f' l' Hf Hl]; subst.
  rewrite Split_concat.
  - change (lineOf f :: map lineOf l) with (map lineOf (f :: l)).
    now rewrite parseLines_lineOf.
  - now apply lineOf_lacks_newline.
  - apply Forall_map. eapply Forall_impl; [|exact Hl].
    intros g. apply lineOf_lacks_newline.
Qed.

End WireLines.

(* ================================================================== *)
(** * The typed constructors *)
(* ================================================================== *)

Section Constructors.

Context {CM : CaseMapping} {Laws : CaseMappingLaws CM} {ID : IDNA} {DG : SHA256}.

Ltac known_name :=
  unfold constructorNames; cbn [In];
  repeat first [left; reflexivity | right].

Lemma constructorNames_plain n :
  In n constructorNames ->
  plainName n = true /\ n <> QueryFieldNameVersion /\ n <> QueryFieldNameAction
  /\ n <> QueryFieldNameEntity.
Proof.
  unfold constructorNames. cbn [In]. intros H.
  repeat (destruct H as [<-|H]; [repeat split; discriminate|]).
  destruct H.
Qed.

Lemma known_map n (vs : list string) :
  In n constructorNames -> Forall known (map (mkQueryField n) vs).
Proof. intros H. apply Forall_map. now apply Forall_forall. Qed.

Lemma known_handleEntries n hs :
  In n constructorNames -> Forall known (handleEntries n hs).
Proof. intros H. unfold handleEntries. apply Forall_map. now apply Forall_forall. Qed.

Lemma known_domainEntries domain : Forall known (domainEntries domain).
Proof.
  eapply Forall_impl; [|apply domainEntries_names].
  intros f [E|E]; unfold known; rewrite E; known_name.
Qed.

Lemma known_domainData fields d :
  Forall known fields -> Forall known (DomainData_PutToQueryFields d fields).
Proof.
  intros H. rewrite DomainData_PutToQueryFields_entries.
  repeat (apply Forall_app; split); try assumption;
    first [apply known_handleEntries | apply known_map]; known_name.
Qed.

(** A contact record without verification information appends entries
    of known names only; with verification information it appends a marker. *)
Lemma known_contactEntries cd :
  Forall (fun f => Name f <> QueryFieldNameEntity) (contactEntries cd) ->
  Forall known (contactEntries cd).
Proof.
  unfold contactEntries. intros H.
  destruct (VerificationInformation' cd) as [|vi vis].
  - cbn [flat_map].
    repeat first [apply Forall_cons | apply Forall_app; split | apply Forall_nil
                 | apply known_map]; unfold known; cbn [Name]; known_name.
  - exfalso. rewrite Forall_forall in H.
    apply (H (mkQueryField "entity" "[verificationinformation]")); [|reflexivity].
    right; right. rewrite !in_app_iff. right; right.
    cbn [In]. right; right; right. rewrite !in_app_iff. right.
    cbn [In flat_map verificationEntries]. right. left. reflexivity.
Qed.

Lemma declaredAction_Normalize c :
  QueryAction_Normalize (declaredAction c) = declaredAction c.
Proof.
  unfold QueryAction_Normalize. destruct c; cbn [declaredAction];
    now rewrite ToUpper_ascii.
Qed.

Ltac normalize_names :=
  rewrite ?(Normalize_plain QueryFieldNameUser eq_refl eq_refl),
          ?(Normalize_plain QueryFieldNamePassword eq_refl eq_refl),
          ?(Normalize_plain QueryFieldNameHandle eq_refl eq_refl),
          ?(Normalize_plain QueryFieldNameDisconnect eq_refl eq_refl),
          ?(Normalize_plain QueryFieldNameAuthInfoHash eq_refl eq_refl),
          ?(Normalize_plain QueryFieldNameAuthInfoExpire eq_refl eq_refl),
          ?(Normalize_plain QueryFieldNameAuthInfo eq_refl eq_refl),
          ?(Normalize_plain QueryFieldNameMsgID eq_refl eq_refl),
          ?(Normalize_plain QueryFieldNameMsgType eq_refl eq_refl).

Lemma known_Add fields n vs :
  In n constructorNames -> Forall known fields -> Forall known (Add fields n vs).
Proof.
  intros Hn H. unfold Add.
  rewrite (plainName_Normalize n (proj1 (constructorNames_plain n Hn))).
  apply Forall_app. split; [assumption|now apply known_map].
Qed.

Lemma known_PutDomain fields domain :
  Forall known fields -> Forall known (PutDomainToQueryFields fields domain).
Proof.
  intros H. rewrite PutDomainToQueryFields_entries. apply Forall_app.
  split; [assumption|apply known_domainEntries].
Qed.

(** Every constructor returns version, then its declared action, then
    entries whose names are known, unless a marker is among them. *)
Lemma build_fields (c : Construction) :
  exists rest,
    fields (build c)
    = mkQueryField QueryFieldNameVersion LatestVersion
      :: mkQueryField QueryFieldNameAction (declaredAction c) :: rest
    /\ (Forall (fun f => Name f <> QueryFieldNameEntity) rest -> Forall known rest).
Proof.
  assert (G : forall l,
             (Forall (fun f => Name f <> QueryFieldNameEntity) l -> Forall known l) ->
             exists rest,
               fields (NewQuery LatestVersion (declaredAction c) (Some l))
               = mkQueryField QueryFieldNameVersion LatestVersion
                 :: mkQueryField QueryFieldNameAction (declaredAction c) :: rest
               /\ (Forall (fun f => Name f <> QueryFieldNameEntity) rest
                   -> Forall known rest)).
  { intros l Hl. exists l. rewrite NewQuery_fields, declaredAction_Normalize. auto. }
  assert (K : forall l, Forall known l ->
             exists rest,
               fields (NewQuery LatestVersion (declaredAction c) (Some l))
               = mkQueryField QueryFieldNameVersion LatestVersion
                 :: mkQueryField QueryFieldNameAction (declaredAction c) :: rest
               /\ (Forall (fun f => Name f <> QueryFieldNameEntity) rest
                   -> Forall known rest)).
  { intros l Hl. apply G. auto. }
  destruct c; cbn [build declaredAction] in *.
  3: { apply G. rewrite ContactData_PutToQueryFields_entries.
       unfold Add, NewQueryFieldList. normalize_names. cbn [map app].
       intros H. inversion H as [|f l Hf Hl]; subst.
       constructor; [unfold known; cbn [Name]; known_name|].
       now apply known_contactEntries. }
  2: { exists []. unfold NewLogoutQuery. rewrite NewQuery_fields.
       change ActionLogout with (declaredAction Logout).
       rewrite declaredAction_Normalize. auto. }
  all: apply K.
  all: try destruct disconnect.
  all: try destruct (0 <? String.length msgType)%nat.
  all: repeat first [ apply known_domainData
                    | apply known_PutDomain
                    | apply known_Add; [known_name|]
                    | apply Forall_nil ].
Qed.

Lemma mkQuery_fields q : mkQuery (fields q) = q.
Proof. now destruct q. Qed.

(** C1, as the code has it.  A query returned by a typed constructor
    has the latest version and the action the constructor declares, whatever
    its arguments.  When, in addition, none of its entries is an entity marker
    and every value is free of line feeds and of white space at its ends,
    [ParseQueryKV] of its [EncodeKV] succeeds and returns a query with the
    same version, the same action and the same values under every field name
    (indeed the same field list). *)
Theorem constructed_query_round_trip (c : Construction) :
  Query_Version (build c) = LatestVersion
  /\ Query_Action (build c) = declaredAction c
  /\ (wireQuery (build c) ->
      exists q,
        ParseQueryKV (EncodeKV (build c)) = inl q
        /\ fields q = fields (build c)
        /\ Query_Version q = Query_Version (build c)
        /\ Query_Action q = Query_Action (build c)
        /\ forall fieldName, Query_Field q fieldName = Query_Field (build c) fieldName).
Proof.
  destruct (build_fields c) as (rest & E & HK).
  assert (NV := Normalize_plain QueryFieldNameVersion eq_refl eq_refl).
  assert (NA := Normalize_plain QueryFieldNameAction eq_refl eq_refl).
  split; [|split].
  - unfold Query_Version, Version_Normalize, Query_FirstField, FirstValue.
    rewrite E, Values_cons. cbn [Name Value]. rewrite NV.
    change (String.eqb QueryFieldNameVersion QueryFieldNameVersion) with true.
    reflexivity.
  - unfold Query_Action, Query_FirstField, FirstValue.
    rewrite E, !Values_cons. cbn [Name Value]. rewrite NA.
    change (String.eqb QueryFieldNameVersion QueryFieldNameAction) with false.
    change (String.eqb QueryFieldNameAction QueryFieldNameAction) with true.
    cbv iota. apply declaredAction_Normalize.
  - intros HW. unfold wireQuery in HW. rewrite E in HW.
    inversion HW as [|f1 l1 [_ W1] HW1]; subst.
    inversion HW1 as [|f2 l2 [_ W2] HW2]; subst.
    cbn [Value] in W1, W2.
    assert (HR : Forall known rest).
    { apply HK. eapply Forall_impl; [|exact HW2]. now intros f [H _]. }
    assert (VV : Values (fields (build c)) QueryFieldNameVersion = [LatestVersion]).
    { rewrite E, !Values_cons. cbn [Name Value]. rewrite NV.
      change (String.eqb QueryFieldNameVersion QueryFieldNameVersion) with true.
      change (String.eqb QueryFieldNameAction QueryFieldNameVersion) with false.
      cbv iota. apply f_equal. apply Values_other. rewrite NV.
      eapply Forall_impl; [|exact HR]. intros f Hf.
      now apply constructorNames_plain in Hf. }
    assert (VA : Values (fields (build c)) QueryFieldNameAction = [declaredAction c]).
    { rewrite E, !Values_cons. cbn [Name Value]. rewrite NA.
      change (String.eqb QueryFieldNameVersion QueryFieldNameAction) with false.
      change (String.eqb QueryFieldNameAction QueryFieldNameAction) with true.
      cbv iota. apply f_equal. apply Values_other. rewrite NA.
      eapply Forall_impl; [|exact HR]. intros f Hf.
      now apply constructorNames_plain in Hf. }
    assert (HP : parseLines (Split (EncodeKV (build c)) (String "010" "")) NewQueryFieldList
                 = inl (fields (build c))).
    { rewrite <- (mkQuery_fields (build c)) at 1. apply parseLines_EncodeKV.
      - rewrite E. discriminate.
      - rewrite E.
        apply Forall_cons; [split; [reflexivity|exact W1]|].
        apply Forall_cons; [split; [reflexivity|exact W2]|].
        rewrite Forall_forall in *. intros f Hf. split.
        + apply constructorNames_plain. now apply HR.
        + now apply HW2.
      - rewrite E.
        apply Forall_cons; [discriminate|]. apply Forall_cons; [discriminate|].
        eapply Forall_impl; [|exact HR]. intros f Hf.
        now apply constructorNames_plain in Hf. }
    exists (build c).
    destruct (ParseQueryKV_validate _ _ HP) as [(_ & _ & HQ)|([Hbad|Hbad] & _)].
    + rewrite HQ, mkQuery_fields. auto.
    + rewrite VV in Hbad. cbn [List.length] in Hbad. congruence.
    + rewrite VA in Hbad. cbn [List.length] in Hbad. congruence.
Qed.

End Constructors.

(* ================================================================== *)
(** * The package on concrete inputs *)
(* ================================================================== *)

Section Evaluation.

(** Case mapping is the byte-wise one, the digest is SHA-256, and the
    IDNA codec is the two-name table. *)
#[local] Existing Instance asciiCase.
#[local] Existing Instance asciiCase_laws.
#[local] Existing Instance tableIDNA.
#[local] Existing Instance sha256.

(** The digest of the three bytes [abc] is the one of FIPS 180-4. *)
Example Sum256_abc :
  EncodeToString (Sum256 "abc")
  = "ba7816bf8f01cfea414140de5dae2223b00361a396177a9cb410ff61f20015ad".
Proof. vm_compute. reflexivity. Qed.

Example ParseQueryKV_login :
  exists q,
    ParseQueryKV ("version: 5.0" ++ LF ++ "action: LOGIN" ++ LF
                  ++ "user: alice" ++ LF ++ "password: secret")%string = inl q
    /\ Query_Action q = "LOGIN"
    /\ Query_FirstField q QueryFieldNameUser = "alice".
Proof. eexists. split; [vm_compute; reflexivity|split; vm_compute; reflexivity]. Qed.

Example ParseQueryKV_version_missing :
  ParseQueryKV "action: LOGIN" = inr (Errorf "version key is missing").
Proof. vm_compute. reflexivity. Qed.

Example ParseQueryKV_version_twice :
  ParseQueryKV ("version: 5.0" ++ LF ++ "version: 5.0" ++ LF ++ "action: LOGIN")%string
  = inr (Errorf "multiple version values").
Proof. vm_compute. reflexivity. Qed.

Example ParseQueryKV_no_colon : ParseQueryKV "garbage-no-colon" = inr lineError.
Proof. vm_compute. reflexivity. Qed.

Example ParseContactType_any_case :
  ParseContactType "pErSoN" = inl ContactTypePerson
  /\ ParseContactType "org" = inl ContactTypeOrganisation
  /\ ParseContactType "" = inr (Errorf "invalid contact type").
Proof. repeat split; vm_compute; reflexivity. Qed.

Example ParseDenicHandle_examples :
  ParseDenicHandle "DENIC-1000006-SOME-CODE" = inl (mkDenicHandle 1000006 "SOME-CODE")
  /\ ParseDenicHandle "denic-12-abc" = inl (mkDenicHandle 12 "ABC")
  /\ ParseDenicHandle "DENIC-5" = inr (Errorf "invalid handle")
  /\ ParseDenicHandle "DOMAIN-5-X" = inr (Errorf "invalid handle")
  /\ ParseDenicHandle "DENIC-five-X" = inr (Errorf "invalid handle").
Proof. repeat split; vm_compute; reflexivity. Qed.

Example PutDomainToQueryFields_plain_name :
  PutDomainToQueryFields NewQueryFieldList muenchenIDN
  = [mkQueryField "domain" muenchenIDN; mkQueryField "domain-ace" muenchenACE].
Proof. vm_compute. reflexivity. Qed.

Example NewCreateContactQuery_marker_line :
  let q := NewCreateContactQuery (NewDenicHandle 7 "ab")
             (mkContactData "person" "A" "" "" "" "" "" [] ""
                [mkVerificationInformation [("VerifiedClaim", "x")]]) in
  In "[verificationinformation]" (Split (EncodeKV q) LF)
  /\ ParseQueryKV (EncodeKV q) = inr lineError.
Proof.
  split; vm_compute; [|reflexivity].
  repeat first [left; reflexivity | right].
Qed.

(** A line feed in a password splits its line in two, and the second has
    no colon; a leading blank is lost on the way back. *)
Lemma login_password_not_round_trip :
  ParseQueryKV (EncodeKV (NewLoginQuery "alice" ("pa" ++ LF ++ "ss"))) = inr lineError
  /\ exists q,
       ParseQueryKV (EncodeKV (NewLoginQuery "alice" " secret")) = inl q
       /\ Query_Field q QueryFieldNamePassword = ["secret"]
       /\ Query_Field (NewLoginQuery "alice" " secret") QueryFieldNamePassword
          = [" secret"].
Proof.
  split; [vm_compute; reflexivity|].
  eexists. split; [vm_compute; reflexivity|]. split; vm_compute; reflexivity.
Qed.

Lemma constructed_query_round_trip_witness :
  wireQuery (build (Login "alice" "secret"))
  /\ exists q,
       ParseQueryKV (EncodeKV (build (Login "alice" "secret"))) = inl q
       /\ forall fieldName,
            Query_Field q fieldName = Query_Field (build (Login "alice" "secret")) fieldName.
Proof.
  assert (W : wireQuery (build (Login "alice" "secret"))).
  { unfold wireQuery.
    repeat (apply Forall_cons; [split; [discriminate|split; vm_compute; reflexivity]|]).
    apply Forall_nil. }
  split; [exact W|].
  destruct (proj2 (proj2 (constructed_query_round_trip (Login "alice" "secret"))) W)
    as (q & Hq & _ & _ & _ & Hf).
  exists q. split; [exact Hq|exact Hf].
Defined.

(** A supplied [version] entry is kept beside the one of the constructor. *)
Lemma NewQuery_version_twice :
  Query_Field (NewQuery "5.0" "LOGIN" (Some [mkQueryField "version" "4.0"]))
              QueryFieldNameVersion
  = ["5.0"; "4.0"].
Proof. vm_compute. reflexivity. Qed.

Lemma NewQuery_version_action_first_witness :
  Query_Field (NewQuery "5.0" "login" (Some [mkQueryField "user" "alice"]))
              QueryFieldNameAction
  = ["LOGIN"].
Proof.
  refine (proj2 (proj2 (proj2 (proj2
            (NewQuery_version_action_first "5.0" "login"
               (Some [mkQueryField "user" "alice"])))) _)).
  apply Forall_cons; [split; discriminate|apply Forall_nil].
Defined.

Lemma ParseDenicHandle_String_round_trip_witness :
  ParseDenicHandle (DenicHandle_String (NewDenicHandle 1000006 "some-code"))
  = inl (mkDenicHandle 1000006 "SOME-CODE").
Proof.
  refine (proj1 (ParseDenicHandle_String_round_trip 1000006 "some-code" _ _)).
  - unfold maxInt. lia.
  - discriminate.
Defined.

Lemma ParseDenicHandle_error_iff_witness :
  exists e, ParseDenicHandle "DENIC-x7-AB" = inr e.
Proof.
  assert (H : "DENIC-x7-AB" <> "") by discriminate.
  apply (proj2 (proj1 (ParseDenicHandle_error_iff "DENIC-x7-AB" H))).
  right; right. reflexivity.
Defined.

Lemma PutDomainToQueryFields_branches_witness :
  PutDomainToQueryFields NewQueryFieldList muenchenACE
  = [mkQueryField "domain-ace" muenchenACE; mkQueryField "domain" muenchenIDN].
Proof.
  exact (proj1 (PutDomainToQueryFields_branches NewQueryFieldList muenchenACE)
               eq_refl).
Defined.

Lemma DomainData_PutToQueryFields_reads_back_witness :
  let d := mkDomainData [NewDenicHandle 1 "a"; NewDenicHandle 2 "b"]
                        [NewDenicHandle 3 "c"] [NewDenicHandle 4 "d"]
                        ["ns1.example.de"; "ns2.example.de"] in
  Values (DomainData_PutToQueryFields d NewQueryFieldList) QueryFieldNameHolder
  = ["DENIC-1-A"; "DENIC-2-B"]
  /\ Values (DomainData_PutToQueryFields d NewQueryFieldList) QueryFieldNameNameServer
     = ["ns1.example.de"; "ns2.example.de"].
Proof.
  intros d.
  assert (H1 : forall h, In h (HolderHandles d ++ GeneralRequestHandles d
                               ++ AbuseContactHandles d) ->
                         DenicHandle_IsEmpty h = false).
  { intros h Hh. cbn in Hh. repeat (destruct Hh as [<-|Hh]; [reflexivity|]). destruct Hh. }
  assert (H2 : NameServers d <> []) by discriminate.
  destruct (proj2 (proj2 (proj2 (proj2 (proj2 (proj2
              (DomainData_PutToQueryFields_reads_back d)))))) H1 H2)
    as (VH & _ & _ & VN).
  split; [exact VH|exact VN].
Defined.

(** The year 10000 is printed with five digits. *)
Lemma authinfoexpire_nine_digits :
  Query_Field (NewCreateAuthInfo1Query "example.de" "s3cret" (mkTime 10000 1 1))
              QueryFieldNameAuthInfoExpire
  = ["100000101"]
  /\ String.length (Format20060102 (mkTime 10000 1 1)) = 9.
Proof. split; vm_compute; reflexivity. Qed.

Lemma NewCreateAuthInfo1Query_hash_and_expire_witness :
  Query_Field (NewCreateAuthInfo1Query "example.de" "s3cret" (mkTime 2026 3 7))
              QueryFieldNameAuthInfoHash
  = ["1ec1c26b50d5d3c58d9583181af8076655fe00756bf7285940ba3670f99fcba0"]
  /\ Format20060102 (mkTime 2026 3 7) = "20260307"
  /\ String.length (Format20060102 (mkTime 2026 3 7)) = 8.
Proof.
  destruct (NewCreateAuthInfo1Query_hash_and_expire "example.de" "s3cret" (mkTime 2026 3 7))
    as (HH & _ & _ & _ & HE).
  destruct HE as (HL & _); [cbn; lia|cbn; lia|cbn; lia|].
  split; [rewrite HH; vm_compute; reflexivity|].
  split; [vm_compute; reflexivity|exact HL].
Defined.

Lemma ContactTypeRequest_not_parsed_witness :
  ParseContactType "Request" = inr (Errorf "invalid contact type").
Proof.
  apply (proj1 (proj2 (proj2 (proj2 ContactTypeRequest_not_parsed)))).
  reflexivity.
Defined.

End Evaluation.

(* ================================================================== *)
(** * More on splitting and trimming *)
(* ================================================================== *)

Module SplitFacts.

Lemma splitAll_not_nil c s : splitAll c s <> [].
Proof.
  destruct s as [|a s]; cbn [splitAll]; [discriminate|].
  destruct (Ascii.eqb a c); [discriminate|].
  destruct (splitAll c s); discriminate.
Qed.

Lemma splitAll_lacks c s : Forall (fun part => lacks c part = true) (splitAll c s).
Proof.
  induction s as [|a s IH]; cbn [splitAll].
  - repeat constructor.
  - destruct (Ascii.eqb a c) eqn:E; [constructor; [reflexivity|exact IH]|].
    destruct (splitAll c s) as [|part rest]; [repeat constructor; cbn; now rewrite E|].
    inversion IH as [|x l Hx Hl]; subst.
    constructor; [|exact Hl]. cbn [lacks allBytes]. rewrite E. exact Hx.
Qed.

Lemma concat_splitAll c s : String.concat (String c "") (splitAll c s) = s.
Proof.
  induction s as [|a s IH]; [reflexivity|]. cbn [splitAll].
  destruct (Ascii.eqb a c) eqn:E.
  - apply Ascii.eqb_eq in E. subst a.
    pose proof (splitAll_not_nil c s) as Hne.
    destruct (splitAll c s) as [|part rest]; [congruence|].
    cbn [String.concat append] in *. now rewrite IH.
  - destruct (splitAll c s) as [|part rest] eqn:ES; [now apply splitAll_not_nil in ES|].
    destruct rest as [|part' rest]; cbn [String.concat append] in *; now rewrite IH.
Qed.

(** [Split] at a one-byte separator is [splitAll]. *)
Lemma Split_splitAll c s : Split s (String c "") = splitAll c s.
Proof.
  pose proof (splitAll_lacks c s) as HL.
  pose proof (concat_splitAll c s) as HC.
  destruct (splitAll c s) as [|x xs] eqn:ES; [now apply splitAll_not_nil in ES|].
  rewrite <- HC at 1.
  apply Split_concat; [exact (Forall_inv HL)|exact (Forall_inv_tail HL)].
Qed.

Lemma splitAll_append c a b :
  splitAll c (a ++ String c b)%string = splitAll c a ++ splitAll c b.
Proof.
  induction a as [|x a IH]; cbn [append splitAll].
  - now rewrite Ascii.eqb_refl.
  - rewrite IH. destruct (Ascii.eqb x c); [reflexivity|].
    destruct (splitAll c a) as [|part rest] eqn:ES; [now apply splitAll_not_nil in ES|].
    reflexivity.
Qed.

Lemma splitAll_whole c s : lacks c s = true -> splitAll c s = [s].
Proof.
  induction s as [|a s IH]; [reflexivity|]. cbn [lacks allBytes splitAll].
  intros H. apply andb_true_iff in H as [Ha Hs]. apply negb_true_iff in Ha.
  now rewrite Ha, (IH Hs).
Qed.

Lemma splitAll_allBytes p c s :
  allBytes p s = true -> Forall (fun part => allBytes p part = true) (splitAll c s).
Proof.
  induction s as [|a s IH]; cbn [splitAll allBytes]; intros H.
  - repeat constructor.
  - apply andb_true_iff in H as [Ha Hs]. specialize (IH Hs).
    destruct (Ascii.eqb a c); [constructor; [reflexivity|exact IH]|].
    destruct (splitAll c s) as [|part rest]; [repeat constructor; cbn; now rewrite Ha|].
    inversion IH as [|x l Hx Hl]; subst.
    constructor; [|exact Hl]. cbn [allBytes]. now rewrite Ha, Hx.
Qed.

Section Head.

Variables (p2 : ascii -> ascii -> bool) (p3 : ascii -> ascii -> ascii -> bool).

(** Trimming the head leaves a tail of the text. *)
Lemma trimHead_tail_le n : forall s,
  String.length s <= n -> exists pre, s = (pre ++ trimHead p2 p3 s)%string.
Proof.
  induction n as [|n IH]; intros s Hs.
  - destruct s; [now exists ""|cbn [String.length] in Hs; lia].
  - destruct s as [|a [|b [|c s3]]].
    + now exists "".
    + rewrite trimHead_1. destruct (isSpace1 a); [now exists (String a "")|now exists ""].
    + rewrite trimHead_2. cbn [String.length] in Hs. destruct (isSpace1 a).
      * destruct (IH (String b "")) as [pre E]; [cbn [String.length]; lia|].
        exists (String a pre). cbn [append]. now rewrite <- E.
      * destruct (p2 a b); [now exists (String a (String b ""))|now exists ""].
    + rewrite trimHead_3. cbn [String.length] in Hs. destruct (isSpace1 a).
      * destruct (IH (String b (String c s3))) as [pre E]; [cbn [String.length]; lia|].
        exists (String a pre). cbn [append]. now rewrite <- E.
      * destruct (p2 a b).
        -- destruct (IH (String c s3)) as [pre E]; [cbn [String.length]; lia|].
           exists (String a (String b pre)). cbn [append]. now rewrite <- E.
        -- destruct (p3 a b c); [|now exists ""].
           destruct (IH s3) as [pre E]; [lia|].
           exists (String a (String b (String c pre))). cbn [append]. now rewrite <- E.
Qed.

Lemma trimHead_tail s : exists pre, s = (pre ++ trimHead p2 p3 s)%string.
Proof. now apply (trimHead_tail_le (String.length s)). Qed.

(** What is left after trimming has nothing more to trim. *)
Lemma trimHead_idem_le n : forall s,
  String.length s <= n -> trimHead p2 p3 (trimHead p2 p3 s) = trimHead p2 p3 s.
Proof.
  induction n as [|n IH]; intros s Hs.
  - destruct s; [reflexivity|cbn [String.length] in Hs; lia].
  - destruct s as [|a [|b [|c s3]]].
    + reflexivity.
    + rewrite trimHead_1. destruct (isSpace1 a) eqn:E1; [reflexivity|].
      now rewrite trimHead_1, E1.
    + rewrite trimHead_2. cbn [String.length] in Hs. destruct (isSpace1 a) eqn:E1.
      * apply IH. cbn [String.length]. lia.
      * destruct (p2 a b) eqn:E2; [reflexivity|]. now rewrite trimHead_2, E1, E2.
    + rewrite trimHead_3. cbn [String.length] in Hs. destruct (isSpace1 a) eqn:E1.
      * apply IH. cbn [String.length]. lia.
      * destruct (p2 a b) eqn:E2; [apply IH; cbn [String.length]; lia|].
        destruct (p3 a b c) eqn:E3; [apply IH; lia|].
        now rewrite trimHead_3, E1, E2, E3.
Qed.

Lemma trimHead_idem s : trimHead p2 p3 (trimHead p2 p3 s) = trimHead p2 p3 s.
Proof. now apply (trimHead_idem_le (String.length s)). Qed.

(** A text with nothing to trim at its head keeps that when it is cut
    short. *)
Lemma trimHead_fixed_front z w :
  trimHead p2 p3 (z ++ w)%string = (z ++ w)%string -> trimHead p2 p3 z = z.
Proof.
  intros H. destruct z as [|a z]; [reflexivity|]. cbn [append] in H.
  apply trimHead_fixed_inv in H as [H1 H].
  destruct z as [|b z]; cbn [append] in H.
  - now rewrite trimHead_1, H1.
  - destruct H as [H2 H]. destruct z as [|c z]; cbn [append] in H.
    + now rewrite trimHead_2, H1, H2.
    + now rewrite trimHead_3, H1, H2, H.
Qed.

End Head.

Lemma TrimLeftSpace_tail s : exists pre, s = (pre ++ TrimLeftSpace s)%string.
Proof. apply trimHead_tail. Qed.

Lemma TrimRightSpace_front s : exists post, s = (TrimRightSpace s ++ post)%string.
Proof.
  destruct (trimHead_tail lastFirst2 lastFirst3 (rev s)) as [pre E].
  exists (rev pre). rewrite TrimRightSpace_rev, <- rev_append, <- E.
  now rewrite rev_involutive.
Qed.

(** [TrimSpace] keeps a property of all bytes. *)
Lemma TrimSpace_allBytes p s : allBytes p s = true -> allBytes p (TrimSpace s) = true.
Proof.
  intros H. unfold TrimSpace.
  destruct (TrimLeftSpace_tail s) as [pre E1].
  destruct (TrimRightSpace_front (TrimLeftSpace s)) as [post E2].
  rewrite E1, allBytes_append in H. apply andb_true_iff in H as [_ H].
  rewrite E2, allBytes_append in H. now apply andb_true_iff in H as [H _].
Qed.

(** Trimming twice is trimming once. *)
Lemma TrimSpace_idem s : TrimSpace (TrimSpace s) = TrimSpace s.
Proof.
  unfold TrimSpace at 1 2.
  assert (HL : TrimLeftSpace (TrimRightSpace (TrimLeftSpace s))
               = TrimRightSpace (TrimLeftSpace s)).
  { destruct (TrimRightSpace_front (TrimLeftSpace s)) as [post E].
    apply (trimHead_fixed_front isSpace2 isSpace3 _ post).
    rewrite <- E. apply trimHead_idem. }
  rewrite HL, !TrimRightSpace_rev, rev_involutive, trimHead_idem. reflexivity.
Qed.

End SplitFacts.

Import SplitFacts.

(* ================================================================== *)
(** * More on [ParseQueryKV] and [EncodeKV] *)
(* ================================================================== *)

Section ParsingMore.

Context {CM : CaseMapping}.

(** The loop reads the trimmed non-blank lines and nothing else. *)
Lemma parseLines_nonBlank lines : forall acc,
  parseLines lines acc = parseLines (nonBlank lines) acc.
Proof.
  induction lines as [|line lines IH]; intros acc; [reflexivity|].
  unfold nonBlank. cbn [map filter]. fold (nonBlank lines).
  cbn [parseLines].
  destruct (TrimSpace line) as [|a t] eqn:ET.
  - cbn [String.length Nat.eqb String.eqb negb]. apply IH.
  - cbn [String.eqb negb parseLines]. rewrite <- ET, TrimSpace_idem.
    destruct (String.length (TrimSpace line) =? 0)%nat; [apply IH|].
    destruct (SplitN (TrimSpace line) ":" 2) as [|p0 [|p1 [|p2 ps]]]; try reflexivity.
    apply IH.
Qed.

(** A non-blank line without a colon makes the parse fail with the line
    error, whatever else the text holds. *)
Lemma ParseQueryKV_no_colon_line str :
  Exists (fun l => lacks ":" l = true) (nonBlankLines str) ->
  ParseQueryKV str = inr lineError.
Proof.
  intros HE. unfold ParseQueryKV.
  pose proof (parseLines_spec (Split str (String "010" "")) NewQueryFieldList) as HP.
  destruct (parseLines (Split str (String "010" "")) NewQueryFieldList) as [fs'|e].
  - exfalso. destruct HP as (fs & _ & HF).
    apply Exists_exists in HE as (l & Hl & Hc).
    destruct (Forall2_In_left _ _ _ _ HF Hl) as (f & _ & Hf).
    apply entryOfLine_colon in Hf. congruence.
  - now destruct HP as [-> _].
Qed.

Lemma parseLines_entries str fs :
  Forall2 entryOfLine (nonBlankLines str) fs ->
  parseLines (Split str (String "010" "")) NewQueryFieldList = inl fs.
Proof.
  intros HF.
  pose proof (parseLines_spec (Split str (String "010" "")) NewQueryFieldList) as HP.
  destruct (parseLines (Split str (String "010" "")) NewQueryFieldList) as [fs'|e].
  - destruct HP as (gs & -> & HG). cbn [app NewQueryFieldList].
    f_equal. eapply Forall2_entryOfLine_unique; eassumption.
  - exfalso. destruct HP as [_ HE].
    apply Exists_exists in HE as (l & Hl & Hc).
    destruct (Forall2_In_left _ _ _ _ HF Hl) as (f & _ & Hf).
    apply entryOfLine_colon in Hf. congruence.
Qed.

(** X1.  Which error [ParseQueryKV] returns, in the order of its checks:
    a non-blank line without a colon gives the line error whatever the other
    lines hold; otherwise a missing version, then several versions, then a
    missing action, then several actions; and with exactly one of each the
    query holds the entries of the lines. *)
Theorem ParseQueryKV_error_order (str : string) :
  let lines := nonBlankLines str in
  (Exists (fun l => lacks ":" l = true) lines -> ParseQueryKV str = inr lineError)
  /\ forall fs, Forall2 entryOfLine lines fs ->
       let versions := List.length (Values fs QueryFieldNameVersion) in
       let actions := List.length (Values fs QueryFieldNameAction) in
       (versions = 0 -> ParseQueryKV str = inr (Errorf "version key is missing"))
       /\ (1 < versions -> ParseQueryKV str = inr (Errorf "multiple version values"))
       /\ (versions = 1 -> actions = 0 ->
           ParseQueryKV str = inr (Errorf "action key is missing"))
       /\ (versions = 1 -> 1 < actions ->
           ParseQueryKV str = inr (Errorf "multiple action values"))
       /\ (versions = 1 -> actions = 1 -> ParseQueryKV str = inl (mkQuery fs)).
Proof.
  intros lines. split; [apply ParseQueryKV_no_colon_line|].
  intros fs HF versions actions. subst versions actions.
  apply parseLines_entries in HF. unfold ParseQueryKV. rewrite HF.
  destruct (List.length (Values fs QueryFieldNameVersion)) as [|[|nv]];
    cbn [Nat.eqb Nat.ltb Nat.leb].
  - repeat split; intros; try reflexivity; lia.
  - destruct (List.length (Values fs QueryFieldNameAction)) as [|[|na]];
      cbn [Nat.eqb Nat.ltb Nat.leb]; repeat split; intros; try reflexivity; lia.
  - repeat split; intros; try reflexivity; lia.
Qed.

(** X2.  [ParseQueryKV] reads a text through its trimmed non-blank lines
    only: two texts with the same such lines (blank lines added, carriage
    returns before the line feeds, lines indented or padded) give the same
    result, error or query. *)
Theorem ParseQueryKV_lines_only (str1 str2 : string) :
  nonBlankLines str1 = nonBlankLines str2 ->
  ParseQueryKV str1 = ParseQueryKV str2.
Proof.
  intros H. unfold ParseQueryKV, nonBlankLines in *.
  rewrite (parseLines_nonBlank (Split str1 _)), (parseLines_nonBlank (Split str2 _)).
  now rewrite H.
Qed.

Lemma nonBlankLines_allBytes p str :
  allBytes p str = true ->
  Forall (fun l => allBytes p l = true) (nonBlankLines str).
Proof.
  intros H. unfold nonBlankLines, nonBlank. rewrite Split_splitAll.
  apply Forall_forall. intros l Hl. apply filter_In in Hl as [Hl _].
  apply in_map_iff in Hl as (x & <- & Hx).
  apply TrimSpace_allBytes.
  pose proof (splitAll_allBytes p "010" str H) as HL. rewrite Forall_forall in HL.
  now apply HL.
Qed.

Lemma nonBlankLines_lack_newline str :
  Forall (fun l => lacks "010" l = true) (nonBlankLines str).
Proof.
  unfold nonBlankLines, nonBlank. rewrite Split_splitAll.
  apply Forall_forall. intros l Hl. apply filter_In in Hl as [Hl _].
  apply in_map_iff in Hl as (x & <- & Hx).
  apply TrimSpace_allBytes.
  pose proof (splitAll_lacks "010" str) as HL. rewrite Forall_forall in HL.
  now apply HL.
Qed.

(** A parsed query holds the entries of the non-blank lines, with one
    version and one action among them. *)
Lemma ParseQueryKV_inl_entries str q :
  ParseQueryKV str = inl q ->
  Forall2 entryOfLine (nonBlankLines str) (fields q)
  /\ List.length (Values (fields q) QueryFieldNameVersion) = 1
  /\ List.length (Values (fields q) QueryFieldNameAction) = 1.
Proof.
  intros HQ. unfold ParseQueryKV in HQ.
  pose proof (parseLines_spec (Split str (String "010" "")) NewQueryFieldList) as HP.
  destruct (parseLines (Split str (String "010" "")) NewQueryFieldList) as [fs'|e];
    [|discriminate].
  destruct HP as (fs & -> & HF). cbn [app NewQueryFieldList] in HQ.
  destruct (List.length (Values fs QueryFieldNameVersion)) as [|[|nv]] eqn:EV;
    cbn [Nat.eqb Nat.ltb Nat.leb] in HQ; try discriminate.
  destruct (List.length (Values fs QueryFieldNameAction)) as [|[|na]] eqn:EA;
    cbn [Nat.eqb Nat.ltb Nat.leb] in HQ; try discriminate.
  inversion HQ; subst q. cbn [fields]. rewrite EV, EA. auto.
Qed.

(** The values of the entries of lines without line feeds are wire
    values. *)
Lemma entries_values_wire lines fs :
  Forall (fun l => lacks "010" l = true) lines ->
  Forall2 entryOfLine lines fs ->
  Forall (fun f => wireValue (Value f)) fs.
Proof.
  intros HL HF. revert HL.
  induction HF as [|line f lines fs Hf _ IH]; intros HL; [constructor|].
  constructor; [|apply IH; exact (Forall_inv_tail HL)].
  destruct Hf as (before & after & -> & _ & ->). cbn [Value].
  apply Forall_inv in HL. rewrite !lacks_append in HL.
  apply andb_true_iff in HL as [_ HL]. apply andb_true_iff in HL as [_ HL].
  split; [now apply TrimSpace_allBytes|apply TrimSpace_idem].
Qed.

(** X3.  Every value of a parsed query is free of line feeds and of
    white space at its ends: it is a value that [EncodeKV] and [ParseQueryKV]
    carry unchanged. *)
Theorem ParseQueryKV_values_trimmed (str : string) (q : Query) :
  ParseQueryKV str = inl q ->
  Forall (fun f => wireValue (Value f)) (fields q).
Proof.
  intros HQ. apply ParseQueryKV_inl_entries in HQ as [HF _].
  eapply entries_values_wire; [apply nonBlankLines_lack_newline|exact HF].
Qed.

End ParsingMore.

Section EncodingMore.

Context {CM : CaseMapping}.

Lemma encodeField_render sb f :
  encodeField sb f
  = ((if (0 <? String.length sb)%nat then sb ++ LF else sb) ++ renderEntry f)%string.
Proof.
  unfold encodeField, renderEntry, LF.
  destruct (String.eqb (Name f) QueryFieldNameEntity); cbn [negb]; [reflexivity|].
  now rewrite !append_assoc.
Qed.

(** Once some text is written, every further entry adds a line feed and
    its own text. *)
Lemma fold_encodeField_render l : forall sb,
  sb <> "" ->
  fold_left encodeField l sb = String.concat LF (sb :: map renderEntry l).
Proof.
  induction l as [|f l IH]; intros sb Hsb; cbn [fold_left map]; [reflexivity|].
  rewrite encodeField_render.
  assert ((0 <? String.length sb)%nat = true) as ->
    by (destruct sb; [congruence|reflexivity]).
  rewrite append_assoc, IH; [apply concat_cons_append|].
  destruct sb; [congruence|discriminate].
Qed.

(** X4.  [EncodeKV] writes the texts of the entries joined by line
    feeds (a marker as its value alone, any other entry as [name: value]),
    after leaving out the entries at the front whose text is empty: the
    result never starts with a separator. *)
Theorem EncodeKV_rendered (q : Query) :
  EncodeKV q = String.concat LF (dropBlank (map renderEntry (fields q))).
Proof.
  unfold EncodeKV. induction (fields q) as [|f l IH]; [reflexivity|].
  cbn [fold_left map]. rewrite encodeField_render. cbn [String.length Nat.ltb Nat.leb append].
  destruct (renderEntry f) as [|a r] eqn:E; cbn [dropBlank]; [exact IH|].
  apply fold_encodeField_render. discriminate.
Qed.

Lemma concat_LF_cons x xs :
  String.concat LF (x :: xs) = x \/
  exists rest, String.concat LF (x :: xs) = (x ++ LF ++ rest)%string
               /\ xs <> [] /\ rest = String.concat LF xs.
Proof.
  destruct xs as [|y ys]; [now left|]. right.
  exists (String.concat LF (y :: ys)). repeat split. discriminate.
Qed.

Lemma splitAll_line_first v t :
  lacks "010" v = true -> (t = "" \/ exists r, t = (LF ++ r)%string) ->
  In v (splitAll "010" (v ++ t)%string).
Proof.
  intros HL [->|[r ->]].
  - rewrite append_nil_r, (splitAll_whole _ _ HL). now left.
  - change (v ++ LF ++ r)%string with (v ++ String "010" r)%string.
    rewrite splitAll_append, (splitAll_whole _ _ HL). now left.
Qed.

(** The text of a marker entry is a line of the encoded query. *)
Lemma EncodeKV_marker_line (l1 l2 : QueryFieldList) (v : string) :
  v <> "" -> lacks "010" v = true ->
  In v (Split (EncodeKV (mkQuery (l1 ++ mkQueryField QueryFieldNameEntity v :: l2)))
              (String "010" "")).
Proof.
  intros Hv HL. rewrite Split_splitAll. unfold EncodeKV. cbn [fields].
  rewrite fold_left_app. cbn [fold_left].
  set (sb1 := fold_left encodeField l1 "").
  rewrite encodeField_render.
  assert (R : renderEntry (mkQueryField QueryFieldNameEntity v) = v) by reflexivity.
  rewrite R.
  set (pre := if (0 <? String.length sb1)%nat then (sb1 ++ LF)%string else sb1).
  assert (HT : exists t, fold_left encodeField l2 (pre ++ v)%string = (pre ++ v ++ t)%string
                         /\ (t = "" \/ exists r, t = (LF ++ r)%string)).
  { rewrite fold_encodeField_render.
    - destruct (concat_LF_cons (pre ++ v)%string (map renderEntry l2)) as [E|(r & E & _)];
        rewrite E.
      + exists "". rewrite append_nil_r. auto.
      + exists (LF ++ r)%string. rewrite append_assoc. eauto.
    - destruct pre; [cbn [append]; exact Hv|discriminate]. }
  destruct HT as (t & -> & Ht).
  subst pre. destruct (0 <? String.length sb1)%nat eqn:E0.
  - rewrite append_assoc. change (sb1 ++ LF ++ v ++ t)%string
      with (sb1 ++ String "010" (v ++ t))%string.
    rewrite splitAll_append, in_app_iff. right. now apply splitAll_line_first.
  - assert (sb1 = "") as -> by (destruct sb1; [reflexivity|discriminate]).
    cbn [append]. now apply splitAll_line_first.
Qed.

(** X5.  An entity marker is written without a key, so a query that
    holds one does not come back from its own text: when the marker's value
    has no colon and no line feed and is not blank, [ParseQueryKV] of
    [EncodeKV] fails with the line error, wherever the marker stands. *)
Theorem EncodeKV_marker_not_parsed (l1 l2 : QueryFieldList) (v : string) :
  lacks ":" v = true -> lacks "010" v = true -> TrimSpace v <> "" ->
  ParseQueryKV (EncodeKV (mkQuery (l1 ++ mkQueryField QueryFieldNameEntity v :: l2)))
  = inr lineError.
Proof.
  intros HC HL HT. apply ParseQueryKV_no_colon_line.
  apply Exists_exists. exists (TrimSpace v). split.
  - unfold nonBlankLines, nonBlank. apply filter_In. split.
    + apply in_map. apply EncodeKV_marker_line; [|exact HL].
      intros ->. now apply HT.
    + apply negb_true_iff, String.eqb_neq. exact HT.
  - now apply TrimSpace_allBytes.
Qed.

End EncodingMore.

(* ================================================================== *)
(** * More on handles *)
(* ================================================================== *)

Section HandlesMore.

Context {CM : CaseMapping} {Laws : CaseMappingLaws CM}.

Lemma parseDigits_nonneg s : forall acc v,
  (0 <= acc)%Z -> parseDigits acc s = Some v -> (0 <= v)%Z.
Proof.
  induction s as [|a s IH]; intros acc v Hacc H; cbn [parseDigits] in H.
  - inversion H. lia.
  - destruct (isDigit a) eqn:E; [|discriminate].
    eapply IH; [|exact H].
    unfold isDigit in E. apply andb_true_iff in E as [E _]. apply N.leb_le in E.
    unfold digitVal. lia.
Qed.

(** Without a minus sign [Atoi] reads a number from 0 to the largest
    [int]. *)
Lemma Atoi_unsigned s n :
  lacks "-" s = true -> Atoi s = Some n -> (0 <= n <= maxInt)%Z.
Proof.
  intros HL H. unfold Atoi in H. destruct s as [|a rest]; [discriminate|].
  cbn [lacks allBytes] in HL. apply andb_true_iff in HL as [Ha _].
  apply negb_true_iff in Ha. rewrite Ha in H. cbn [orb] in H.
  destruct (if Ascii.eqb a "+" then rest else String a rest) as [|b body] eqn:EB;
    [discriminate|].
  destruct (parseDigits 0 (String b body)) as [v|] eqn:EP; [|discriminate].
  apply parseDigits_nonneg in EP; [|lia].
  destruct ((minInt <=? v) && (v <=? maxInt))%Z eqn:ER; [|discriminate].
  inversion H; subst n. apply andb_true_iff in ER as [_ ER]. apply Z.leb_le in ER. lia.
Qed.

(** What a successful parse returns. *)
Lemma ParseDenicHandle_result str h :
  ParseDenicHandle str = inl h ->
  h = EmptyDenicHandle
  \/ exists regAccID code,
       (0 <= regAccID <= maxInt)%Z /\ h = mkDenicHandle regAccID (ToUpper code).
Proof.
  unfold ParseDenicHandle. destruct (String.length str =? 0)%nat.
  - intros H. inversion H. now left.
  - destruct (SplitN_3_cases "-" str)
      as [[_ E]|[(p0 & p1 & _ & _ & _ & E)|(p0 & p1 & p2 & _ & _ & H1 & E)]];
      change (String "-" "") with "-" in E; rewrite E; try discriminate.
    destruct (negb (String.eqb (ToUpper p0) "DENIC")); [discriminate|].
    destruct (Atoi p1) as [regAccID|] eqn:EA; [|discriminate].
    intros H. inversion H. right. exists regAccID, (ToUpper p2).
    split; [now apply (Atoi_unsigned p1)|reflexivity].
Qed.

(** The text of a handle with a non-negative account id and an
    upper-cased code parses back to it. *)
Lemma ParseDenicHandle_String_upper regAccID code :
  (0 <= regAccID <= maxInt)%Z ->
  ParseDenicHandle (DenicHandle_String (mkDenicHandle regAccID (ToUpper code)))
  = inl (mkDenicHandle regAccID (ToUpper code)).
Proof.
  intros Hid. unfold DenicHandle_String, DenicHandle_IsEmpty. cbn [RegAccID ContactCode].
  destruct ((regAccID =? 0)%Z && (String.length (ToUpper code) =? 0)%nat) eqn:EE.
  - apply andb_true_iff in EE as [E1 E2]. apply Z.eqb_eq in E1. apply length_zero in E2.
    rewrite E1, E2. reflexivity.
  - rewrite ToUpper_idem.
    destruct (Itoa_nonneg regAccID) as (Hd & _ & _); [lia|].
    unfold ParseDenicHandle. cbn [append String.length Nat.eqb].
    change (String "D" (String "E" (String "N" (String "I" (String "C"
              (String "-" (Itoa regAccID ++ String "-" (ToUpper code))))))))%string
      with ("DENIC" ++ String "-" (Itoa regAccID ++ String "-" (ToUpper code)))%string.
    change "-" with (String "-" "") at 1.
    rewrite SplitN_3_found; [|reflexivity|apply digits_lack; [reflexivity|exact Hd]].
    rewrite (ToUpper_ascii "DENIC" eq_refl).
    change (String.eqb (mapBytes upperByte "DENIC") "DENIC") with true. cbn [negb].
    rewrite Atoi_Itoa by lia. unfold NewDenicHandle. now rewrite !ToUpper_idem.
Qed.

(** X6.  [ParseDenicHandle] never returns a negative account id, nor
    one beyond the range of [int], and the contact code it returns is in
    upper case. *)
Theorem ParseDenicHandle_account_id_bounds (str : string) (h : DenicHandle) :
  ParseDenicHandle str = inl h ->
  (0 <= RegAccID h <= maxInt)%Z /\ ToUpper (ContactCode h) = ContactCode h.
Proof.
  intros H. apply ParseDenicHandle_result in H as [->|(regAccID & code & Hid & ->)].
  - cbn [EmptyDenicHandle RegAccID ContactCode]. split; [unfold maxInt; lia|].
    now rewrite (ToUpper_ascii "" eq_refl).
  - cbn [RegAccID ContactCode]. split; [exact Hid|apply ToUpper_idem].
Qed.

(** X7.  The text of a parsed handle parses back to the same handle:
    parsing brings a handle text to a form that [String] and
    [ParseDenicHandle] keep. *)
Theorem ParseDenicHandle_text_stable (str : string) (h : DenicHandle) :
  ParseDenicHandle str = inl h ->
  ParseDenicHandle (DenicHandle_String h) = inl h.
Proof.
  intros H. apply ParseDenicHandle_result in H as [->|(regAccID & code & Hid & ->)].
  - reflexivity.
  - now apply ParseDenicHandle_String_upper.
Qed.

(** X8.  A handle built by [NewDenicHandle] is read back from its text
    exactly when its account id is not negative: the text of a negative id
    has an empty second segment. *)
Theorem NewDenicHandle_round_trip_iff (regAccID : Z) (contactCode : string) :
  (regAccID <= maxInt)%Z ->
  (ParseDenicHandle (DenicHandle_String (NewDenicHandle regAccID contactCode))
   = inl (NewDenicHandle regAccID contactCode)
   <-> (0 <= regAccID)%Z).
Proof.
  intros Hmax. split.
  - intros H. apply ParseDenicHandle_result in H as [H|(id & code & Hid & H)].
    + unfold NewDenicHandle, EmptyDenicHandle in H. inversion H. lia.
    + unfold NewDenicHandle in H. inversion H. lia.
  - intros Hpos. unfold NewDenicHandle. apply ParseDenicHandle_String_upper. lia.
Qed.

End HandlesMore.

(* ================================================================== *)
(** * Lines of free text, and contact records *)
(* ================================================================== *)

Section LinesMore.

Lemma prefix_byte c o a s :
  String.prefix (String c o) (String a s)
  = if Ascii.eqb c a then String.prefix o s else false.
Proof.
  cbn [String.prefix]. destruct (ascii_dec c a) as [->|Hne].
  - now rewrite Ascii.eqb_refl.
  - destruct (Ascii.eqb c a) eqn:E; [|reflexivity].
    apply Ascii.eqb_eq in E. congruence.
Qed.

Lemma prefix_empty s : String.prefix "" s = true.
Proof. now destruct s. Qed.

(** Replacing a byte by another one leaves no such byte. *)
Lemma replace_byte_lacks c d s :
  Ascii.eqb d c = false ->
  lacks c (replaceFrom (String c "") (String d "") 0 s) = true.
Proof.
  intros Hd. induction s as [|a s IH]; [reflexivity|].
  cbn [replaceFrom]. rewrite prefix_byte, prefix_empty.
  destruct (Ascii.eqb c a) eqn:E.
  - cbn [String.length Nat.sub append lacks allBytes]. rewrite Hd. exact IH.
  - cbn [lacks allBytes]. rewrite Ascii.eqb_sym, E. exact IH.
Qed.

(** Nothing is replaced in a text that lacks the first byte of [old]. *)
Lemma replaceFrom_absent c o new s :
  lacks c s = true -> replaceFrom (String c o) new 0 s = s.
Proof.
  induction s as [|a s IH]; [reflexivity|].
  cbn [lacks allBytes]. intros H. apply andb_true_iff in H as [Ha Hs].
  apply negb_true_iff in Ha. cbn [replaceFrom].
  rewrite prefix_byte, Ascii.eqb_sym, Ha. now rewrite (IH Hs).
Qed.

(** X9.  [splitLines] always returns at least one line; no line holds a
    line feed or a carriage return; joined by line feeds the lines are the
    text with its line breaks unified; and a text without line breaks is its
    own single line (the empty text gives one empty line). *)
Theorem splitLines_lines (str : string) :
  splitLines str <> []
  /\ Forall (fun line => lacks "010" line = true /\ lacks "013" line = true)
            (splitLines str)
  /\ String.concat LF (splitLines str) = unifiedBreaks str
  /\ (lacks "010" str = true -> lacks "013" str = true -> splitLines str = [str]).
Proof.
  unfold splitLines. rewrite Split_splitAll.
  change (ReplaceAll (ReplaceAll str (String "013" (String "010" "")) (String "010" ""))
            (String "013" "") (String "010" "")) with (unifiedBreaks str).
  split; [apply splitAll_not_nil|]. split; [|split].
  - pose proof (splitAll_lacks "010" (unifiedBreaks str)) as H1.
    pose proof (splitAll_allBytes (fun x => negb (Ascii.eqb x "013")) "010"
                  (unifiedBreaks str)) as H2.
    rewrite Forall_forall in *. intros line Hl. split; [now apply H1|].
    apply H2; [|exact Hl]. apply replace_byte_lacks. reflexivity.
  - apply concat_splitAll.
  - intros HL HC. unfold unifiedBreaks, ReplaceAll, CR, LF. cbn [append].
    rewrite (replaceFrom_absent "013" _ _ str HC), (replaceFrom_absent "013" _ _ str HC).
    now apply splitAll_whole.
Qed.

End LinesMore.

Section ContactsMore.

Context {CM : CaseMapping} {Laws : CaseMappingLaws CM}.

Lemma Values_map_eqb (vs : list string) m n :
  Values (map (mkQueryField m) vs) n
  = if String.eqb m (QueryFieldName_Normalize n) then vs else [].
Proof.
  destruct (String.eqb m (QueryFieldName_Normalize n)) eqn:E.
  - apply String.eqb_eq in E. now apply Values_plain_same.
  - apply String.eqb_neq in E. now apply Values_plain_other.
Qed.

Ltac eval_eqb :=
  repeat match goal with
         | |- context [String.eqb ?a ?b] =>
             let r := eval vm_compute in (String.eqb a b) in
             change (String.eqb a b) with r
         end;
  cbv iota.

Ltac read_values N :=
  rewrite ?Values_cons, ?Values_app, ?Values_cons, ?Values_app,
          ?Values_cons, ?Values_app, ?Values_cons, ?Values_map_eqb, ?Values_nil;
  cbn [Name Value]; rewrite ?N; eval_eqb; rewrite ?app_nil_r; cbn [app].

(** X10.  A contact record appends, in this order, its normalised type,
    its name, one [organisation] entry per line of the organisation, one
    [address] entry per line of the address, postal code, city, country
    code, one [email] entry per address (none for an empty list), the phone,
    then its verification information.  Without verification information,
    each field read back from a fresh list is what the record holds. *)
Theorem ContactData_PutToQueryFields_reads_back (cd : ContactData) :
  let fs := ContactData_PutToQueryFields cd NewQueryFieldList in
  fs = mkQueryField QueryFieldNameType (ContactType_Normalize (Type' cd))
       :: mkQueryField QueryFieldNameName (Name' cd)
       :: map (mkQueryField QueryFieldNameOrganisation) (splitLines (Organisation cd))
       ++ map (mkQueryField QueryFieldNameAddress) (splitLines (Address cd))
       ++ mkQueryField QueryFieldNamePostalCode (PostalCode cd)
       :: mkQueryField QueryFieldNameCity (City cd)
       :: mkQueryField QueryFieldNameCountryCode (CountryCode cd)
       :: map (mkQueryField QueryFieldNameEMail) (EMail cd)
       ++ mkQueryField QueryFieldNamePhone (Phone cd)
       :: flat_map verificationEntries (VerificationInformation' cd)
  /\ (VerificationInformation' cd = [] ->
      Values fs QueryFieldNameType = [ContactType_Normalize (Type' cd)]
      /\ Values fs QueryFieldNameName = [Name' cd]
      /\ Values fs QueryFieldNameOrganisation = splitLines (Organisation cd)
      /\ Values fs QueryFieldNameAddress = splitLines (Address cd)
      /\ Values fs QueryFieldNamePostalCode = [PostalCode cd]
      /\ Values fs QueryFieldNameCity = [City cd]
      /\ Values fs QueryFieldNameCountryCode = [CountryCode cd]
      /\ Values fs QueryFieldNameEMail = EMail cd
      /\ Values fs QueryFieldNamePhone = [Phone cd]).
Proof.
  intros fs.
  assert (E : fs = contactEntries cd).
  { subst fs. now rewrite ContactData_PutToQueryFields_entries. }
  split; [exact E|]. intros HV. rewrite E. unfold contactEntries. rewrite HV.
  cbn [flat_map].
  assert (N1 := Normalize_plain QueryFieldNameType eq_refl eq_refl).
  assert (N2 := Normalize_plain QueryFieldNameName eq_refl eq_refl).
  assert (N3 := Normalize_plain QueryFieldNameOrganisation eq_refl eq_refl).
  assert (N4 := Normalize_plain QueryFieldNameAddress eq_refl eq_refl).
  assert (N5 := Normalize_plain QueryFieldNamePostalCode eq_refl eq_refl).
  assert (N6 := Normalize_plain QueryFieldNameCity eq_refl eq_refl).
  assert (N7 := Normalize_plain QueryFieldNameCountryCode eq_refl eq_refl).
  assert (N8 := Normalize_plain QueryFieldNameEMail eq_refl eq_refl).
  assert (N9 := Normalize_plain QueryFieldNamePhone eq_refl eq_refl).
  repeat split.
  - read_values N1. reflexivity.
  - read_values N2. reflexivity.
  - read_values N3. reflexivity.
  - read_values N4. reflexivity.
  - read_values N5. reflexivity.
  - read_values N6. reflexivity.
  - read_values N7. reflexivity.
  - read_values N8. reflexivity.
  - read_values N9. reflexivity.
Qed.

End ContactsMore.

(* ================================================================== *)
(** * More on the typed constructors *)
(* ================================================================== *)

Section ConstructorsMore.

Context {CM : CaseMapping} {Laws : CaseMappingLaws CM} {ID : IDNA} {DG : SHA256}.

Ltac listed_name :=
  unfold constructorNames; cbn [In];
  repeat first [left; reflexivity | right].

Lemma contactEntries_known cd :
  VerificationInformation' cd = [] -> Forall known (contactEntries cd).
Proof.
  intros H. unfold contactEntries. rewrite H. cbn [flat_map].
  repeat first [apply Forall_cons | apply Forall_app; split | apply Forall_nil
               | apply known_map]; unfold known; cbn [Name]; listed_name.
Qed.

(** Without verification information every constructor returns version,
    then its declared action, then entries of known names. *)
Lemma build_known (c : Construction) :
  noVerification c ->
  exists rest,
    fields (build c)
    = mkQueryField QueryFieldNameVersion LatestVersion
      :: mkQueryField QueryFieldNameAction (declaredAction c) :: rest
    /\ Forall known rest.
Proof.
  intros HN.
  assert (K : forall l, Forall known l ->
             exists rest,
               fields (NewQuery LatestVersion (declaredAction c) (Some l))
               = mkQueryField QueryFieldNameVersion LatestVersion
                 :: mkQueryField QueryFieldNameAction (declaredAction c) :: rest
               /\ Forall known rest).
  { intros l Hl. exists l. rewrite NewQuery_fields, declaredAction_Normalize. auto. }
  destruct c; cbn [build declaredAction noVerification] in *.
  3: { apply K. rewrite ContactData_PutToQueryFields_entries. apply Forall_app. split.
       - apply known_Add; [listed_name|apply Forall_nil].
       - now apply contactEntries_known. }
  2: { exists []. unfold NewLogoutQuery. rewrite NewQuery_fields.
       change ActionLogout with (declaredAction Logout).
       rewrite declaredAction_Normalize. auto. }
  all: apply K.
  all: try destruct disconnect.
  all: try destruct (0 <? String.length msgType)%nat.
  all: repeat first [ apply known_domainData
                    | apply known_PutDomain
                    | apply known_Add; [listed_name|]
                    | apply Forall_nil ].
Qed.

(** X11.  Every typed constructor called without verification
    information returns a query that holds the version exactly once, as the
    latest version, and the action exactly once, as the action it declares:
    the two checks of [ParseQueryKV] on required fields hold by
    construction. *)
Theorem constructed_query_required_once (c : Construction) :
  noVerification c ->
  Query_Field (build c) QueryFieldNameVersion = [LatestVersion]
  /\ Query_Field (build c) QueryFieldNameAction = [declaredAction c].
Proof.
  intros HN. destruct (build_known c HN) as (rest & E & HR).
  assert (NV := Normalize_plain QueryFieldNameVersion eq_refl eq_refl).
  assert (NA := Normalize_plain QueryFieldNameAction eq_refl eq_refl).
  unfold Query_Field. rewrite E, !Values_cons. cbn [Name Value]. rewrite NV, NA.
  change (String.eqb QueryFieldNameVersion QueryFieldNameVersion) with true.
  change (String.eqb QueryFieldNameAction QueryFieldNameVersion) with false.
  change (String.eqb QueryFieldNameVersion QueryFieldNameAction) with false.
  change (String.eqb QueryFieldNameAction QueryFieldNameAction) with true.
  cbv iota.
  split; apply f_equal; apply Values_other.
  - rewrite NV. eapply Forall_impl; [|exact HR]. intros f Hf.
    now apply constructorNames_plain in Hf.
  - rewrite NA. eapply Forall_impl; [|exact HR]. intros f Hf.
    now apply constructorNames_plain in Hf.
Qed.

Lemma encode_two_lines f1 f2 rest :
  renderEntry f1 <> "" ->
  exists tail,
    fold_left encodeField (f1 :: f2 :: rest) ""
    = (renderEntry f1 ++ LF ++ renderEntry f2 ++ tail)%string
    /\ (tail = "" \/ exists r, tail = (LF ++ r)%string).
Proof.
  intros H1. cbn [fold_left]. rewrite (encodeField_render "" f1).
  cbn [String.length Nat.ltb Nat.leb append].
  change (fold_left encodeField rest (encodeField (renderEntry f1) f2))
    with (fold_left encodeField (f2 :: rest) (renderEntry f1)).
  rewrite fold_encodeField_render by exact H1.
  cbn [map].
  change (String.concat LF (renderEntry f1 :: renderEntry f2 :: map renderEntry rest))
    with (renderEntry f1 ++ LF
          ++ String.concat LF (renderEntry f2 :: map renderEntry rest))%string.
  destruct (concat_LF_cons (renderEntry f2) (map renderEntry rest)) as [H|(r & H & _)];
    rewrite H.
  - exists "". rewrite append_nil_r. auto.
  - exists (LF ++ r)%string. split; [reflexivity|right; now exists r].
Qed.

(** X12.  The text of every constructed query starts with the version
    line and the action line; what follows, if anything, starts on a new
    line. *)
Theorem EncodeKV_starts_with_version_action (c : Construction) :
  exists tail,
    EncodeKV (build c)
    = (("version: " ++ LatestVersion) ++ LF ++ ("action: " ++ declaredAction c) ++ tail)%string
    /\ (tail = "" \/ exists rest, tail = (LF ++ rest)%string).
Proof.
  destruct (build_fields c) as (rest & E & _).
  unfold EncodeKV. rewrite E.
  apply (encode_two_lines (mkQueryField QueryFieldNameVersion LatestVersion)
           (mkQueryField QueryFieldNameAction (declaredAction c)) rest).
  discriminate.
Qed.

End ConstructorsMore.

Section QueueAndAuthInfo.

Context {CM : CaseMapping} {Laws : CaseMappingLaws CM} {ID : IDNA} {DG : SHA256}.

(** X13.  The message type is an optional filter of the queue
    queries: an empty message type adds no entry at all, any other one is
    the single [msgtype] value; [NewQueueDeleteQuery] always carries the
    message id, empty or not, before it. *)
Theorem NewQueue_msgtype_optional (msgID msgType : string) :
  fields (NewQueueReadQuery msgType)
  = mkQueryField QueryFieldNameVersion LatestVersion
    :: mkQueryField QueryFieldNameAction ActionQueueRead
    :: (if String.eqb msgType "" then []
        else [mkQueryField QueryFieldNameMsgType msgType])
  /\ fields (NewQueueDeleteQuery msgID msgType)
     = mkQueryField QueryFieldNameVersion LatestVersion
       :: mkQueryField QueryFieldNameAction ActionQueueDelete
       :: mkQueryField QueryFieldNameMsgID msgID
       :: (if String.eqb msgType "" then []
           else [mkQueryField QueryFieldNameMsgType msgType])
  /\ Query_Field (NewQueueReadQuery msgType) QueryFieldNameMsgType
     = (if String.eqb msgType "" then [] else [msgType])
  /\ Query_Field (NewQueueDeleteQuery msgID msgType) QueryFieldNameMsgType
     = (if String.eqb msgType "" then [] else [msgType])
  /\ Query_Field (NewQueueDeleteQuery msgID msgType) QueryFieldNameMsgID = [msgID].
Proof.
  assert (N1 := Normalize_plain QueryFieldNameMsgType eq_refl eq_refl).
  assert (N2 := Normalize_plain QueryFieldNameMsgID eq_refl eq_refl).
  assert (A1 := declaredAction_Normalize (QueueRead "")).
  assert (A2 := declaredAction_Normalize (QueueDelete "" "")).
  cbn [declaredAction] in A1, A2.
  unfold Query_Field, NewQueueReadQuery, NewQueueDeleteQuery.
  rewrite !NewQuery_fields, A1, A2. unfold Version_Normalize, Add, NewQueryFieldList.
  rewrite N1, N2.
  destruct msgType as [|a t]; cbn [String.length Nat.ltb Nat.leb String.eqb map app];
    repeat split; rewrite !Values_cons; cbn [Name Value]; rewrite ?N1, ?N2;
    reflexivity.
Qed.

(** X14.  [NewCreateAuthInfo1Query] sends the authorization string as
    its digest only: the query has no [authinfo] entry.
    [NewChangeProviderQuery] sends it verbatim as the single [authinfo]
    value, and no digest; [NewCreateAuthInfo2Query] sends neither. *)
Theorem authinfo_entries (domain authInfo : string) (expireDay : Time)
    (domainData : DomainData) :
  Query_Field (NewCreateAuthInfo1Query domain authInfo expireDay) QueryFieldNameAuthInfo
  = []
  /\ Query_Field (NewChangeProviderQuery domain authInfo domainData)
                 QueryFieldNameAuthInfo = [authInfo]
  /\ Query_Field (NewChangeProviderQuery domain authInfo domainData)
                 QueryFieldNameAuthInfoHash = []
  /\ Query_Field (NewCreateAuthInfo2Query domain) QueryFieldNameAuthInfo = []
  /\ Query_Field (NewCreateAuthInfo2Query domain) QueryFieldNameAuthInfoHash = [].
Proof.
  assert (N1 := Normalize_plain QueryFieldNameAuthInfo eq_refl eq_refl).
  assert (N2 := Normalize_plain QueryFieldNameAuthInfoHash eq_refl eq_refl).
  assert (N3 := Normalize_plain QueryFieldNameAuthInfoExpire eq_refl eq_refl).
  unfold Query_Field, NewCreateAuthInfo1Query, NewChangeProviderQuery,
    NewCreateAuthInfo2Query.
  rewrite !NewQuery_fields. unfold Add.
  rewrite DomainData_PutToQueryFields_entries, !PutDomainToQueryFields_entries.
  rewrite N1, N2, N3. unfold NewQueryFieldList. cbn [map app].
  repeat split; rewrite ?Values_cons, ?Values_app, ?Values_cons, ?Values_app;
    cbn [Name Value]; rewrite ?N1, ?N2;
    rewrite ?Values_domainEntries_other, ?Values_handleEntries_other,
      ?Values_plain_other, ?Values_cons, ?Values_nil
      by (rewrite ?N1, ?N2; discriminate);
    cbn [Name Value]; rewrite ?N1, ?N2; reflexivity.
Qed.

End QueueAndAuthInfo.

(* ================================================================== *)
(** * The length of the digest *)
(* ================================================================== *)

Section DigestLength.

Lemma round_length st kw : List.length (Sha256.round st kw) = List.length st.
Proof.
  unfold Sha256.round.
  destruct st as [|a [|b [|c [|d [|e [|f [|g [|h [|i st]]]]]]]]]; reflexivity.
Qed.

Lemma fold_round_length l : forall st,
  List.length (fold_left Sha256.round l st) = List.length st.
Proof.
  induction l as [|kw l IH]; intros st; cbn [fold_left]; [reflexivity|].
  now rewrite IH, round_length.
Qed.

Lemma block_length h bytes : List.length (Sha256.block h bytes) = List.length h.
Proof.
  unfold Sha256.block. rewrite length_map, length_combine, fold_round_length.
  apply Nat.min_id.
Qed.

Lemma blocks_length fuel : forall h bytes,
  List.length (Sha256.blocks fuel h bytes) = List.length h.
Proof.
  induction fuel as [|fuel IH]; intros h bytes; cbn [Sha256.blocks]; [reflexivity|].
  destruct bytes; [reflexivity|]. now rewrite IH, block_length.
Qed.

Lemma flat_map_bigEndian_length l :
  List.length (flat_map (Sha256.bigEndian 4) l) = 4 * List.length l.
Proof.
  induction l as [|x l IH]; [reflexivity|].
  cbn [flat_map]. rewrite length_app, IH. cbn [Sha256.bigEndian List.length]. lia.
Qed.

Lemma length_string_of_list l :
  String.length (string_of_list_ascii l) = List.length l.
Proof. induction l; cbn; congruence. Qed.

(** The digest has 32 bytes, whatever the message. *)
Lemma Sha256_sum_length s : String.length (Sha256.sum s) = 32.
Proof.
  unfold Sha256.sum, Sha256.digest.
  rewrite length_string_of_list, length_map, flat_map_bigEndian_length, blocks_length.
  reflexivity.
Qed.

(** X15.  With SHA-256 as the digest, [computeHashSHA256] returns 64
    lower-case hexadecimal digits for every input, the empty one included. *)
Theorem computeHashSHA256_hex64 (str : string) :
  String.length (@computeHashSHA256 sha256 str) = 64
  /\ allBytes isLowerHex (@computeHashSHA256 sha256 str) = true.
Proof.
  unfold computeHashSHA256.
  destruct (EncodeToString_lower (@Sum256 sha256 str)) as [H1 H2].
  split; [|exact H1]. rewrite H2. cbn [Sum256 sha256]. now rewrite Sha256_sum_length.
Qed.

End DigestLength.

(* ================================================================== *)
(** * Encoding what was parsed *)
(* ================================================================== *)

Section Reencoding.

Context {CM : CaseMapping} {Laws : CaseMappingLaws CM}.

Lemma lowerByte_facts a :
  (isASCIIByte a = true -> isASCIIByte (lowerByte a) = true)
  /\ isSpace1 (lowerByte a) = isSpace1 a
  /\ lowerByte (lowerByte a) = lowerByte a
  /\ Ascii.eqb (lowerByte a) ":" = Ascii.eqb a ":"
  /\ Ascii.eqb (lowerByte a) "010" = Ascii.eqb a "010".
Proof.
  destruct a as [[] [] [] [] [] [] [] []]; repeat split; intros H;
    first [reflexivity | discriminate H].
Qed.

Lemma mapBytes_append f a b :
  mapBytes f (a ++ b)%string = (mapBytes f a ++ mapBytes f b)%string.
Proof. induction a as [|x a IH]; cbn [append mapBytes]; congruence. Qed.

Lemma mapBytes_rev f s : mapBytes f (rev s) = rev (mapBytes f s).
Proof.
  induction s as [|a s IH]; [reflexivity|].
  cbn [mapBytes]. now rewrite !rev_cons, mapBytes_append, IH.
Qed.

Lemma lower_ascii s : isASCII s = true -> isASCII (mapBytes lowerByte s) = true.
Proof.
  unfold isASCII. induction s as [|a s IH]; [reflexivity|]. cbn [allBytes mapBytes].
  intros H. apply andb_true_iff in H as [Ha Hs].
  apply (proj1 (lowerByte_facts a)) in Ha. now rewrite Ha, IH.
Qed.

Lemma lower_idem s : mapBytes lowerByte (mapBytes lowerByte s) = mapBytes lowerByte s.
Proof.
  induction s as [|a s IH]; [reflexivity|]. cbn [mapBytes].
  destruct (lowerByte_facts a) as (_ & _ & -> & _). now rewrite IH.
Qed.

Lemma lower_lacks_colon s : lacks ":" (mapBytes lowerByte s) = lacks ":" s.
Proof.
  unfold lacks. induction s as [|a s IH]; [reflexivity|]. cbn [allBytes mapBytes].
  destruct (lowerByte_facts a) as (_ & _ & _ & -> & _). now rewrite IH.
Qed.

Lemma lower_lacks_newline s : lacks "010" (mapBytes lowerByte s) = lacks "010" s.
Proof.
  unfold lacks. induction s as [|a s IH]; [reflexivity|]. cbn [allBytes mapBytes].
  destruct (lowerByte_facts a) as (_ & _ & _ & _ & ->). now rewrite IH.
Qed.

Lemma trimHead_lower_fixed p2 p3 s :
  (forall a b, p2 a b = true -> isASCIIByte a = false /\ isASCIIByte b = false) ->
  (forall a b c, p3 a b c = true ->
     isASCIIByte a = false /\ isASCIIByte b = false /\ isASCIIByte c = false) ->
  isASCII s = true -> trimHead p2 p3 s = s ->
  trimHead p2 p3 (mapBytes lowerByte s) = mapBytes lowerByte s.
Proof.
  intros H2 H3 HA HF. destruct s as [|a s]; [reflexivity|].
  apply trimHead_fixed_inv in HF as [HS _].
  cbn [isASCII allBytes] in HA. apply andb_true_iff in HA as [Ha _].
  cbn [mapBytes]. destruct (lowerByte_facts a) as (F1 & F2 & _).
  apply trimHead_keep; auto. now rewrite F2.
Qed.

(** Lower-casing an ASCII text does not bring white space to its ends. *)
Lemma TrimSpace_lower s :
  isASCII s = true -> TrimSpace s = s ->
  TrimSpace (mapBytes lowerByte s) = mapBytes lowerByte s.
Proof.
  intros HA HT. destruct (TrimSpace_fixed s HT) as [HL HR].
  unfold TrimSpace, TrimLeftSpace.
  rewrite (trimHead_lower_fixed _ _ s isSpace2_high isSpace3_high HA HL).
  rewrite TrimRightSpace_rev, <- mapBytes_rev.
  rewrite (trimHead_lower_fixed _ _ (rev s) lastFirst2_high lastFirst3_high).
  - now rewrite mapBytes_rev, rev_involutive.
  - unfold isASCII. now rewrite allBytes_rev.
  - exact HR.
Qed.

(** The names of the entries of ASCII lines are key names. *)
Lemma entryOfLine_keyName line f :
  isASCII line = true -> lacks "010" line = true ->
  entryOfLine line f -> keyName (Name f).
Proof.
  intros HA HL (before & after & -> & HC & ->). cbn [Name].
  unfold isASCII in HA. rewrite allBytes_append in HA.
  apply andb_true_iff in HA as [HA _].
  rewrite lacks_append in HL. apply andb_true_iff in HL as [HL _].
  assert (KA : isASCII (TrimSpace before) = true) by now apply TrimSpace_allBytes.
  assert (KC : lacks ":" (TrimSpace before) = true) by now apply TrimSpace_allBytes.
  assert (KL : lacks "010" (TrimSpace before) = true) by now apply TrimSpace_allBytes.
  unfold QueryFieldName_Normalize. rewrite (ToLower_ascii _ KA).
  repeat split.
  - now apply lower_ascii.
  - apply lower_idem.
  - now rewrite lower_lacks_colon.
  - now rewrite lower_lacks_newline.
  - apply TrimSpace_lower; [exact KA|apply TrimSpace_idem].
Qed.

Lemma entries_keyNames lines fs :
  Forall (fun l => isASCII l = true) lines ->
  Forall (fun l => lacks "010" l = true) lines ->
  Forall2 entryOfLine lines fs ->
  Forall (fun f => keyName (Name f)) fs.
Proof.
  intros H1 H2 HF. revert H1 H2.
  induction HF as [|line f lines fs Hf _ IH]; intros H1 H2; [constructor|].
  constructor.
  - eapply entryOfLine_keyName; [exact (Forall_inv H1)|exact (Forall_inv H2)|exact Hf].
  - apply IH; [exact (Forall_inv_tail H1)|exact (Forall_inv_tail H2)].
Qed.

Lemma TrimSpace_lineOf_key n v :
  keyName n -> wireValue v ->
  TrimSpace (lineOf (mkQueryField n v)) = (n ++ String ":" (afterColon v))%string.
Proof.
  intros (KA & _ & _ & _ & KT) [_ Hv]. unfold lineOf. cbn [Name Value append].
  unfold TrimSpace.
  assert (HL : TrimLeftSpace (n ++ String ":" (String " " v))%string
               = (n ++ String ":" (String " " v))%string).
  { unfold TrimLeftSpace. destruct n as [|a n]; cbn [append].
    - now apply trimHead_keep; auto using isSpace2_high, isSpace3_high.
    - destruct (TrimSpace_fixed _ KT) as [KL _].
      apply trimHead_fixed_inv in KL as [KS _].
      cbn [isASCII allBytes] in KA. apply andb_true_iff in KA as [Ka _].
      now apply trimHead_keep; auto using isSpace2_high, isSpace3_high. }
  rewrite HL, TrimRightSpace_rev.
  change (n ++ String ":" (String " " v))%string
    with (n ++ (String ":" (String " " "") ++ v))%string.
  rewrite !rev_append. change (rev (String ":" (String " " ""))) with (String " " (String ":" "")).
  unfold afterColon. destruct v as [|x v].
  - cbn [rev revOnto append String.eqb].
    rewrite trimHead_skip by reflexivity.
    rewrite trimHead_keep by auto using lastFirst2_high, lastFirst3_high.
    change (rev "") with "". cbn [append].
    change (String ":" (rev n)) with (rev (String ":" "") ++ rev n)%string.
    now rewrite <- rev_append, rev_involutive.
  - cbn [String.eqb]. destruct (TrimSpace_fixed _ Hv) as [_ HR].
    rewrite append_assoc. cbn [append].
    rewrite trimHead_fixed_append; auto using lastFirst2_high, lastFirst3_high.
    + change (String " " (String ":" (rev n)))
        with (rev (String ":" (String " " "")) ++ rev n)%string.
      rewrite <- append_assoc, <- !rev_append, rev_involutive.
      reflexivity.
    + intros E. apply (f_equal String.length) in E. rewrite length_rev in E. discriminate.
Qed.

Lemma parseLines_lineOf_key l : forall acc,
  Forall (fun f => keyName (Name f) /\ wireValue (Value f)) l ->
  parseLines (map lineOf l) acc = inl (acc ++ l).
Proof.
  induction l as [|[n v] l IH]; intros acc H; cbn [map parseLines].
  - now rewrite app_nil_r.
  - inversion H as [|f l' [Hn Hv] Hl]; subst. cbn [Name Value] in Hn, Hv.
    rewrite (TrimSpace_lineOf_key n v Hn Hv).
    assert ((String.length (n ++ String ":" (afterColon v)) =? 0)%nat = false) as ->.
    { rewrite length_append. cbn [String.length]. apply Nat.eqb_neq. lia. }
    change ":" with (String ":" ""). rewrite SplitN_2.
    destruct Hn as (KA & KI & KC & KL & KT).
    rewrite (Cut_found ":" n (afterColon v) KC).
    rewrite KT, (TrimSpace_afterColon v Hv).
    rewrite (IH _ Hl). unfold Add. rewrite (Normalize_plain n KA KI).
    cbn [map]. now rewrite <- app_assoc.
Qed.

Lemma lineOf_key_lacks_newline f :
  keyName (Name f) -> wireValue (Value f) -> lacks "010" (lineOf f) = true.
Proof.
  intros (_ & _ & _ & KL & _) [Hv _]. unfold lineOf. rewrite !lacks_append.
  rewrite KL, Hv. reflexivity.
Qed.

(** X16.  A parsed ASCII text without an [entity] key gives a query
    that its own encoding gives again: [ParseQueryKV] of [EncodeKV] of the
    parsed query is that query. *)
Theorem ParseQueryKV_EncodeKV_stable (str : string) (q : Query) :
  isASCII str = true ->
  ParseQueryKV str = inl q ->
  Forall (fun f => Name f <> QueryFieldNameEntity) (fields q) ->
  ParseQueryKV (EncodeKV q) = inl q.
Proof.
  intros HA HQ HE. destruct (ParseQueryKV_inl_entries str q HQ) as (HF & HV & HC).
  assert (HW : Forall (fun f => wireValue (Value f)) (fields q)).
  { eapply entries_values_wire; [apply nonBlankLines_lack_newline|exact HF]. }
  assert (HK : Forall (fun f => keyName (Name f)) (fields q)).
  { eapply entries_keyNames; [|apply nonBlankLines_lack_newline|exact HF].
    exact (nonBlankLines_allBytes isASCIIByte str HA). }
  destruct q as [l]. cbn [fields] in *.
  assert (HKW : Forall (fun f => keyName (Name f) /\ wireValue (Value f)) l).
  { rewrite Forall_forall in *. auto. }
  assert (HP : parseLines (Split (EncodeKV (mkQuery l)) (String "010" ""))
                 NewQueryFieldList = inl l).
  { rewrite (EncodeKV_concat l HE).
    destruct l as [|f l]; [cbn in HV; discriminate|]. cbn [map].
    rewrite Split_concat.
    - change (lineOf f :: map lineOf l) with (map lineOf (f :: l)).
      now rewrite parseLines_lineOf_key.
    - destruct (Forall_inv HKW). now apply lineOf_key_lacks_newline.
    - apply Forall_map. eapply Forall_impl; [|exact (Forall_inv_tail HKW)].
      intros g [G1 G2]. now apply lineOf_key_lacks_newline. }
  destruct (ParseQueryKV_validate _ _ HP) as [(_ & _ & H)|([Hbad|Hbad] & _)];
    [exact H|congruence|congruence].
Qed.

End Reencoding.

Section ContactTypesMore.

Context {CM : CaseMapping} {Laws : CaseMappingLaws CM}.

(** X17.  What [ParseContactType] returns is one of the two types it
    knows, is kept by [Normalize], and parses to itself. *)
Theorem ParseContactType_result_stable (str : string) (t : ContactType) :
  ParseContactType str = inl t ->
  (t = ContactTypePerson \/ t = ContactTypeOrganisation)
  /\ ContactType_Normalize t = t
  /\ ParseContactType t = inl t.
Proof.
  unfold ParseContactType at 1.
  destruct (String.eqb (ToUpper str) "PERSON");
    [|destruct (String.eqb (ToUpper str) "ORG"); [|discriminate]];
    intros H; inversion H; subst t.
  - split; [now left|]. unfold ContactType_Normalize, ParseContactType.
    now rewrite (ToUpper_ascii ContactTypePerson eq_refl).
  - split; [now right|]. unfold ContactType_Normalize, ParseContactType.
    now rewrite (ToUpper_ascii ContactTypeOrganisation eq_refl).
Qed.

End ContactTypesMore.

(* ================================================================== *)
(** * The further properties on concrete inputs *)
(* ================================================================== *)

Section EvaluationMore.

#[local] Existing Instance asciiCase.
#[local] Existing Instance asciiCase_laws.
#[local] Existing Instance tableIDNA.
#[local] Existing Instance sha256.

Lemma ParseQueryKV_lines_only_witness :
  ParseQueryKV ("version: 5.0" ++ CR ++ LF ++ LF ++ "  action: LOGIN  " ++ CR ++ LF)%string
  = ParseQueryKV ("version: 5.0" ++ LF ++ "action: LOGIN")%string.
Proof. apply ParseQueryKV_lines_only. vm_compute. reflexivity. Defined.

Lemma ParseQueryKV_values_trimmed_witness :
  Forall (fun f => wireValue (Value f))
    [mkQueryField "version" "5.0"; mkQueryField "action" "LOGIN";
     mkQueryField "user" "alice"].
Proof.
  apply (ParseQueryKV_values_trimmed
           ("version: 5.0" ++ LF ++ "action: LOGIN" ++ LF ++ "User:   alice  ")%string
           (mkQuery [mkQueryField "version" "5.0"; mkQueryField "action" "LOGIN";
                     mkQueryField "user" "alice"])).
  vm_compute. reflexivity.
Defined.

Lemma EncodeKV_marker_not_parsed_witness :
  ParseQueryKV
    (EncodeKV (mkQuery ([mkQueryField "version" "5.0"; mkQueryField "action" "CREATE"]
                        ++ mkQueryField QueryFieldNameEntity "[verificationinformation]"
                        :: [mkQueryField "verifiedclaim" "x"])))
  = inr lineError.
Proof.
  apply EncodeKV_marker_not_parsed; [reflexivity|reflexivity|].
  vm_compute. discriminate.
Defined.

Lemma ParseDenicHandle_account_id_bounds_witness :
  (0 <= RegAccID (mkDenicHandle 12 "ABC") <= maxInt)%Z
  /\ ToUpper (ContactCode (mkDenicHandle 12 "ABC")) = ContactCode (mkDenicHandle 12 "ABC").
Proof.
  exact (ParseDenicHandle_account_id_bounds "denic-12-abc" (mkDenicHandle 12 "ABC")
           eq_refl).
Defined.

Lemma ParseDenicHandle_text_stable_witness :
  ParseDenicHandle (DenicHandle_String (mkDenicHandle 12 "ABC"))
  = inl (mkDenicHandle 12 "ABC").
Proof.
  exact (ParseDenicHandle_text_stable "denic-12-abc" (mkDenicHandle 12 "ABC") eq_refl).
Defined.

Lemma NewDenicHandle_round_trip_iff_witness :
  ParseDenicHandle (DenicHandle_String (NewDenicHandle (-5) "x"))
  <> inl (NewDenicHandle (-5) "x").
Proof.
  assert (H : (-5 <= maxInt)%Z) by (unfold maxInt; lia).
  intros E. apply (proj1 (NewDenicHandle_round_trip_iff (-5) "x" H)) in E. lia.
Defined.

Lemma ContactData_PutToQueryFields_reads_back_witness :
  let cd := mkContactData "org" "Example" ("Example" ++ CR ++ LF ++ "GmbH") "Main St 1"
              "12345" "Berlin" "DE" [] "+49 30 1" [] in
  Values (ContactData_PutToQueryFields cd NewQueryFieldList) QueryFieldNameOrganisation
  = ["Example"; "GmbH"]
  /\ Values (ContactData_PutToQueryFields cd NewQueryFieldList) QueryFieldNameEMail = [].
Proof.
  intros cd.
  destruct (proj2 (ContactData_PutToQueryFields_reads_back cd) eq_refl)
    as (_ & _ & HO & _ & _ & _ & _ & HE & _).
  split; [exact HO|exact HE].
Defined.

Lemma constructed_query_required_once_witness :
  Query_Field (build (CheckDomain "example.de")) QueryFieldNameVersion = ["5.0"]
  /\ Query_Field (build (CheckDomain "example.de")) QueryFieldNameAction = ["CHECK"].
Proof. exact (constructed_query_required_once (CheckDomain "example.de") I). Defined.

Lemma EncodeKV_starts_with_version_action_witness :
  exists tail,
    EncodeKV (build (Login "alice" "secret"))
    = (("version: " ++ "5.0") ++ LF ++ ("action: " ++ "LOGIN") ++ tail)%string
    /\ (tail = "" \/ exists rest, tail = (LF ++ rest)%string).
Proof. exact (EncodeKV_starts_with_version_action (Login "alice" "secret")). Defined.

Lemma NewQueue_msgtype_optional_witness :
  Query_Field (NewQueueReadQuery "") QueryFieldNameMsgType = []
  /\ Query_Field (NewQueueDeleteQuery "42" "authInfo2Notify") QueryFieldNameMsgType
     = ["authInfo2Notify"].
Proof.
  split.
  - exact (proj1 (proj2 (proj2 (NewQueue_msgtype_optional "" "")))).
  - exact (proj1 (proj2 (proj2 (proj2
             (NewQueue_msgtype_optional "42" "authInfo2Notify"))))).
Defined.

Lemma authinfo_entries_witness :
  Query_Field (NewChangeProviderQuery "example.de" "s3cret"
                 (mkDomainData [NewDenicHandle 1 "a"] [] [] ["ns1.example.de"]))
              QueryFieldNameAuthInfo
  = ["s3cret"].
Proof.
  exact (proj1 (proj2 (authinfo_entries "example.de" "s3cret" (mkTime 2026 3 7)
                         (mkDomainData [NewDenicHandle 1 "a"] [] [] ["ns1.example.de"])))).
Defined.

Lemma ParseQueryKV_EncodeKV_stable_witness :
  let q := mkQuery [mkQueryField "version" "5.0"; mkQueryField "action" "login"] in
  ParseQueryKV (EncodeKV q) = inl q.
Proof.
  intros q.
  apply (ParseQueryKV_EncodeKV_stable
           (" Version : 5.0 " ++ LF ++ LF ++ "ACTION:login")%string q).
  - reflexivity.
  - vm_compute. reflexivity.
  - repeat (apply Forall_cons; [discriminate|]). apply Forall_nil.
Defined.

Lemma ParseContactType_result_stable_witness :
  ParseContactType ContactTypeOrganisation = inl ContactTypeOrganisation.
Proof.
  exact (proj2 (proj2 (ParseContactType_result_stable "Org" ContactTypeOrganisation
                         eq_refl))).
Defined.

Example splitLines_mixed_breaks :
  splitLines ("a" ++ CR ++ LF ++ "b" ++ CR ++ "c" ++ LF ++ "")%string = ["a"; "b"; "c"; ""].
Proof. vm_compute. reflexivity. Qed.

Example EncodeKV_marker_first :
  EncodeKV (mkQuery [mkQueryField QueryFieldNameEntity "";
                     mkQueryField "version" "5.0"; mkQueryField "action" "LOGIN"])
  = ("version: 5.0" ++ LF ++ "action: LOGIN")%string.
Proof. vm_compute. reflexivity. Qed.

End EvaluationMore.
